(** * LDS verification engine: a shallow embedding and its checked properties

    The development follows the layout of the Python sources:
    - [Py]       : the few built-in string and list operations the code uses;
    - [Schemas]  : verification/schemas.py ([SubAgentFinding], [VerificationResult]);
    - [Fanout]   : framework/fanout.py ([gather_with_limit], [map_with_limit]);
    - [Tools]    : verification/tools.py (the probes and their helpers);
    - [Llm]      : llm/structured_json.py;
    - [Agent]    : verification/agent.py ([verify_candidate]).

    Conventions.  A Python [str] is a Rocq [string] (the model covers ASCII
    text).  A Python exception is a value of [exn]; code that may raise returns
    [exn + A].  Only subclasses of [Exception] are modelled: task cancellation
    and interpreter shutdown are outside the model.  Python floats that hold
    scores and ratios are modelled by exact rationals [Q].  Network calls,
    sleeps and the search library are effects of a small state-and-error monad
    over an environment of oracles. *)

From Stdlib Require Import ZArith QArith Lqa String Ascii List Lia Bool.
From stdpp Require Import base option list gmap sorting strings.

Set Warnings "-register-all,-abstract-large-number".

Local Open Scope string_scope.
Local Open Scope list_scope.

(** ** Exceptions *)

Inductive exn_kind :=
  | ImportError | ValueError | TypeError | IndexError | AttributeError
  | ConnectError | ReadTimeout | ConnectTimeout | HTTPStatusError
  | JSONDecodeError | ValidationError | OtherError.

(** [exn_name] is [type(e).__name__] and [exn_msg] is [str(e)]. *)
Record exn := Exn { exn_kind_of : exn_kind; exn_name : string; exn_msg : string }.

Definition exn_kind_eqb (a b : exn_kind) : bool :=
  match a, b with
  | ImportError, ImportError | ValueError, ValueError | TypeError, TypeError
  | IndexError, IndexError | AttributeError, AttributeError
  | ConnectError, ConnectError | ReadTimeout, ReadTimeout
  | ConnectTimeout, ConnectTimeout | HTTPStatusError, HTTPStatusError
  | JSONDecodeError, JSONDecodeError | ValidationError, ValidationError
  | OtherError, OtherError => true
  | _, _ => false
  end.

Definition is_instance (e : exn) (k : exn_kind) : bool := exn_kind_eqb (exn_kind_of e) k.

(** ** Python built-ins *)

Module Py.

(** [s[:n]] *)
Definition take_str (n : nat) (s : string) : string := String.substring 0 n s.

(** [s[n:]] *)
Fixpoint drop_str (n : nat) (s : string) : string :=
  match n, s with
  | O, _ => s
  | S n', EmptyString => EmptyString
  | S n', String _ s' => drop_str n' s'
  end.

Definition nat_of_char (c : ascii) : nat := nat_of_ascii c.

Definition is_upper (c : ascii) : bool := (65 <=? nat_of_char c)%nat && (nat_of_char c <=? 90)%nat.
Definition is_lower (c : ascii) : bool := (97 <=? nat_of_char c)%nat && (nat_of_char c <=? 122)%nat.
Definition is_digit (c : ascii) : bool := (48 <=? nat_of_char c)%nat && (nat_of_char c <=? 57)%nat.

(** [\w] of the [re] module, on ASCII text. *)
Definition is_word (c : ascii) : bool :=
  is_upper c || is_lower c || is_digit c || (nat_of_char c =? 95)%nat.

(** [str.isspace] and [\s], on ASCII text: tab, LF, VT, FF, CR, FS..US, space. *)
Definition is_space (c : ascii) : bool :=
  ((9 <=? nat_of_char c)%nat && (nat_of_char c <=? 13)%nat)
  || ((28 <=? nat_of_char c)%nat && (nat_of_char c <=? 32)%nat).

Definition lower_char (c : ascii) : ascii :=
  if is_upper c then ascii_of_nat (nat_of_char c + 32) else c.

(** [s.lower()] *)
Fixpoint lower (s : string) : string :=
  match s with
  | EmptyString => EmptyString
  | String c s' => String (lower_char c) (lower s')
  end.

(** [s.startswith(p)] *)
Fixpoint startswith (p s : string) : bool :=
  match p, s with
  | EmptyString, _ => true
  | String a p', String b s' => if Ascii.eqb a b then startswith p' s' else false
  | String _ _, EmptyString => false
  end.

(** [p in s] *)
Fixpoint contains (p s : string) : bool :=
  startswith p s ||
  match s with
  | EmptyString => false
  | String _ s' => contains p s'
  end.

(** [s.find(p)] as an option. *)
Fixpoint find (p s : string) : option nat :=
  if startswith p s then Some O
  else match s with
       | EmptyString => None
       | String _ s' => S <$> find p s'
       end.

(** [s.lstrip()], [s.rstrip()], [s.strip()] *)
Fixpoint lstrip (s : string) : string :=
  match s with
  | String c s' => if is_space c then lstrip s' else s
  | EmptyString => EmptyString
  end.

Fixpoint rstrip (s : string) : string :=
  match s with
  | EmptyString => EmptyString
  | String c s' =>
      match rstrip s' with
      | EmptyString => if is_space c then EmptyString else String c EmptyString
      | r => String c r
      end
  end.

Definition strip (s : string) : string := rstrip (lstrip s).

(** [s.split()] : the maximal runs of non-space characters. *)
Fixpoint split_ws_aux (cur : string) (s : string) : list string :=
  match s with
  | EmptyString => match cur with EmptyString => [] | _ => [cur] end
  | String c s' =>
      if is_space c
      then match cur with
           | EmptyString => split_ws_aux EmptyString s'
           | _ => cur :: split_ws_aux EmptyString s'
           end
      else split_ws_aux (cur +:+ String c EmptyString) s'
  end.

Definition split_ws (s : string) : list string := split_ws_aux EmptyString s.

(** [s.split(sep)] for a one-character separator. *)
Fixpoint split_on_aux (sep : ascii) (cur : string) (s : string) : list string :=
  match s with
  | EmptyString => [cur]
  | String c s' =>
      if Ascii.eqb c sep then cur :: split_on_aux sep EmptyString s'
      else split_on_aux sep (cur +:+ String c EmptyString) s'
  end.

Definition split_on (sep : ascii) (s : string) : list string := split_on_aux sep EmptyString s.

(** [sep.join(l)] *)
Fixpoint join (sep : string) (l : list string) : string :=
  match l with
  | [] => EmptyString
  | [x] => x
  | x :: l' => x +:+ sep +:+ join sep l'
  end.

(** [s.strip(chars)] for a one-character set. *)
Fixpoint lstrip_char (k : ascii) (s : string) : string :=
  match s with
  | String c s' => if Ascii.eqb c k then lstrip_char k s' else s
  | EmptyString => EmptyString
  end.

Fixpoint rstrip_char (k : ascii) (s : string) : string :=
  match s with
  | EmptyString => EmptyString
  | String c s' =>
      match rstrip_char k s' with
      | EmptyString => if Ascii.eqb c k then EmptyString else String c EmptyString
      | r => String c r
      end
  end.

Definition strip_char (k : ascii) (s : string) : string := rstrip_char k (lstrip_char k s).

(** The line feed and the double quote, which have no literal. *)
Definition nl : string := String (ascii_of_nat 10) EmptyString.
Definition dq : string := String (ascii_of_nat 34) EmptyString.

(** [bool(s)] of a string: it is not empty. *)
Definition truthy (s : string) : bool :=
  match s with EmptyString => false | _ => true end.

(** [range(0, stop, step)] for [step >= 1]. *)
Definition range0 (stop step : nat) : list nat :=
  (fun k => k * step) <$> seq 0 ((stop + step - 1) / step).

(** [str(n)] for a natural number. *)
Definition digit_char (d : nat) : ascii := ascii_of_nat (48 + d).

Fixpoint str_of_nat_aux (fuel n : nat) (acc : string) : string :=
  match fuel with
  | O => acc
  | S f =>
      let acc' := String (digit_char (n mod 10)) acc in
      if (n <? 10)%nat then acc' else str_of_nat_aux f (n / 10) acc'
  end.

Definition str_of_nat (n : nat) : string := str_of_nat_aux (S n) n EmptyString.

Definition str_of_Z (z : Z) : string :=
  if (z <? 0)%Z then "-" +:+ str_of_nat (Z.to_nat (- z)) else str_of_nat (Z.to_nat z).

(** A stable sort by a boolean [le] on keys, as [list.sort(key=...)]:
    elements with equal keys keep their relative order. *)
Section Sort.
Context {A K : Type} (key : A -> K) (le : K -> K -> bool).

Fixpoint insert_sorted (x : A) (l : list A) : list A :=
  match l with
  | [] => [x]
  | y :: l' => if le (key x) (key y) then x :: l else y :: insert_sorted x l'
  end.

Definition sort_by (l : list A) : list A := foldr insert_sorted [] l.
End Sort.

End Py.

(** ** verification/schemas.py *)

Module Schemas.

(** [supports_eligibility : Optional[bool]] is the tri-state [option bool]. *)
Record SubAgentFinding := mkFinding {
  source : string;
  url : option string;
  finding : string;
  supports_eligibility : option bool;
  is_error : bool;
  error_detail : option string;
}.

(** The constructor call with the defaults of the Pydantic fields. *)
Definition Finding (src : string) (u : option string) (txt : string) : SubAgentFinding :=
  mkFinding src u txt None false None.

Definition ErrorFinding (src : string) (u : option string) (txt : string) (detail : string)
  : SubAgentFinding :=
  mkFinding src u txt None true (Some detail).

Record VerificationResult := mkResult {
  verdict : string;
  confidence : Z;
  is_chain : bool;
  chain_reason : option string;
  evidence : list SubAgentFinding;
  reasoning : string;
  checks_performed : list string;
}.

End Schemas.

(** ** framework/fanout.py *)

Module Fanout.

Section Fanout.
Context {T : Type}.

(** A value of Python type [T | None]. *)
Definition slot := option T.

(** What awaiting one operation yields: an exception or a value, which may
    be Python's [None]. *)
Definition outcome := (exn + slot)%type.

Definition invalid_concurrency : exn :=
  Exn ValueError "ValueError" "concurrency must be >= 1".

(** The tasks complete in the order [schedule] (indices into the input
    list); task [idx] then runs [results[idx] = await aw].  The gather
    stops at the first task that raises. *)
Fixpoint run_tasks (awaitables : list outcome) (schedule : list nat)
         (results : list slot) : exn + list slot :=
  match schedule with
  | [] => inr results
  | idx :: rest =>
      match awaitables !! idx with
      | None => run_tasks awaitables rest results
      | Some (inl e) => inl e
      | Some (inr v) => run_tasks awaitables rest (<[idx := v]> results)
      end
  end.

(** [[r for r in results if r is not None]] *)
Definition not_none (results : list slot) : list T := omap id results.

Definition gather_with_limit (awaitables : list outcome) (concurrency : Z)
           (schedule : list nat) : exn + list T :=
  if (concurrency <? 1)%Z then inl invalid_concurrency
  else
    let results := replicate (length awaitables) None in
    match run_tasks awaitables schedule results with
    | inl e => inl e
    | inr results' => inr (not_none results')
    end.

(** [map_with_limit]: the awaited operation of task [idx] is
    [worker(items[idx])]; the optional sleep after it does not touch
    [results]. *)
Definition map_with_limit {U : Type} (items : list U) (worker : U -> outcome)
           (concurrency : Z) (delay_s : Q) (schedule : list nat) : exn + list T :=
  if (concurrency <? 1)%Z then inl invalid_concurrency
  else
    let results := replicate (length items) None in
    match run_tasks (worker <$> items) schedule results with
    | inl e => inl e
    | inr results' => inr (not_none results')
    end.
End Fanout.

End Fanout.

(** ** The environment of a probe and its effects *)

Module Effects.

(** [_HEADERS] and [_ALT_HEADERS] of tools.py. *)
Inductive headers := PrimaryHeaders | AltHeaders.

Record request := mkRequest {
  req_url : string;
  req_params : list (string * string);
  req_headers : headers;
}.

(** The decoded body of an archive index reply ([cdx_resp.json()]): a JSON
    value that is or is not a list, whose items are or are not lists of
    strings. *)
Inductive pitem := INotList | IList (fields : list string).
Inductive payload := PNotList | PList (items : list pitem).

Record response := mkResponse {
  status_code : Z;
  text : string;
  json : exn + payload;
}.

(** One search hit, a dict read with [hit.get(key, '')]. *)
Record hit := mkHit { title : option string; body : option string; href : option string }.

(** What a probe does to the outside world, in order. *)
Inductive event :=
  | EvGet (r : request)
  | EvSleep (seconds : Q)
  | EvSearch (query : string) (max_results : Z).

(** The outside world of one probe.  [http_get k r] is the outcome of the
    probe's [k]-th HTTP request, [ddg_text k q n] of its [k]-th search call.
    [ddg_import] is the outcome of [from duckduckgo_search import DDGS] and
    [ddg_new] of [DDGS()].  [urlparse_netloc url] is
    [urlparse(url).netloc] and [strptime_iso s] is
    [datetime.strptime(s, "%Y%m%d%H%M%S").date().isoformat()], with [None]
    for its [ValueError].  [status_message r] is the text of the
    [HTTPStatusError] that httpx raises for the response [r]. *)
Record world := mkWorld {
  http_get : nat -> request -> exn + response;
  ddg_import : option exn;
  ddg_new : option exn;
  ddg_text : nat -> string -> Z -> exn + list hit;
  urlparse_netloc : string -> exn + string;
  strptime_iso : string -> option string;
  status_message : response -> string;
}.

Record state := mkState { requests : nat; searches : nat; trace : list event }.

Definition init : state := mkState 0 0 [].

Definition M (A : Type) : Type := state -> (exn + A) * state.

Definition ret {A} (a : A) : M A := fun s => (inr a, s).
Definition raise {A} (e : exn) : M A := fun s => (inl e, s).
Definition bind {A B} (m : M A) (k : A -> M B) : M B :=
  fun s => match m s with
           | (inl e, s') => (inl e, s')
           | (inr a, s') => k a s'
           end.
(** [try: m except Exception as e: h e] *)
Definition try_except {A} (m : M A) (h : exn -> M A) : M A :=
  fun s => match m s with
           | (inl e, s') => h e s'
           | (inr a, s') => (inr a, s')
           end.
Definition lift {A} (r : exn + A) : M A := fun s => (r, s).

Definition log (ev : event) : M unit :=
  fun s => (inr tt, mkState (requests s) (searches s) (trace s ++ [ev])).

(** [await asyncio.sleep(seconds)] *)
Definition sleep (seconds : Q) : M unit := log (EvSleep (Qred seconds)).

(** [await client.get(url, params=params)] on a client built with [headers]. *)
Definition client_get (w : world) (r : request) : M response :=
  fun s =>
    (http_get w (requests s) r,
     mkState (S (requests s)) (searches s) (trace s ++ [EvGet r])).

(** [ddg.text(query, max_results=n)] *)
Definition ddg_call (w : world) (query : string) (n : Z) : M (list hit) :=
  fun s =>
    (ddg_text w (searches s) query n,
     mkState (requests s) (S (searches s)) (trace s ++ [EvSearch query n])).

(** [resp.raise_for_status()] of httpx: raises unless the status is 2xx. *)
Definition is_success (status : Z) : bool := (200 <=? status)%Z && (status <=? 299)%Z.

Definition raise_for_status (w : world) (r : response) : M unit :=
  if is_success (status_code r) then ret tt
  else raise (Exn HTTPStatusError "HTTPStatusError" (status_message w r)).

(** The result of a probe run from the initial state, and what it did. *)
Definition run {A} (m : M A) : exn + A := fst (m init).
Definition events {A} (m : M A) : list event := trace (snd (m init)).

Definition gets (evs : list event) : list request :=
  omap (fun ev => match ev with EvGet r => Some r | _ => None end) evs.
Definition sleeps (evs : list event) : list Q :=
  omap (fun ev => match ev with EvSleep q => Some q | _ => None end) evs.

End Effects.

Notation "'let*' x := c 'in' k" := (Effects.bind c (fun x => k))
  (at level 10, x name, c at level 100, k at level 200).

(** ** verification/tools.py *)

Module Tools.
Import Schemas Effects.

Definition _RETRYABLE_STATUS : list Z := [429; 500; 502; 503; 504]%Z.
Definition _WAYBACK_CDX_URL : string := "https://web.archive.org/cdx/search/cdx".
Definition _WAYBACK_VIEW_BASE : string := "https://web.archive.org/web".
Definition _OWNER_CHANGE_MARKERS : list string :=
  ["under new ownership"; "new ownership"; "formerly"; "now known as"; "rebranded"; "acquired"].
Definition _TOKEN_STOPWORDS : list string :=
  ["the"; "and"; "for"; "with"; "from"; "into"; "your"; "you"; "our";
   "llc"; "inc"; "co"; "company"; "ltd"; "group"; "services"; "service"].

Definition in_status_set (status : Z) (l : list Z) : bool := existsb (Z.eqb status) l.
Definition in_strings (s : string) (l : list string) : bool := existsb (String.eqb s) l.

(** *** Regular expressions of [_extract_text] and [_identity_score] *)

(** Prefix test ignoring ASCII case ([re.I]). *)
Fixpoint istartswith (p s : string) : bool :=
  match p, s with
  | EmptyString, _ => true
  | String a p', String b s' =>
      if Ascii.eqb (Py.lower_char a) (Py.lower_char b) then istartswith p' s' else false
  | String _ _, EmptyString => false
  end.

(** The text after the first occurrence of the character [k]. *)
Fixpoint after_char (k : ascii) (s : string) : option string :=
  match s with
  | EmptyString => None
  | String c s' => if Ascii.eqb c k then Some s' else after_char k s'
  end.

(** The text after the first occurrence of [p], ignoring case. *)
Fixpoint after_istr (p s : string) : option string :=
  if istartswith p s then Some (Py.drop_str (String.length p) s)
  else match s with
       | EmptyString => None
       | String _ s' => after_istr p s'
       end.

(** A match of [<tag[^>]*>.*?</tag>] (flags S and I) at the start of [s]:
    the text that follows the match. *)
Definition match_block (open close s : string) : option string :=
  if istartswith open s
  then match after_char ">" (Py.drop_str (String.length open) s) with
       | Some inner => after_istr close inner
       | None => None
       end
  else None.

(** [re.sub(r"<tag[^>]*>.*?</tag>", " ", s, flags=re.S | re.I)] *)
Fixpoint sub_block (fuel : nat) (open close s : string) : string :=
  match fuel with
  | O => s
  | S f =>
      match s with
      | EmptyString => EmptyString
      | String c s' =>
          match match_block open close s with
          | Some rest => String " " (sub_block f open close rest)
          | None => String c (sub_block f open close s')
          end
      end
  end.

(** A match of [<[^>]+>] at the start of [s]. *)
Definition match_tag (s : string) : option string :=
  match s with
  | String "<" (String c s') => if Ascii.eqb c ">" then None else after_char ">" s'
  | _ => None
  end.

(** [re.sub(r"<[^>]+>", " ", s)] *)
Fixpoint sub_tags (fuel : nat) (s : string) : string :=
  match fuel with
  | O => s
  | S f =>
      match s with
      | EmptyString => EmptyString
      | String c s' =>
          match match_tag s with
          | Some rest => String " " (sub_tags f rest)
          | None => String c (sub_tags f s')
          end
      end
  end.

(** [re.sub(r"[set]+", " ", s)]: every maximal run of characters of [set]
    becomes one space. *)
Fixpoint sub_runs (set : ascii -> bool) (in_run : bool) (s : string) : string :=
  match s with
  | EmptyString => EmptyString
  | String c s' =>
      if set c
      then if in_run then sub_runs set true s' else String " " (sub_runs set true s')
      else String c (sub_runs set false s')
  end.

Definition _extract_text (html : string) (max_chars : nat) : string :=
  let text := sub_block (String.length html) "<script" "</script>" html in
  let text := sub_block (String.length text) "<style" "</style>" text in
  let text := sub_tags (String.length text) text in
  let text := Py.strip (sub_runs Py.is_space false text) in
  Py.take_str max_chars text.

Definition _domain_from_website (w : world) (website_url : string) : string :=
  let url := Py.strip website_url in
  if negb (Py.truthy url) then EmptyString
  else
    let url := if negb (Py.contains "://" url) then "https://" +:+ url else url in
    match urlparse_netloc w url with
    | inl _ => EmptyString
    | inr netloc =>
        let host := Py.lower netloc in
        if Py.startswith "www." host then Py.drop_str 4 host else host
    end.

Definition _wayback_iso_date (w : world) (timestamp : string) : option string :=
  if negb (Py.truthy timestamp) then None
  else strptime_iso w (Py.take_str 14 timestamp).

(** *** [_sample_wayback_rows] *)

(** The loop [for i in ...: idxs.add(i); if len(idxs) >= max_samples: break]. *)
Fixpoint stride (max_samples : nat) (range : list nat) (idxs : gset nat) : gset nat :=
  match range with
  | [] => idxs
  | i :: rest =>
      let idxs' := {[ i ]} ∪ idxs in
      if (max_samples <=? size idxs')%nat then idxs' else stride max_samples rest idxs'
  end.

Definition sample_indices (len max_samples : nat) : gset nat :=
  let idxs : gset nat := {[ 0%nat; 1%nat; Nat.min 2 (len - 1); (len - 1)%nat ]} in
  let step := Nat.max 1 ((len - 1) / (max_samples - 1)) in
  stride max_samples (Py.range0 len step) idxs.

(** [sorted(idxs)] *)
Definition sorted_indices (idxs : gset nat) : list nat := merge_sort Nat.le (elements idxs).

(** [max_samples] is at least 2 (the one caller uses the default, 8). *)
Definition _sample_wayback_rows {A} (rows : list A) (max_samples : nat) : list A :=
  if (length rows <=? max_samples)%nat then rows
  else
    omap (fun i => rows !! i)
         (filter (fun i => (i < length rows)%nat)
                 (sorted_indices (sample_indices (length rows) max_samples))).

(** *** [_identity_score] *)

(** The characters outside [[a-z0-9 ]]. *)
Definition not_name_char (c : ascii) : bool :=
  negb (Py.is_lower c || Py.is_digit c || Ascii.eqb c " ").

(** The two [re.sub] calls and the [strip] that normalise the name. *)
Definition clean_name (business_name : string) : string :=
  let cleaned_name := sub_runs not_name_char false (Py.lower business_name) in
  Py.strip (sub_runs Py.is_space false cleaned_name).

Definition is_word_opt (c : option ascii) : bool :=
  match c with Some c => Py.is_word c | None => false end.

(** [\b] between the characters [prev] and [next] (absent at the two ends). *)
Definition boundary (prev next : option ascii) : bool :=
  xorb (is_word_opt prev) (is_word_opt next).

Definition first_char (s : string) : option ascii :=
  match s with EmptyString => None | String c _ => Some c end.

Fixpoint last_char (prev : option ascii) (s : string) : option ascii :=
  match s with EmptyString => prev | String c s' => last_char (Some c) s' end.

(** [re.search(rf"\b{re.escape(lit)}\b", text)], scanning [s], the rest of the
    text after the character [prev]. *)
Fixpoint word_search_from (lit : string) (prev : option ascii) (s : string) : bool :=
  (Py.startswith lit s
   && boundary prev (first_char s)
   && boundary (last_char prev lit) (first_char (Py.drop_str (String.length lit) s)))
  || match s with
     | EmptyString => false
     | String c s' => word_search_from lit (Some c) s'
     end.

Definition word_search (lit text : string) : bool := word_search_from lit None text.

Definition name_tokens (cleaned_name : string) : list string :=
  filter (fun t => (4 <=? String.length t)%nat && negb (in_strings t _TOKEN_STOPWORDS) = true)
         (Py.split_ws cleaned_name).

Definition count_hits (tokens : list string) (text : string) : nat :=
  length (filter (fun t => word_search t text = true) tokens).

Definition Qmin (a b : Q) : Q := if Qle_bool a b then a else b.

(** The arithmetic of the score, on exact rationals. *)
Definition score_of (phrase_hit city_hit : bool) (token_hits n_tokens : nat) : Q :=
  let token_ratio := Z.of_nat token_hits # Pos.of_nat (Nat.max 1 n_tokens) in
  let score := 0%Q in
  let score := (score + (if phrase_hit then 7 # 10 else (6 # 10) * token_ratio))%Q in
  let score := if city_hit then (score + (2 # 10))%Q else score in
  let score := if (2 <=? token_hits)%nat then (score + (1 # 10))%Q else score in
  Qmin score 1%Q.

Definition _identity_score (page_text business_name city : string) : Q * bool :=
  let text := Py.lower page_text in
  let cleaned_name := clean_name business_name in
  if negb (Py.truthy cleaned_name) then (0%Q, false)
  else
    let tokens := name_tokens cleaned_name in
    let phrase_hit := Py.contains cleaned_name text in
    let token_hits := count_hits tokens text in
    let city_hit := Py.truthy city && word_search (Py.lower city) text in
    let score := score_of phrase_hit city_hit token_hits (length tokens) in
    let owner_change_signal := existsb (fun marker => Py.contains marker text) _OWNER_CHANGE_MARKERS in
    (score, owner_change_signal).

(** *** [_ddg_search_with_retry] *)

(** The [for attempt in range(attempts)] loop; [todo] is what is left of the
    range. *)
Fixpoint ddg_attempts (w : world) (query : string) (max_results : Z) (attempts : nat)
         (todo : list nat) : M (list hit) :=
  match todo with
  | [] => ret []
  | attempt :: rest =>
      try_except (ddg_call w query max_results)
        (fun e =>
           let* _ := (if (attempt <? attempts - 1)%nat then sleep 2 else ret tt) in
           ddg_attempts w query max_results attempts rest)
  end.

Definition _ddg_search_with_retry (w : world) (query : string) (max_results : Z)
           (attempts : nat) : M (list hit) :=
  let* _ := (match ddg_import w with Some e => raise e | None => ret tt end) in
  let* _ := (match ddg_new w with Some e => raise e | None => ret tt end) in
  ddg_attempts w query max_results attempts (seq 0 attempts).

(** *** [check_business_website] *)

(** How one turn of the [for attempt in range(3)] loop ends. *)
Inductive turn :=
  | Return (f : SubAgentFinding)
  | Continue (last_error : string)
  | Break (last_error : string).

Definition backoff (attempt : nat) : Q := ((3 # 2) * inject_Z (Z.of_nat attempt + 1))%Q.

Definition describe (e : exn) : string := exn_name e +:+ ": " +:+ exn_msg e.

Definition website_attempt (w : world) (website_url : string) (attempt : nat) : M turn :=
  let headers := if (attempt <? 2)%nat then PrimaryHeaders else AltHeaders in
  try_except
    (let* resp := client_get w (mkRequest website_url [] headers) in
     if in_status_set (status_code resp) _RETRYABLE_STATUS then
       let* _ := sleep (backoff attempt) in
       ret (Continue ("HTTP " +:+ Py.str_of_Z (status_code resp)))
     else if (status_code resp =? 403)%Z && (attempt =? 0)%nat then
       let* _ := sleep 1 in
       ret (Continue "HTTP 403 Forbidden")
     else
       let* _ := raise_for_status w resp in
       let text := _extract_text (text resp) 4000 in
       if (String.length text <? 50)%nat then
         ret (Return (Finding "business_website" (Some website_url)
                        "Website returned minimal content (possibly JS-rendered or down)"))
       else
         ret (Return (Finding "business_website" (Some website_url)
                        ("Website content: " +:+ Py.take_str 3500 text))))
    (fun e =>
       if is_instance e ConnectError || is_instance e ReadTimeout || is_instance e ConnectTimeout
       then
         let* _ := sleep (backoff attempt) in
         ret (Continue (describe e))
       else ret (Break (describe e))).

Definition website_unreachable (website_url last_error : string) : SubAgentFinding :=
  ErrorFinding "business_website" (Some website_url)
    "Business website was unreachable at time of verification"
    ("Failed to fetch website: " +:+ last_error).

Fixpoint website_loop (w : world) (website_url : string) (todo : list nat)
         (last_error : string) : M SubAgentFinding :=
  match todo with
  | [] => ret (website_unreachable website_url last_error)
  | attempt :: rest =>
      let* t := website_attempt w website_url attempt in
      match t with
      | Return f => ret f
      | Continue last_error => website_loop w website_url rest last_error
      | Break last_error => ret (website_unreachable website_url last_error)
      end
  end.

(** The settlement context read by the probes. *)
Record settlement_context := mkContext {
  ctx_settlement_name : string;
  ctx_defendant : string;
  ctx_eligible_actions : list string;
}.

Definition check_business_website (w : world) (website_url : string)
           (ctx : settlement_context) : M SubAgentFinding :=
  if negb (Py.truthy website_url) then
    ret (Finding "business_website" None "No website available for this business")
  else website_loop w website_url (seq 0 3) "None".

(** *** The three search probes *)

Definition or_empty (o : option string) : string := default EmptyString o.

Definition format_hit (h : hit) : string :=
  "[" +:+ or_empty (title h) +:+ "] " +:+ or_empty (body h) +:+ " (" +:+ or_empty (href h) +:+ ")".

Definition quoted (s : string) : string := Py.dq +:+ s +:+ Py.dq.

Definition any_keyword (kws : list string) (settlement_name defendant : string) : bool :=
  existsb (fun kw => Py.contains kw (Py.lower settlement_name) || Py.contains kw (Py.lower defendant)) kws.

Definition platform_queries (business_name city : string) (ctx : settlement_context) : list string :=
  let defendant := ctx_defendant ctx in
  let settlement_name := ctx_settlement_name ctx in
  let stem := quoted business_name +:+ " " +:+ city +:+ " " in
  if any_keyword ["grubhub"; "seamless"] settlement_name defendant then
    [stem +:+ "grubhub"; stem +:+ "site:grubhub.com"]
  else if any_keyword ["doordash"; "caviar"] settlement_name defendant then
    [stem +:+ "doordash"]
  else if Py.contains "discover" (Py.lower settlement_name) || Py.contains "discover" (Py.lower defendant) then
    [stem +:+ quoted "accepts discover"; stem +:+ "discover card"]
  else if Py.contains "payment card" (Py.lower settlement_name)
          || Py.contains "interchange" (Py.lower settlement_name) then
    [stem +:+ "credit card payment processing"]
  else [stem +:+ defendant].

(** The body of the [try] of [search_platform_presence]. *)
Fixpoint platform_search_loop (w : world) (queries : list string) (results_text : list string)
  : M (list string) :=
  match queries with
  | [] => ret results_text
  | q :: rest =>
      let* hits := _ddg_search_with_retry w q 3 2 in
      let results_text := results_text ++ (format_hit <$> hits) in
      let* _ := sleep 1 in
      platform_search_loop w rest results_text
  end.

Definition search_platform_presence (w : world) (business_name city : string)
           (ctx : settlement_context) : M SubAgentFinding :=
  let defendant := ctx_defendant ctx in
  let queries := platform_queries business_name city ctx in
  let* r := try_except
              (let* results_text := platform_search_loop w (take 2 queries) [] in
               ret (inr results_text))
              (fun e =>
                 if is_instance e ImportError
                 then ret (inl (Finding "platform_search" None "duckduckgo-search package not available"))
                 else raise e) in
  match r with
  | inl f => ret f
  | inr results_text =>
      match results_text with
      | [] =>
          ret (Finding "platform_search" None
                 ("No platform presence found for '" +:+ business_name +:+ "' in " +:+ city
                  +:+ " related to " +:+ defendant))
      | _ =>
          let combined := Py.join Py.nl (take 6 results_text) in
          ret (Finding "platform_search" None
                 ("Platform search results:" +:+ Py.nl +:+ Py.take_str 2500 combined))
      end
  end.

Definition search_general_context (w : world) (business_name city state : string)
  : M SubAgentFinding :=
  try_except
    (let query := quoted business_name +:+ " " +:+ city +:+ " " +:+ state in
     let* hits := _ddg_search_with_retry w query 5 2 in
     match hits with
     | [] =>
         ret (Finding "general_search" None
                ("No web results found for '" +:+ business_name +:+ "' in " +:+ city +:+ ", " +:+ state))
     | _ =>
         let combined := Py.join Py.nl (format_hit <$> hits) in
         ret (Finding "general_search" None
                ("General web search results:" +:+ Py.nl +:+ Py.take_str 2500 combined))
     end)
    (fun e =>
       if is_instance e ImportError then
         ret (ErrorFinding "general_search" None "Search package not available"
                "duckduckgo-search package not installed")
       else
         ret (ErrorFinding "general_search" None
                "General web search was unavailable at time of verification"
                ("General search failed: " +:+ describe e))).

Definition check_review_presence (w : world) (business_name city state : string)
  : M SubAgentFinding :=
  try_except
    (let query := quoted business_name +:+ " " +:+ city +:+ " " +:+ state
                  +:+ " yelp OR reviews OR " +:+ quoted "google reviews" in
     let* hits := _ddg_search_with_retry w query 4 2 in
     match hits with
     | [] =>
         ret (Finding "review_search" None
                ("No review listings found for '" +:+ business_name +:+ "' in " +:+ city))
     | _ =>
         let combined := Py.join Py.nl (format_hit <$> hits) in
         ret (Finding "review_search" None
                ("Review/listing search results:" +:+ Py.nl +:+ Py.take_str 2000 combined))
     end)
    (fun e =>
       if is_instance e ImportError then
         ret (ErrorFinding "review_search" None "Search package not available"
                "duckduckgo-search package not installed")
       else
         ret (ErrorFinding "review_search" None
                "Review search was unavailable at time of verification"
                ("Review search failed: " +:+ describe e))).

(** *** [check_wayback_history] *)

(** One entry of [sampled_results]. *)
Record sample := mkSample {
  date : string;
  snap_url : string;
  score : Q;
  owner_change : bool;
  matched : bool;
}.

(** [r["date"] >= d] and [r["date"] < d] on ISO dates, compared as strings. *)
Definition on_or_after (d : string) (r : sample) : bool := String.leb d (date r).
Definition before (d : string) (r : sample) : bool := String.ltb (date r) d.

Definition count {A} (p : A -> bool) (l : list A) : nat := length (List.filter p l).

(** [{q:.2f}] for a rational [q >= 0]: rounding to the nearest hundredth,
    ties to even. *)
Definition round_half_even (q : Q) : Z :=
  let n := Qnum q in
  let d := Zpos (Qden q) in
  let fl := (n / d)%Z in
  let r2 := (2 * (n mod d))%Z in
  if (r2 <? d)%Z then fl
  else if (d <? r2)%Z then (fl + 1)%Z
  else if Z.even fl then fl else (fl + 1)%Z.

Definition format_2f (q : Q) : string :=
  let h := Z.to_nat (round_half_even (q * 100)) in
  let cents := (h mod 100)%nat in
  Py.str_of_nat (h / 100) +:+ "."
    +:+ (if (cents <? 10)%nat then "0" else EmptyString) +:+ Py.str_of_nat cents.

(** [sum(1 for r in post_match if r["matched"]) / len(post_match) if post_match else 0.0] *)
Definition continuity_of (post_match : list sample) : Q :=
  match post_match with
  | [] => 0%Q
  | _ => Z.of_nat (count matched post_match) # Pos.of_nat (length post_match)
  end.

Definition archive_url (domain : string) : string := _WAYBACK_VIEW_BASE +:+ "/*/" +:+ domain.

(** [sampled_results.sort(key=lambda r: r["date"])] *)
Definition sorted_by_date (sampled_results : list sample) : list sample :=
  Py.sort_by date String.leb sampled_results.

(** [matches[0]], when [matches] is not empty. *)
Definition first_match_of (sampled_results : list sample) : option sample :=
  head (List.filter matched sampled_results).

(** [[r for r in sampled_results if r["date"] >= first_match["date"]]] *)
Definition post_match_of (first_match : sample) (sampled_results : list sample) : list sample :=
  List.filter (on_or_after (date first_match)) sampled_results.

(** The value of the local variable [continuity], when the function gets to it. *)
Definition continuity (sampled_results : list sample) : option Q :=
  let sampled_results := sorted_by_date sampled_results in
  match first_match_of sampled_results with
  | None => None
  | Some first_match => Some (continuity_of (post_match_of first_match sampled_results))
  end.

(** The end of [check_wayback_history], from [sampled_results.sort(...)] on. *)
Definition summarize_samples (domain earliest_capture_iso : string)
           (sampled_results : list sample) : SubAgentFinding :=
  let sampled_results := sorted_by_date sampled_results in
  match first_match_of sampled_results with
  | None =>
      Finding "wayback_archive" (Some (archive_url domain))
        ("Wayback captures exist for " +:+ domain +:+ " since " +:+ earliest_capture_iso
         +:+ ", but no sampled snapshot confidently matched the current business identity "
         +:+ "(possible domain reuse/owner change).")
  | Some first_match =>
      let post_match := post_match_of first_match sampled_results in
      let continuity := continuity_of post_match in
      let pre_match_nonmatch :=
        count (fun r => before (date first_match) r && negb (matched r)) sampled_results in
      let ownership_flags := count owner_change sampled_results in
      let caution :=
        if (0 <? pre_match_nonmatch)%nat
        then " Earlier captures did not match current identity." else EmptyString in
      let caution :=
        if (0 <? ownership_flags)%nat
        then caution +:+ " Ownership-change wording appears in sampled archives." else caution in
      mkFinding "wayback_archive" (Some (snap_url first_match))
        ("Wayback domain capture begins " +:+ earliest_capture_iso +:+ ". "
         +:+ "Earliest matching business identity capture: " +:+ date first_match +:+ ". "
         +:+ "Continuity score: " +:+ format_2f continuity +:+ " across "
         +:+ Py.str_of_nat (length post_match) +:+ " sampled snapshots from " +:+ domain +:+ "."
         +:+ caution)
        (if Qle_bool (6 # 10) continuity then Some true else None)
        false None
  end.

(** [row[i]] for a row that has the field. *)
Definition field (i : nat) (row : list string) : string := default EmptyString (row !! i).

Definition cdx_params (domain : string) : list (string * string) :=
  [("url", domain +:+ "/*"); ("output", "json");
   ("fl", "timestamp,original,statuscode,mimetype,digest");
   ("filter", "statuscode:200"); ("filter", "mimetype:text/html");
   ("collapse", "digest"); ("from", "1996"); ("limit", "200")].

(** [[r for r in payload[1:] if isinstance(r, list) and len(r) >= 2]] *)
Definition data_rows (items : list pitem) : list (list string) :=
  omap (fun r => match r with
                 | IList fields => if (2 <=? length fields)%nat then Some fields else None
                 | INotList => None
                 end)
       (tail items).

(** One turn of [for row in sampled]: the entry appended to
    [sampled_results], or [None] when the turn ends in [continue]. *)
Definition fetch_sample (w : world) (business_name city : string) (row : list string)
  : M (option sample) :=
  let ts := field 0 row in
  let original := field 1 row in
  match _wayback_iso_date w ts with
  | None => ret None
  | Some iso_date =>
      if negb (Py.truthy iso_date) then ret None
      else
        let snap_url := _WAYBACK_VIEW_BASE +:+ "/" +:+ ts +:+ "id_/" +:+ original in
        let* fetched :=
          try_except
            (let* snap_resp := client_get w (mkRequest snap_url [] PrimaryHeaders) in
             if (400 <=? status_code snap_resp)%Z then ret None
             else
               let text := _extract_text (text snap_resp) 7000 in
               if (String.length text <? 40)%nat then ret None else ret (Some text))
            (fun _ => ret None) in
        match fetched with
        | None => ret None
        | Some text =>
            let '(score, owner_change) := _identity_score text business_name city in
            ret (Some (mkSample iso_date snap_url score owner_change (Qle_bool (65 # 100) score)))
        end
  end.

Fixpoint sample_loop (w : world) (business_name city : string) (sampled : list (list string))
         (sampled_results : list sample) : M (list sample) :=
  match sampled with
  | [] => ret sampled_results
  | row :: rest =>
      let* r := fetch_sample w business_name city row in
      sample_loop w business_name city rest
        (match r with Some x => sampled_results ++ [x] | None => sampled_results end)
  end.

Definition no_captures (domain : string) : SubAgentFinding :=
  Finding "wayback_archive" (Some (archive_url domain))
    ("Wayback archive has no HTML captures for " +:+ domain +:+ " in the sampled index.").

(** The body of the [try] of [check_wayback_history]. *)
Definition wayback_lookup (w : world) (business_name city domain : string) : M SubAgentFinding :=
  let* cdx_resp := client_get w (mkRequest _WAYBACK_CDX_URL (cdx_params domain) PrimaryHeaders) in
  let* _ := raise_for_status w cdx_resp in
  let* payload := lift (json cdx_resp) in
  match payload with
  | PNotList => ret (no_captures domain)
  | PList items =>
      if (length items <=? 1)%nat then ret (no_captures domain)
      else
        let rows := Py.sort_by (field 0) String.leb (data_rows items) in
        let* row0 := lift (match rows with
                           | [] => inl (Exn IndexError "IndexError" "list index out of range")
                           | r :: _ => inr r
                           end) in
        let earliest_capture_iso :=
          match _wayback_iso_date w (field 0 row0) with
          | Some d => if Py.truthy d then d else "unknown"
          | None => "unknown"
          end in
        let sampled := _sample_wayback_rows rows 8 in
        let* sampled_results := sample_loop w business_name city sampled [] in
        match sampled_results with
        | [] =>
            ret (Finding "wayback_archive" (Some (archive_url domain))
                   ("Wayback has captures for " +:+ domain +:+ " since " +:+ earliest_capture_iso
                    +:+ ", but sampled snapshots were not parseable."))
        | _ => ret (summarize_samples domain earliest_capture_iso sampled_results)
        end
  end.

Definition check_wayback_history (w : world) (business_name city website_url : string)
  : M SubAgentFinding :=
  if negb (Py.truthy website_url) then
    ret (Finding "wayback_archive" None
           "No website available, so archive history could not be evaluated.")
  else
    let domain := _domain_from_website w website_url in
    if negb (Py.truthy domain) then
      ret (ErrorFinding "wayback_archive" (Some website_url)
             "Website URL format prevented archive lookup."
             ("Invalid website URL: " +:+ website_url))
    else
      try_except (wayback_lookup w business_name city domain)
        (fun e =>
           ret (ErrorFinding "wayback_archive" (Some (archive_url domain))
                  "Wayback archive lookup was unavailable at time of verification."
                  ("Wayback lookup failed: " +:+ describe e))).

End Tools.

(** ** llm/structured_json.py *)

Module Llm.
Import Schemas.

(** A decoded JSON value, as [json.loads] returns it.  An object is kept as
    its list of members; [dict_of] builds the Python dict. *)
Inductive json :=
  | JNull
  | JBool (b : bool)
  | JInt (z : Z)
  | JFloat (literal : string)
  | JStr (s : string)
  | JArr (items : list json)
  | JObj (members : list (string * json)).

(** The reasoning client: [ainvoke] maps a prompt to the text of the reply
    ([response.content], or [str(response)]), or raises. *)
Definition client := string -> exn + string.

Definition bind_sum {A B} (r : exn + A) (k : A -> exn + B) : exn + B :=
  match r with inl e => inl e | inr a => k a end.

Notation "'let+' x := c 'in' k" := (bind_sum c (fun x => k))
  (at level 10, x name, c at level 100, k at level 200).

Definition fence : string := "```".

Definition _strip_code_fences (text : string) : string :=
  let text := Py.strip text in
  if negb (Py.startswith fence text) then text
  else
    let lines := Py.split_on (ascii_of_nat 10) text in
    if (3 <=? length lines)%nat then Py.strip (Py.join Py.nl (removelast (tail lines)))
    else Py.strip (Py.strip_char "`" text).

Definition ainvoke_json (llm_client : client) (json_loads : string -> exn + json)
           (prompt : string) : exn + json :=
  let+ response_text := llm_client prompt in
  let response_text := _strip_code_fences response_text in
  json_loads response_text.

(** A later member with the same key replaces an earlier one. *)
Definition dict_of (members : list (string * json)) : gmap string json :=
  list_to_map (reverse members).

Definition is_null (v : json) : bool := match v with JNull => true | _ => false end.

(** [for key, value in list(data.items()): if value is None: del data[key]] *)
Definition drop_nulls (data : gmap string json) : gmap string json :=
  omap (fun v => if is_null v then None else Some v) data.

Definition validation_error (field : string) : exn :=
  Exn ValidationError "ValidationError" ("1 validation error: " +:+ field).

(** *** The Pydantic models, read field by field

    Each field accepts the JSON value of its declared type; the type
    conversions Pydantic would also try are not modelled and count as
    validation errors.  No field of either model declares a bound. *)

Definition as_str (field : string) (v : json) : exn + string :=
  match v with JStr s => inr s | _ => inl (validation_error field) end.
Definition as_int (field : string) (v : json) : exn + Z :=
  match v with JInt z => inr z | _ => inl (validation_error field) end.
Definition as_bool (field : string) (v : json) : exn + bool :=
  match v with JBool b => inr b | _ => inl (validation_error field) end.
Definition as_opt {A} (conv : string -> json -> exn + A) (field : string) (v : json)
  : exn + option A :=
  match v with JNull => inr None | _ => let+ a := conv field v in inr (Some a) end.

Fixpoint as_list {A} (conv : string -> json -> exn + A) (field : string) (items : list json)
  : exn + list A :=
  match items with
  | [] => inr []
  | v :: rest =>
      let+ a := conv field v in
      let+ l := as_list conv field rest in
      inr (a :: l)
  end.

Definition as_list_of {A} (conv : string -> json -> exn + A) (field : string) (v : json)
  : exn + list A :=
  match v with JArr items => as_list conv field items | _ => inl (validation_error field) end.

(** A field with a default, and a required field. *)
Definition optional {A} (data : gmap string json) (conv : string -> json -> exn + A)
           (field : string) (dflt : A) : exn + A :=
  match data !! field with None => inr dflt | Some v => conv field v end.
Definition required {A} (data : gmap string json) (conv : string -> json -> exn + A)
           (field : string) : exn + A :=
  match data !! field with None => inl (validation_error field) | Some v => conv field v end.

(** The constructor [SubAgentFinding], applied to the dict as keyword arguments. *)
Definition make_SubAgentFinding (data : gmap string json) : exn + SubAgentFinding :=
  let+ source := required data as_str "source" in
  let+ url := optional data (as_opt as_str) "url" None in
  let+ finding := required data as_str "finding" in
  let+ supports := optional data (as_opt as_bool) "supports_eligibility" None in
  let+ is_error := optional data as_bool "is_error" false in
  let+ error_detail := optional data (as_opt as_str) "error_detail" None in
  inr (mkFinding source url finding supports is_error error_detail).

Definition as_finding (field : string) (v : json) : exn + SubAgentFinding :=
  match v with
  | JObj members => make_SubAgentFinding (dict_of members)
  | _ => inl (validation_error field)
  end.

(** The constructor [VerificationResult], applied to the dict as keyword arguments. *)
Definition make_VerificationResult (data : gmap string json) : exn + VerificationResult :=
  let+ verdict := required data as_str "verdict" in
  let+ confidence := optional data as_int "confidence" 50%Z in
  let+ is_chain := optional data as_bool "is_chain" false in
  let+ chain_reason := optional data (as_opt as_str) "chain_reason" None in
  let+ evidence := optional data (as_list_of as_finding) "evidence" [] in
  let+ reasoning := optional data as_str "reasoning" EmptyString in
  let+ checks := optional data (as_list_of as_str) "checks_performed" [] in
  inr (mkResult verdict confidence is_chain chain_reason evidence reasoning checks).

(** [ainvoke_pydantic(llm_client, prompt, VerificationResult)] *)
Definition ainvoke_pydantic (llm_client : client) (json_loads : string -> exn + json)
           (prompt : string) : exn + VerificationResult :=
  let+ data := ainvoke_json llm_client json_loads prompt in
  match data with
  | JObj members => make_VerificationResult (drop_nulls (dict_of members))
  | _ => inl (Exn AttributeError "AttributeError" "object has no attribute 'items'")
  end.

End Llm.

(** ** verification/agent.py *)

Module Agent.
Import Schemas Effects Tools Llm.

(** The two input dicts, with [None] for a key that is absent. *)
Record business := mkBusiness {
  biz_name : option string;
  biz_city : option string;
  biz_website : option string;
  biz_category : option string;
  biz_address : option string;
}.

Record settlement := mkSettlement {
  settlement_name : option string;
  defendant : option string;
  summary : option string;
  eligible_class_description : option string;
  eligible_actions : option (list string);
  eligible_industries : option (list string);
  eligible_geography : option string;
  eligible_time_period : option string;
  exclusions : option (list string);
}.

(** [d.get(key, dflt)] *)
Definition get {A} (o : option A) (dflt : A) : A := default dflt o.

Definition lines (l : list string) : string := foldr (fun x acc => x +:+ Py.nl +:+ acc) EmptyString l.

(** [REASONING_PROMPT.format(...)] *)
Definition reasoning_prompt (settlement_name defendant summary eligible_class eligible_actions
            eligible_industries eligible_geography eligible_time_period exclusions
            biz_name biz_category biz_address biz_city biz_website findings_text : string) : string :=
  lines [
    "You are a verification analyst for a small-business settlement matching service.";
    EmptyString;
    "SETTLEMENT CONTEXT:";
    "  Name: " +:+ settlement_name;
    "  Defendant: " +:+ defendant;
    "  Summary: " +:+ summary;
    "  Eligible class: " +:+ eligible_class;
    "  Eligible actions: " +:+ eligible_actions;
    "  Eligible industries: " +:+ eligible_industries;
    "  Eligible geography: " +:+ eligible_geography;
    "  Eligible time period: " +:+ eligible_time_period;
    "  Exclusions: " +:+ exclusions;
    EmptyString;
    "BUSINESS:";
    "  Name: " +:+ biz_name;
    "  Category: " +:+ biz_category;
    "  Address: " +:+ biz_address +:+ ", " +:+ biz_city +:+ ", OH";
    "  Website: " +:+ biz_website;
    EmptyString;
    "RESEARCH FINDINGS:";
    findings_text;
    EmptyString;
    "TASK:";
    "- Decide whether this business is likely eligible for this settlement.";
    "- Return ONLY valid JSON with these keys:";
    "  verdict: " +:+ quoted "verified" +:+ "|" +:+ quoted "likely" +:+ "|"
       +:+ quoted "unlikely" +:+ "|" +:+ quoted "excluded";
    "  confidence: int 0-100";
    "  is_chain: bool";
    "  chain_reason: string|null";
    "  reasoning: string"
  ].

(** [result.model_copy(update=...)] *)
Definition _with_context (result : VerificationResult) (findings : list SubAgentFinding)
           (checks_performed : list string) : VerificationResult :=
  mkResult (verdict result) (confidence result) (is_chain result) (chain_reason result)
           findings (reasoning result) checks_performed.

(** The loop [for i, finding in enumerate(findings, 1)] that builds the digest. *)
Fixpoint digest (i : nat) (findings : list SubAgentFinding) (findings_text : string) : string :=
  match findings with
  | [] => findings_text
  | f :: rest =>
      let findings_text :=
        findings_text +:+ Py.nl +:+ "--- Finding " +:+ Py.str_of_nat i +:+ " (" +:+ source f
          +:+ ") ---" +:+ Py.nl in
      let findings_text :=
        match url f with
        | Some u => if Py.truthy u then findings_text +:+ "URL: " +:+ u +:+ Py.nl else findings_text
        | None => findings_text
        end in
      digest (S i) rest (findings_text +:+ finding f +:+ Py.nl)
  end.

(** What surrounds one call: the world of each of the four probes, the order
    in which they complete, the client that [get_llm_client()] builds and
    [json.loads]. *)
Record env := mkEnv {
  web_world : world;
  platform_world : world;
  general_world : world;
  review_world : world;
  schedule : list nat;
  get_llm_client : exn + client;
  json_loads : string -> exn + json;
}.

(** A probe coroutine as an awaitable of the fan-out. *)
Definition task (m : M SubAgentFinding) : Fanout.outcome :=
  match Effects.run m with inl e => inl e | inr f => inr (Some f) end.

Definition checks : list string :=
  ["business_website"; "platform_search"; "general_search"; "review_search"].

Definition probe_tasks (E : env) (b : business) (s : settlement) : list Fanout.outcome :=
  let biz_name := get (biz_name b) EmptyString in
  let biz_city := get (biz_city b) EmptyString in
  let biz_website := get (biz_website b) EmptyString in
  let settlement_context :=
    mkContext (get (settlement_name s) "Unknown") (get (defendant s) EmptyString)
              (get (eligible_actions s) []) in
  [ task (check_business_website (web_world E) biz_website settlement_context);
    task (search_platform_presence (platform_world E) biz_name biz_city settlement_context);
    task (search_general_context (general_world E) biz_name biz_city "OH");
    task (check_review_presence (review_world E) biz_name biz_city "OH") ].

(** The digest of the findings and the prompt made from it. *)
Definition build_prompt (b : business) (s : settlement) (findings : list SubAgentFinding) : string :=
  let biz_website := get (biz_website b) EmptyString in
  let findings_text := digest 1 findings EmptyString in
  reasoning_prompt
    (get (settlement_name s) "Unknown") (get (defendant s) EmptyString)
    (get (summary s) EmptyString) (get (eligible_class_description s) EmptyString)
    (Py.join ", " (get (eligible_actions s) []))
    (Py.join ", " (get (eligible_industries s) []))
    (get (eligible_geography s) EmptyString) (get (eligible_time_period s) EmptyString)
    (Py.join ", " (get (exclusions s) []))
    (get (biz_name b) EmptyString) (get (biz_category b) "Unknown")
    (get (biz_address b) EmptyString) (get (biz_city b) EmptyString)
    (if Py.truthy biz_website then biz_website else "None")
    findings_text.

(** [if llm_client is None: llm_client = get_llm_client()] *)
Definition resolve_client (E : env) (llm_client : option client) : exn + client :=
  match llm_client with None => get_llm_client E | Some c => inr c end.

(** The body of the [try] of [verify_candidate]. *)
Definition verify_pipeline (E : env) (b : business) (s : settlement) (llm_client : option client)
  : exn + VerificationResult :=
  let+ findings := Fanout.gather_with_limit (probe_tasks E b s) 4 (schedule E) in
  let prompt := build_prompt b s findings in
  let+ llm_client := resolve_client E llm_client in
  let+ verdict := ainvoke_pydantic llm_client (json_loads E) prompt in
  inr (_with_context verdict findings checks).

(** The result built in the [except Exception as e] branch. *)
Definition fallback (e : exn) : VerificationResult :=
  mkResult "unlikely" 0 false None [] ("Verification failed: " +:+ exn_msg e) checks.

Definition verify_candidate (E : env) (b : business) (s : settlement) (llm_client : option client)
  : exn + VerificationResult :=
  match verify_pipeline E b s llm_client with
  | inr r => inr r
  | inl e => inr (fallback e)
  end.

End Agent.
(** ** Reference definitions

    What the specification says in its own words, to compare the code with,
    and the vocabulary in which the properties of the probes are stated. *)

Module Reference.
Import Tools.

(** The indices kept from more than 8 rows: the first three, the last one,
    and the first four multiples of the step that are not among them. *)
Definition stride_closed_form (n : nat) : list nat :=
  let s := Nat.max 1 ((n - 1) / 7) in
  let k := 2 / s + 1 in
  [0; 1; 2; k * s; (k + 1) * s; (k + 2) * s; (k + 3) * s; n - 1].

(** Clamping to [[0, 1]]. *)
Definition clamp01 (q : Q) : Q :=
  if Qle_bool q 0 then 0%Q else if Qle_bool 1 q then 1%Q else q.

(** The identity score in the words of the specification: 0.7 for the
    phrase, else 0.6 times the fraction of the kept tokens that are present;
    plus 0.2 for the city; plus 0.1 for two or more tokens; clamped. *)
Definition identity_score_spec (phrase_hit city_hit : bool) (hits kept : nat) : Q :=
  let fraction := (Z.of_nat hits # Pos.of_nat (Nat.max 1 kept)) in
  clamp01 ((if phrase_hit then 7 # 10 else (6 # 10) * fraction)
           + (if city_hit then 2 # 10 else 0)
           + (if (2 <=? hits)%nat then 1 # 10 else 0))%Q.

(** [returns m P]: whenever the computation [m] returns a value, the value
    satisfies [P]. *)
Definition returns {A} (m : Effects.M A) (P : A -> Prop) : Prop :=
  forall st a st', m st = (inr a, st') -> P a.

(** *** The fetcher, attempt by attempt *)

Section Fetcher.
Import Effects.
Context (w : world) (website_url : string).

(** The request of attempt [k]: primary headers twice, then the alternate set. *)
Definition attempt_request (k : nat) : request :=
  mkRequest website_url [] (if (k <? 2)%nat then PrimaryHeaders else AltHeaders).

(** The outcome of attempt [k], the [k]-th request of the probe. *)
Definition attempt_outcome (k : nat) : exn + response := http_get w k (attempt_request k).

Definition retryable_exn (e : exn) : bool :=
  is_instance e ConnectError || is_instance e ReadTimeout || is_instance e ConnectTimeout.

(** The wait after attempt [k] when the attempt is to be retried, [None] when
    the attempt is final. *)
Definition wait_after (k : nat) (o : exn + response) : option Q :=
  match o with
  | inr resp =>
      if in_status_set (status_code resp) _RETRYABLE_STATUS then Some (Qred ((3 # 2) * inject_Z (Z.of_nat k + 1)))
      else if (status_code resp =? 403)%Z && (k =? 0)%nat then Some 1%Q
      else None
  | inl e => if retryable_exn e then Some (Qred ((3 # 2) * inject_Z (Z.of_nat k + 1))) else None
  end.

(** What the probe does when it makes the attempts [k], [k+1], ... [2]. *)
Fixpoint attempts_trace (fuel k : nat) : list event :=
  match fuel with
  | O => []
  | S fuel' =>
      EvGet (attempt_request k) ::
      match wait_after k (attempt_outcome k) with
      | Some q => EvSleep q :: attempts_trace fuel' (S k)
      | None => []
      end
  end.

(** The number of attempts made from attempt [k] on. *)
Fixpoint attempts_made (fuel k : nat) : nat :=
  match fuel with
  | O => O
  | S fuel' =>
      match wait_after k (attempt_outcome k) with
      | Some _ => S (attempts_made fuel' (S k))
      | None => 1
      end
  end.

(** The attempt ended in a page that was read. *)
Definition page_read (o : exn + response) : bool :=
  match o with
  | inr resp => is_success (status_code resp)
  | inl _ => false
  end.

(** The attempts from [k] on end in a page that was read. *)
Fixpoint fetched (fuel k : nat) : bool :=
  match fuel with
  | O => false
  | S fuel' =>
      match wait_after k (attempt_outcome k) with
      | Some _ => fetched fuel' (S k)
      | None => page_read (attempt_outcome k)
      end
  end.
End Fetcher.

(** *** Where the pipeline of [verify_candidate] can raise *)

(** [raised_in_pipeline E b s c e]: the exception [e] is raised by the probe
    fan-out, by the construction of the default client, by the call to the
    reasoning collaborator, or while its reply is decoded and validated. *)
Inductive raised_in_pipeline (E : Agent.env) (b : Agent.business) (s : Agent.settlement)
          (c : option Llm.client) (e : exn) : Prop :=
  | fanout_raised :
      Fanout.gather_with_limit (Agent.probe_tasks E b s) 4 (Agent.schedule E) = inl e ->
      raised_in_pipeline E b s c e
  | client_raised findings :
      Fanout.gather_with_limit (Agent.probe_tasks E b s) 4 (Agent.schedule E) = inr findings ->
      Agent.resolve_client E c = inl e ->
      raised_in_pipeline E b s c e
  | reasoning_call_raised findings llm_client :
      Fanout.gather_with_limit (Agent.probe_tasks E b s) 4 (Agent.schedule E) = inr findings ->
      Agent.resolve_client E c = inr llm_client ->
      llm_client (Agent.build_prompt b s findings) = inl e ->
      raised_in_pipeline E b s c e
  | response_parsing_raised findings llm_client :
      Fanout.gather_with_limit (Agent.probe_tasks E b s) 4 (Agent.schedule E) = inr findings ->
      Agent.resolve_client E c = inr llm_client ->
      Llm.ainvoke_pydantic llm_client (Agent.json_loads E) (Agent.build_prompt b s findings) = inl e ->
      raised_in_pipeline E b s c e.

End Reference.

(** ** Concrete environments

    Small worlds on which the definitions are run. *)

Module Examples.
Import Effects.

(** A server that answers every request with [status] and the page [page]. *)
Definition answering (status : Z) (page : string) : world :=
  mkWorld (fun _ _ => inr (mkResponse status page (inr PNotList)))
          None None
          (fun _ _ _ => inr [])
          (fun u => inr u)
          (fun _ => None)
          (fun r => "HTTP error " +:+ Py.str_of_Z (status_code r)).

(** The search library is not installed: its import raises. *)
Definition module_not_found : exn :=
  Exn ImportError "ModuleNotFoundError" "No module named 'duckduckgo_search'".

Definition no_search_library : world :=
  mkWorld (fun _ _ => inr (mkResponse 200 EmptyString (inr PNotList)))
          (Some module_not_found) None
          (fun _ _ _ => inr [])
          (fun u => inr u)
          (fun _ => None)
          (fun r => "HTTP error " +:+ Py.str_of_Z (status_code r)).

(** The search library is installed, but building its client fails. *)
Definition client_failure : exn :=
  Exn OtherError "RuntimeError" "could not start the search session".

Definition broken_search_client : world :=
  mkWorld (fun _ _ => inr (mkResponse 200 EmptyString (inr PNotList)))
          None (Some client_failure)
          (fun _ _ _ => inr [])
          (fun u => inr u)
          (fun _ => None)
          (fun r => "HTTP error " +:+ Py.str_of_Z (status_code r)).

(** A reply of the reasoning collaborator with a confidence of 150, and a
    decoder that reads it as [json.loads] does. *)
Definition reply_150 : string :=
  "{" +:+ Tools.quoted "verdict" +:+ ": " +:+ Tools.quoted "likely" +:+ ", "
      +:+ Tools.quoted "confidence" +:+ ": 150}".

Definition object_150 : Llm.json :=
  Llm.JObj [("verdict", Llm.JStr "likely"); ("confidence", Llm.JInt 150)].

Definition not_json : exn := Exn JSONDecodeError "JSONDecodeError" "Expecting value".

Definition loads_150 (text : string) : exn + Llm.json :=
  if String.eqb text reply_150 then inr object_150 else inl not_json.

Definition client_150 : Llm.client := fun _ => inr reply_150.

(** A reasoning collaborator that is out of quota. *)
Definition quota_error : exn := Exn OtherError "RateLimitError" "quota exceeded".
Definition client_down : Llm.client := fun _ => inl quota_error.

(** A candidate without a website, probed where the search library is not
    installed; the four probes complete in reverse order. *)
Definition candidate : Agent.business :=
  Agent.mkBusiness (Some "Joe's Pizza") (Some "Wooster") None (Some "restaurant") (Some "1 Main").

Definition lawsuit : Agent.settlement :=
  Agent.mkSettlement (Some "Test Settlement") (Some "Defendant") (Some "Summary")
    (Some "Merchants") (Some ["accepted cards"]) (Some ["restaurant"]) (Some "US")
    (Some "2020-2022") (Some []).

Definition offline : Agent.env :=
  Agent.mkEnv no_search_library no_search_library no_search_library no_search_library
    [3; 2; 1; 0] (inr client_150) loads_150.

(** The search library is installed and its client is built, but every search
    call times out. *)
Definition search_timeout : exn := Exn OtherError "TimeoutException" "search timed out".

Definition failing_search : world :=
  mkWorld (fun _ _ => inr (mkResponse 200 EmptyString (inr PNotList)))
          None None
          (fun _ _ _ => inl search_timeout)
          (fun u => inr u)
          (fun _ => None)
          (fun r => "HTTP error " +:+ Py.str_of_Z (status_code r)).

(** The first search call times out, the later ones return one hit. *)
Definition flaky_search : world :=
  mkWorld (fun _ _ => inr (mkResponse 200 EmptyString (inr PNotList)))
          None None
          (fun k _ _ => match k with
                        | O => inl search_timeout
                        | S _ => inr [mkHit (Some "Acme Pizza") (Some "Pizza in Columbus") None]
                        end)
          (fun u => inr u)
          (fun _ => None)
          (fun r => "HTTP error " +:+ Py.str_of_Z (status_code r)).

(** The archive index answers with a header and two items that are not rows
    of two fields; the host of every URL is example.com. *)
Definition malformed_index : world :=
  mkWorld (fun _ _ =>
             inr (mkResponse 200 EmptyString
                    (inr (PList [IList ["timestamp"; "original"]; INotList;
                                 IList ["20200101000000"]]))))
          None None
          (fun _ _ _ => inr [])
          (fun _ => inr "example.com")
          (fun _ => None)
          (fun r => "HTTP error " +:+ Py.str_of_Z (status_code r)).

(** The archive index lists one capture; every snapshot request times out. *)
Definition snapshots_down : world :=
  mkWorld (fun k _ =>
             match k with
             | O => inr (mkResponse 200 EmptyString
                           (inr (PList [IList ["timestamp"; "original"];
                                        IList ["20200101000000"; "http://example.com/"]])))
             | S _ => inl (Exn ReadTimeout "ReadTimeout" "timed out")
             end)
          None None
          (fun _ _ _ => inr [])
          (fun _ => inr "example.com")
          (fun _ => Some "2020-01-01")
          (fun r => "HTTP error " +:+ Py.str_of_Z (status_code r)).

End Examples.

(** ** verification/agent.py: the batch *)

Module Batch.
Import Schemas Llm Agent.

(** One candidate of a batch, with what surrounds its verification. *)
Definition candidate := (env * (business * settlement))%type.

(** The worker of [verify_candidates]: [verify_candidate] with the shared
    client. *)
Definition _worker (llm_client : client) (item : candidate) : @Fanout.outcome VerificationResult :=
  let '(E, (biz, settlement)) := item in
  match verify_candidate E biz settlement (Some llm_client) with
  | inl e => inl e
  | inr r => inr (Some r)
  end.

(** [verify_candidates(candidates, concurrency, llm_client)]; [default_client]
    is what [get_llm_client()] gives, [schedule] the order in which the
    workers complete. *)
Definition verify_candidates (default_client : exn + client) (candidates : list candidate)
           (concurrency : Z) (llm_client : option client) (schedule : list nat)
  : exn + list VerificationResult :=
  let+ llm_client := match llm_client with None => default_client | Some c => inr c end in
  Fanout.map_with_limit candidates (_worker llm_client) concurrency (1 # 2) schedule.

End Batch.

(** ** extraction/schemas.py and extraction/settlement_extractor.py *)

Module Extraction.
Import Llm.

Record SettlementRules := mkRules {
  settlement_name : option string;
  administrator : option string;
  defendant : option string;
  case_number : option string;
  summary : option string;
  eligible_class_description : option string;
  eligible_industries : option (list string);
  eligible_geography : option string;
  eligible_time_period : option string;
  eligible_actions : option (list string);
  exclusions : option (list string);
  proof_required : option (list string);
  proof_difficulty : option string;
  claim_deadline : option string;
  claim_window_status : option string;
  smb_relevance : option string;
  smb_relevance_reason : option string;
  clarity_score : option Z;
  claim_url : option string;
  claim_method : option string;
  estimated_payout : option string;
}.

(** An [Optional[int]] field declared with [ge] and [le]. *)
Definition as_int_between (lo hi : Z) (field : string) (v : json) : exn + Z :=
  let+ z := as_int field v in
  if (lo <=? z)%Z && (z <=? hi)%Z then inr z else inl (validation_error field).

(** The constructor [SettlementRules], applied to the dict as keyword
    arguments; same reading of the field types as for the other models. *)
Definition make_SettlementRules (data : gmap string json) : exn + SettlementRules :=
  let opt_str := as_opt as_str in
  let opt_list := as_opt (as_list_of as_str) in
  let+ settlement_name := optional data opt_str "settlement_name" (Some "Unknown Settlement") in
  let+ administrator := optional data opt_str "administrator" (Some "Unknown") in
  let+ defendant := optional data opt_str "defendant" (Some "Unknown") in
  let+ case_number := optional data opt_str "case_number" None in
  let+ summary := optional data opt_str "summary" (Some EmptyString) in
  let+ eligible_class := optional data opt_str "eligible_class_description" (Some EmptyString) in
  let+ eligible_industries := optional data opt_list "eligible_industries" (Some []) in
  let+ eligible_geography := optional data opt_str "eligible_geography" None in
  let+ eligible_time_period := optional data opt_str "eligible_time_period" None in
  let+ eligible_actions := optional data opt_list "eligible_actions" (Some []) in
  let+ exclusions := optional data opt_list "exclusions" (Some []) in
  let+ proof_required := optional data opt_list "proof_required" (Some []) in
  let+ proof_difficulty := optional data opt_str "proof_difficulty" (Some "moderate") in
  let+ claim_deadline := optional data opt_str "claim_deadline" None in
  let+ claim_window_status := optional data opt_str "claim_window_status" (Some "open") in
  let+ smb_relevance := optional data opt_str "smb_relevance" (Some "medium") in
  let+ smb_relevance_reason := optional data opt_str "smb_relevance_reason" (Some EmptyString) in
  let+ clarity_score := optional data (as_opt (as_int_between 1 10)) "clarity_score" (Some 5%Z) in
  let+ claim_url := optional data opt_str "claim_url" None in
  let+ claim_method := optional data opt_str "claim_method" (Some "online") in
  let+ estimated_payout := optional data opt_str "estimated_payout" None in
  inr (mkRules settlement_name administrator defendant case_number summary eligible_class
         eligible_industries eligible_geography eligible_time_period eligible_actions exclusions
         proof_required proof_difficulty claim_deadline claim_window_status smb_relevance
         smb_relevance_reason clarity_score claim_url claim_method estimated_payout).

(** [ainvoke_pydantic(llm_client, prompt, SettlementRules)] *)
Definition ainvoke_rules (llm_client : client) (json_loads : string -> exn + json)
           (prompt : string) : exn + SettlementRules :=
  let+ data := ainvoke_json llm_client json_loads prompt in
  match data with
  | JObj members => make_SettlementRules (drop_nulls (dict_of members))
  | _ => inl (Exn AttributeError "AttributeError" "object has no attribute 'items'")
  end.

(** [text[start:stop]] for any two integers: a negative index counts from the
    end, and both are clipped to the text. *)
Definition slice_index (len : nat) (i : Z) : nat :=
  if (i <? 0)%Z then Z.to_nat (Z.max 0 (i + Z.of_nat len))
  else Nat.min (Z.to_nat i) len.

Definition slice (text : string) (start stop : Z) : string :=
  let a := slice_index (String.length text) start in
  let b := slice_index (String.length text) stop in
  String.substring a (b - a) text.

(** The [while start < len(text)] loop of [chunk_text].  A run that is out of
    fuel is [None]. *)
Fixpoint chunk_loop (fuel : nat) (text : string) (chunk_size overlap start : Z)
  : option (list string) :=
  if (start <? Z.of_nat (String.length text))%Z then
    match fuel with
    | O => None
    | S fuel' =>
        let end_ := (start + chunk_size)%Z in
        cons (slice text start end_)
          <$> chunk_loop fuel' text chunk_size overlap (end_ - overlap)
    end
  else Some [].

(** [chunk_text(text, chunk_size, overlap)].  The loop is given one turn for
    each character of the text. *)
Definition chunk_text (text : string) (chunk_size overlap : Z) : option (list string) :=
  if (Z.of_nat (String.length text) <=? chunk_size)%Z then Some [text]
  else chunk_loop (String.length text) text chunk_size overlap 0.

(** What surrounds one extraction: the text that [load_document_text] reads
    from the path, the client that [get_llm_client()] builds, [json.loads], and
    [EXTRACTION_PROMPT.format(document_text=...)]. *)
Record env := mkEnv {
  load_document_text : string -> exn + string;
  get_llm_client : exn + client;
  json_loads : string -> exn + json;
  extraction_prompt : string -> string;
}.

(** The body of the outer [try] of [extract_settlement_rules]. *)
Definition extract_body (E : env) (document_path : string) (llm_client : option client)
  : exn + option SettlementRules :=
  let+ text := load_document_text E document_path in
  if negb (Py.truthy text) || (String.length (Py.strip text) <? 100)%nat then inr None
  else
    let+ primary_text :=
      match chunk_text text 15000 1000 with
      | Some (c :: _) => inr c
      | _ => inl (Exn IndexError "IndexError" "list index out of range")
      end in
    let prompt := extraction_prompt E primary_text in
    match (match llm_client with None => get_llm_client E | Some c => inr c end) with
    | inl _ => inr None
    | inr llm_client =>
        let+ rules := ainvoke_rules llm_client (json_loads E) prompt in
        inr (Some rules)
    end.

Definition extract_settlement_rules (E : env) (document_path : string)
           (llm_client : option client) : exn + option SettlementRules :=
  match extract_body E document_path llm_client with
  | inl _ => inr None
  | inr r => inr r
  end.

End Extraction.

(** ** Shapes of results and traces

    Predicates in which further properties of the probes are stated. *)

Module Shapes.
Import Schemas Effects.

(** A Finding of the probe [src]: it names its source, it never contradicts
    eligibility, and it carries an error detail exactly when it is an error. *)
Definition well_formed (src : string) (f : SubAgentFinding) : Prop :=
  source f = src
  /\ supports_eligibility f <> Some false
  /\ (is_error f = true <-> is_Some (error_detail f)).

(** A well-formed Finding that is neutral about eligibility. *)
Definition neutral (src : string) (f : SubAgentFinding) : Prop :=
  well_formed src f /\ supports_eligibility f = None.

(** Text in which white space is single blanks: after a blank ([after_blank])
    or at the start, no blank follows, and no other white space occurs. *)
Fixpoint single_blanks (after_blank : bool) (s : string) : bool :=
  match s with
  | EmptyString => true
  | String c s' =>
      if Ascii.eqb c " " then negb after_blank && single_blanks true s'
      else negb (Py.is_space c) && single_blanks false s'
  end.

(** The search calls of a trace. *)
Definition search_calls (evs : list event) : list (string * Z) :=
  omap (fun ev => match ev with EvSearch q n => Some (q, n) | _ => None end) evs.

(** [within m g s]: from any state, [m] makes at most [g] HTTP requests and at
    most [s] search calls. *)
Definition within {A} (m : M A) (g s : nat) : Prop :=
  forall st, exists evs,
    trace (snd (m st)) = trace st ++ evs
    /\ length (gets evs) <= g
    /\ length (search_calls evs) <= s.

(** The characters of a normalised business name. *)
Definition name_char (c : ascii) : bool := Py.is_lower c || Py.is_digit c || Ascii.eqb c " ".

Fixpoint all_chars (p : ascii -> bool) (s : string) : bool :=
  match s with
  | EmptyString => true
  | String c s' => p c && all_chars p s'
  end.

(** The character [sep] occurs in [s]. *)
Fixpoint has_char (sep : ascii) (s : string) : bool :=
  match s with
  | EmptyString => false
  | String c s' => Ascii.eqb c sep || has_char sep s'
  end.

(** The number of turns of a loop that starts at [s], advances by [step] and
    runs while it is before [len]. *)
Definition chunk_count (len step s : nat) : nat := (len - s + step - 1) / step.

(** The outcome of a snapshot request that gives no text to score: an
    exception, a status of 400 or more, or fewer than 40 characters of text. *)
Definition unreadable (o : exn + response) : Prop :=
  match o with
  | inl _ => True
  | inr resp =>
      (400 <= status_code resp)%Z
      \/ String.length (Tools._extract_text (text resp) 7000) < 40
  end.

End Shapes.

(** * Properties *)

Import Reference.

(** ** Fan-out *)

Section FanoutFacts.
Context {T : Type}.
Implicit Types (vs : list (option T)) (schedule : list nat).

(** When no task raises, every scheduled task has written its own slot. *)
Lemma run_tasks_slots vs schedule : forall results,
  length results = length vs ->
  exists results',
    Fanout.run_tasks (inr <$> vs) schedule results = inr results'
    /\ length results' = length vs
    /\ forall i, results' !! i = if decide (i ∈ schedule) then vs !! i else results !! i.
Proof.
  induction schedule as [|idx rest IH]; intros results Hlen; simpl.
  - exists results. split; [done|]. split; [done|]. intros i.
    destruct (decide (i ∈ [])) as [Hin|_]; [by apply elem_of_nil in Hin | done].
  - rewrite list_lookup_fmap. destruct (vs !! idx) as [v|] eqn:Hv; simpl.
    + destruct (IH (<[idx:=v]> results)) as (r' & Hrun & Hl & Hlook).
      { by rewrite length_insert. }
      exists r'. split; [done|]. split; [done|]. intros i. rewrite Hlook.
      destruct (decide (i ∈ rest)) as [Hin|Hnin].
      * rewrite decide_True; [done | by apply elem_of_cons; right].
      * destruct (decide (i = idx)) as [->|Hne].
        -- rewrite decide_True; [| by apply elem_of_cons; left].
           rewrite list_lookup_insert_eq; [done|].
           rewrite Hlen. by eapply lookup_lt_Some.
        -- rewrite decide_False; [| by intros [?|?]%elem_of_cons].
           by rewrite list_lookup_insert_ne.
    + destruct (IH results Hlen) as (r' & Hrun & Hl & Hlook).
      exists r'. split; [done|]. split; [done|]. intros i. rewrite Hlook.
      destruct (decide (i ∈ rest)) as [Hin|Hnin].
      * rewrite decide_True; [done | by apply elem_of_cons; right].
      * destruct (decide (i = idx)) as [->|Hne].
        -- rewrite decide_True; [| by apply elem_of_cons; left].
           etrans; [|symmetry; exact Hv].
           apply lookup_ge_None. rewrite Hlen. by apply lookup_ge_None.
        -- rewrite decide_False; [done | by intros [?|?]%elem_of_cons].
Qed.

Lemma not_none_some (ws : list T) : Fanout.not_none (Some <$> ws) = ws.
Proof.
  unfold Fanout.not_none. induction ws as [|x ws IH]; [done|].
  simpl. f_equal. exact IH.
Qed.

(** The order-preserving behaviour the fan-out is written for: when every
    operation returns a value other than [None], the results are the
    operations' results, in input order, whatever the completion order. *)
Lemma gather_with_limit_ordered (ws : list T) (concurrency : Z) schedule :
  (1 <= concurrency)%Z ->
  schedule ≡ₚ seq 0 (length ws) ->
  Fanout.gather_with_limit ((fun x => inr (Some x)) <$> ws) concurrency schedule = inr ws.
Proof.
  intros Hc Hperm. unfold Fanout.gather_with_limit.
  destruct (concurrency <? 1)%Z eqn:Hlt; [lia|].
  rewrite length_fmap.
  replace ((fun x : T => inr (Some x)) <$> ws) with (@inr exn (option T) <$> (Some <$> ws))
    by (by rewrite <- list_fmap_compose).
  destruct (run_tasks_slots (Some <$> ws) schedule (replicate (length ws) None))
    as (r' & Hrun & Hl & Hlook).
  { by rewrite length_replicate, length_fmap. }
  rewrite Hrun. f_equal.
  replace r' with (Some <$> ws); [apply not_none_some|].
  apply list_eq. intros i. rewrite Hlook.
  destruct (decide (i ∈ schedule)) as [|Hnin]; [done|].
  symmetry.
  assert (length ws <= i).
  { destruct (decide (i < length ws)) as [Hlt'|]; [|lia].
    exfalso. apply Hnin. rewrite Hperm. apply elem_of_seq. lia. }
  etrans; [by apply lookup_replicate_None|].
  symmetry. apply lookup_ge_None. by rewrite length_fmap.
Qed.

Lemma map_with_limit_ordered {U} (items : list U) (f : U -> T) (concurrency : Z) (delay_s : Q)
      schedule :
  (1 <= concurrency)%Z ->
  schedule ≡ₚ seq 0 (length items) ->
  Fanout.map_with_limit items (fun x => inr (Some (f x))) concurrency delay_s schedule
  = inr (f <$> items).
Proof.
  intros Hc Hperm.
  pose proof (gather_with_limit_ordered (f <$> items) concurrency schedule Hc) as H.
  rewrite length_fmap in H. specialize (H Hperm).
  unfold Fanout.gather_with_limit in H. unfold Fanout.map_with_limit.
  rewrite <- list_fmap_compose in H. rewrite !length_fmap in *. exact H.
Qed.

Lemma gather_with_limit_invalid (aws : list (@Fanout.outcome T)) (concurrency : Z) schedule :
  (concurrency < 1)%Z ->
  Fanout.gather_with_limit aws concurrency schedule = inl Fanout.invalid_concurrency.
Proof.
  intros H. unfold Fanout.gather_with_limit. destruct (concurrency <? 1)%Z eqn:E; [done|lia].
Qed.
End FanoutFacts.

(** C1.  The claim promises exactly N results with [result[i]] the result of
    operation [i].  At three operations that return 1, [None] and 3 (run one
    at a time, in order) both variants return the two-element list [1; 3]: the
    result of the second operation is dropped and the third takes its place. *)
Theorem C1_fanout_drops_none_results :
  let ops : list (@Fanout.outcome nat) := [inr (Some 1); inr None; inr (Some 3)] in
  let worker (x : nat) : @Fanout.outcome nat := if (x =? 2)%nat then inr None else inr (Some x) in
  exists l,
    Fanout.gather_with_limit ops 1 [0; 1; 2] = inr l
    /\ Fanout.map_with_limit [1; 2; 3] worker 1 0 [0; 1; 2] = inr l
    /\ length ops = 3 /\ length l = 2
    /\ ops !! 2%nat = Some (inr (Some 3)) /\ l !! 1%nat = Some 3.
Proof.
  cbv zeta. exists [1; 3].
  split; [reflexivity|]. split; [reflexivity|]. by repeat split.
Qed.

(** ** Sampling of the capture rows *)

Section Sampling.
Import Tools.

Lemma stride_continue i rest (idxs : gset nat) (l : list nat) :
  NoDup l -> {[ i ]} ∪ idxs = list_to_set l -> length l < 8 ->
  stride 8 (i :: rest) idxs = stride 8 rest (list_to_set l).
Proof.
  intros Hnd Heq Hlen. cbn [stride]. rewrite Heq, (size_list_to_set l Hnd).
  destruct (Nat.leb_spec 8 (length l)); [lia | done].
Qed.

Lemma stride_stop i rest (idxs : gset nat) (l : list nat) :
  NoDup l -> {[ i ]} ∪ idxs = list_to_set l -> 8 <= length l ->
  stride 8 (i :: rest) idxs = list_to_set l.
Proof.
  intros Hnd Heq Hlen. cbn [stride]. rewrite Heq, (size_list_to_set l Hnd).
  destruct (Nat.leb_spec 8 (length l)); [done | lia].
Qed.

Lemma sorted_indices_of_list (l sorted : list nat) :
  NoDup l -> l ≡ₚ sorted -> Sorted Nat.le sorted ->
  sorted_indices (list_to_set l) = sorted.
Proof.
  intros Hnd Hperm Hsorted. unfold sorted_indices.
  apply (Sorted_unique Nat.le); [apply Sorted_merge_sort; apply _ | done |].
  rewrite merge_sort_Permutation, <- Hperm. by apply elements_list_to_set.
Qed.

Ltac set_lia := apply set_eq; intros ?; set_unfold; lia.
Ltac nodup_lia :=
  repeat (apply NoDup_cons; split; [set_unfold; lia|]); apply NoDup_nil; exact I.

(** For long lists the loop strides with a step of at least 3 and stops at
    its fifth turn. *)
Lemma sample_indices_long n :
  22 <= n -> sorted_indices (sample_indices n 8) = stride_closed_form n.
Proof.
  intros Hn. unfold sample_indices, stride_closed_form.
  change (8 - 1) with 7.
  assert (Hs : 3 <= (n - 1) / 7) by (apply Nat.div_le_lower_bound; lia).
  assert (Hs7 : 7 * ((n - 1) / 7) <= n - 1) by (apply Nat.Div0.mul_div_le).
  set (s := (n - 1) / 7) in *.
  replace (Nat.max 1 s) with s by lia.
  replace (2 / s) with 0 by (symmetry; apply Nat.div_small; lia).
  replace (Nat.min 2 (n - 1)) with 2 by lia.
  assert (Hm : 5 <= (n + s - 1) / s) by (apply Nat.div_le_lower_bound; lia).
  unfold Py.range0.
  destruct ((n + s - 1) / s) as [|[|[|[|[|m]]]]]; try lia. clear Hm.
  simpl seq. rewrite !fmap_cons.
  rewrite (stride_continue _ _ _ [0; 1; 2; n - 1]); [| nodup_lia | set_lia | simpl; lia].
  rewrite (stride_continue _ _ _ [1 * s; 0; 1; 2; n - 1]); [| nodup_lia | set_lia | simpl; lia].
  rewrite (stride_continue _ _ _ [2 * s; 1 * s; 0; 1; 2; n - 1]);
    [| nodup_lia | set_lia | simpl; lia].
  rewrite (stride_continue _ _ _ [3 * s; 2 * s; 1 * s; 0; 1; 2; n - 1]);
    [| nodup_lia | set_lia | simpl; lia].
  rewrite (stride_stop _ _ _ [4 * s; 3 * s; 2 * s; 1 * s; 0; 1; 2; n - 1]);
    [| nodup_lia | set_lia | simpl; lia].
  apply sorted_indices_of_list; [nodup_lia | |].
  - apply NoDup_Permutation; [nodup_lia | nodup_lia |].
    intros x. set_unfold. lia.
  - repeat (constructor; try lia).
Qed.

(** For the lengths 9 to 21 the step is 1 or 2; the loop is run on each. *)
Lemma sample_indices_short n :
  8 < n -> n < 22 -> sorted_indices (sample_indices n 8) = stride_closed_form n.
Proof.
  intros H8 H22.
  assert (Hall : forallb (fun n => bool_decide (sorted_indices (sample_indices n 8)
                                              = stride_closed_form n)) (seq 9 13) = true)
    by (vm_compute; reflexivity).
  rewrite forallb_forall in Hall.
  specialize (Hall n). apply bool_decide_eq_true in Hall; [done|].
  apply in_seq. lia.
Qed.

Lemma sample_indices_closed_form n :
  8 < n -> sorted_indices (sample_indices n 8) = stride_closed_form n.
Proof.
  intros H. destruct (decide (n < 22)); [by apply sample_indices_short|].
  apply sample_indices_long. lia.
Qed.

Lemma stride_closed_form_bounds n :
  8 < n ->
  let s := Nat.max 1 ((n - 1) / 7) in
  let k := 2 / s + 1 in
  2 < k * s /\ (k + 3) * s < n - 1.
Proof.
  intros H s k. 
  assert (Hs7 : 7 * ((n - 1) / 7) <= n - 1) by (apply Nat.Div0.mul_div_le).
  destruct (decide (n < 22)) as [Hlt|Hge].
  - assert (Hall : forallb (fun n => let s := Nat.max 1 ((n - 1) / 7) in
                                     let k := 2 / s + 1 in
                                     (2 <? k * s)%nat && ((k + 3) * s <? n - 1)%nat) (seq 9 13) = true)
      by (vm_compute; reflexivity).
    rewrite forallb_forall in Hall. specialize (Hall n).
    cbv zeta in Hall. rewrite andb_true_iff, !Nat.ltb_lt in Hall.
    apply Hall, in_seq. lia.
  - assert (Hs : 3 <= (n - 1) / 7) by (apply Nat.div_le_lower_bound; lia).
    subst k s. replace (Nat.max 1 ((n - 1) / 7)) with ((n - 1) / 7) by lia.
    replace (2 / ((n - 1) / 7)) with 0 by (symmetry; apply Nat.div_small; lia).
    lia.
Qed.
End Sampling.

Section SamplingRows.
Import Tools.
Context {A : Type}.
Implicit Types (rows : list A) (idxs : list nat).

Lemma filter_in_range rows idxs :
  Forall (fun i => i < length rows) idxs ->
  filter (fun i => i < length rows) idxs = idxs.
Proof.
  induction 1 as [|i idxs Hi _ IH]; [done|].
  rewrite filter_cons, decide_True by done. by rewrite IH.
Qed.

Lemma omap_lookup_rows rows idxs :
  Forall (fun i => i < length rows) idxs ->
  Forall2 (fun i r => rows !! i = Some r) idxs (omap (fun i => rows !! i) idxs).
Proof.
  induction 1 as [|i idxs Hi _ IH]; simpl; [constructor|].
  destruct (lookup_lt_is_Some_2 rows i Hi) as [r Hr]. rewrite Hr.
  by constructor.
Qed.

Lemma closed_form_in_range n : 8 < n -> Forall (fun i => i < n) (stride_closed_form n).
Proof.
  intros H. pose proof (stride_closed_form_bounds n H) as Hb. cbv zeta in Hb.
  unfold stride_closed_form. repeat (constructor; try lia).
Qed.
End SamplingRows.

(** C7.  Up to 8 rows are all kept.  Of more than 8 rows the function keeps
    the rows at 8 indices, in ascending order: 0, 1, 2 and the last index, and
    the consecutive multiples of [step = max(1, (len-1) // 7)] that the loop
    meets before it has 8 distinct indices. *)
Theorem C7_sample_wayback_rows {A : Type} (rows : list A) :
  let n := length rows in
  let step := Nat.max 1 ((n - 1) / (8 - 1)) in
  (n <= 8 -> Tools._sample_wayback_rows rows 8 = rows)
  /\ (8 < n ->
      exists idxs,
        idxs = Tools.sorted_indices (Tools.sample_indices n 8)
        /\ Forall2 (fun i r => rows !! i = Some r) idxs (Tools._sample_wayback_rows rows 8)
        /\ length (Tools._sample_wayback_rows rows 8) <= 8
        /\ idxs = stride_closed_form n
        /\ (0 ∈ idxs /\ 1 ∈ idxs /\ 2 ∈ idxs /\ (n - 1) ∈ idxs)
        /\ StronglySorted lt idxs
        /\ (forall i, i ∈ idxs -> i < n /\ (i ∈ [0; 1; 2; n - 1] \/ exists k, i = k * step))).
Proof.
  intros n step. split.
  - intros Hn. unfold Tools._sample_wayback_rows.
    destruct (Nat.leb_spec (length rows) 8); [done | subst n; lia].
  - intros Hn. exists (stride_closed_form n).
    pose proof (sample_indices_closed_form n Hn) as Hcf.
    pose proof (closed_form_in_range n Hn) as Hrange.
    pose proof (stride_closed_form_bounds n Hn) as Hb. cbv zeta in Hb.
    assert (Hrows : Tools._sample_wayback_rows rows 8
                    = omap (fun i => rows !! i) (stride_closed_form n)).
    { unfold Tools._sample_wayback_rows.
      destruct (Nat.leb_spec (length rows) 8); [subst n; lia|].
      unfold n in Hcf. rewrite Hcf. by rewrite filter_in_range. }
    pose proof (omap_lookup_rows rows (stride_closed_form n) Hrange) as HF.
    rewrite <- Hrows in HF.
    split; [done|]. split; [done|]. split.
    { apply Forall2_length in HF. rewrite <- HF. simpl. lia. }
    split; [done|]. unfold stride_closed_form in *.
    change (8 - 1) with 7 in *. fold step in Hb, Hrange |- *.
    assert (1 <= step) by (subst step; lia).
    clearbody step. clear Hcf Hrows HF. set (k := 2 / step + 1) in *. clearbody k.
    split; [repeat split; set_unfold; lia|]. split.
    { repeat (apply SSorted_cons;
              [| repeat (apply List.Forall_cons; [nia|]); apply List.Forall_nil]).
      apply SSorted_nil. }
    intros i Hi. split.
    { rewrite Forall_forall in Hrange. by apply Hrange. }
    set_unfold in Hi.
    destruct Hi as [Hi | [Hi | [Hi | [Hi | [Hi | [Hi | [Hi | Hi ] ] ] ] ] ] ];
      first [ left; set_unfold; lia | right; eexists; exact Hi ].
Qed.

(** A list of 5 rows and a list of 20 rows. *)
Lemma C7_sample_wayback_rows_witness :
  Tools._sample_wayback_rows (seq 0 5) 8 = seq 0 5
  /\ exists idxs,
       idxs = Tools.sorted_indices (Tools.sample_indices 20 8)
       /\ Forall2 (fun i r => seq 0 20 !! i = Some r) idxs (Tools._sample_wayback_rows (seq 0 20) 8)
       /\ length (Tools._sample_wayback_rows (seq 0 20) 8) <= 8
       /\ idxs = stride_closed_form 20
       /\ (0 ∈ idxs /\ 1 ∈ idxs /\ 2 ∈ idxs /\ 19 ∈ idxs)
       /\ StronglySorted lt idxs
       /\ (forall i, i ∈ idxs -> i < 20 /\ (i ∈ [0; 1; 2; 19] \/ exists k, i = k * 2)).
Proof.
  split.
  - apply (proj1 (C7_sample_wayback_rows (seq 0 5))). simpl. lia.
  - apply (proj2 (C7_sample_wayback_rows (seq 0 20))). simpl. lia.
Defined.

(** ** Identity score *)

Section IdentityScore.
Import Tools.

Lemma Qle_bool_false (a b : Q) : Qle_bool a b = false -> (b < a)%Q.
Proof.
  intros H. apply Qnot_le_lt. intros Hle. apply Qle_bool_iff in Hle. congruence.
Qed.

Ltac qcases :=
  repeat match goal with
         | |- context [Qle_bool ?a ?b] =>
             let E := fresh "E" in
             destruct (Qle_bool a b) eqn:E;
             [apply Qle_bool_iff in E | apply Qle_bool_false in E]
         end.

Lemma fraction_nonneg (hits kept : nat) : (0 <= Z.of_nat hits # Pos.of_nat (Nat.max 1 kept))%Q.
Proof. unfold Qle. simpl. lia. Qed.

Lemma fraction_zero (kept : nat) : (Z.of_nat 0 # Pos.of_nat (Nat.max 1 kept) == 0)%Q.
Proof. unfold Qeq. simpl. lia. Qed.

Lemma score_of_spec (phrase_hit city_hit : bool) (hits kept : nat) :
  (score_of phrase_hit city_hit hits kept == identity_score_spec phrase_hit city_hit hits kept)%Q.
Proof.
  unfold score_of, identity_score_spec, Qmin, clamp01.
  pose proof (fraction_nonneg hits kept) as Hr.
  set (r := Z.of_nat hits # Pos.of_nat (Nat.max 1 kept)) in *. clearbody r.
  destruct phrase_hit, city_hit, (2 <=? hits)%nat; qcases; lra.
Qed.

Lemma score_of_range (phrase_hit city_hit : bool) (hits kept : nat) :
  (0 <= score_of phrase_hit city_hit hits kept <= 1)%Q.
Proof.
  unfold score_of, Qmin.
  pose proof (fraction_nonneg hits kept) as Hr.
  set (r := Z.of_nat hits # Pos.of_nat (Nat.max 1 kept)) in *. clearbody r.
  destruct phrase_hit, city_hit, (2 <=? hits)%nat; qcases; lra.
Qed.

Lemma score_of_phrase (city_hit : bool) (hits kept : nat) :
  (7 # 10 <= score_of true city_hit hits kept)%Q.
Proof.
  unfold score_of, Qmin. destruct city_hit, (2 <=? hits)%nat; qcases; lra.
Qed.

Lemma score_of_nothing (kept : nat) : (score_of false false 0 kept == 0)%Q.
Proof.
  unfold score_of, Qmin. simpl (2 <=? 0)%nat. cbv iota.
  pose proof (fraction_zero kept) as Hr.
  set (r := Z.of_nat 0 # Pos.of_nat (Nat.max 1 kept)) in *. clearbody r.
  qcases; lra.
Qed.
End IdentityScore.

(** C6.  The score is the clamped sum the specification describes; a page
    that contains the normalised name scores at least 0.7; a page with no
    phrase, no token and no city scores 0, and so does an empty normalised
    name. *)
Theorem C6_identity_score (page_text business_name city : string) :
  let text := Py.lower page_text in
  let cleaned_name := Tools.clean_name business_name in
  let tokens := Tools.name_tokens cleaned_name in
  let phrase_hit := Py.contains cleaned_name text in
  let token_hits := Tools.count_hits tokens text in
  let city_hit := Py.truthy city && Tools.word_search (Py.lower city) text in
  let score := fst (Tools._identity_score page_text business_name city) in
  (cleaned_name = EmptyString -> score = 0%Q)
  /\ (cleaned_name <> EmptyString ->
      (score == identity_score_spec phrase_hit city_hit token_hits (length tokens))%Q)
  /\ (cleaned_name <> EmptyString -> phrase_hit = true -> (7 # 10 <= score)%Q)
  /\ (phrase_hit = false -> token_hits = 0%nat -> city_hit = false -> (score == 0)%Q)
  /\ (0 <= score <= 1)%Q.
Proof.
  intros text cleaned_name tokens phrase_hit token_hits city_hit score.
  subst score. unfold Tools._identity_score.
  fold text cleaned_name. destruct cleaned_name as [|c rest] eqn:Hname; simpl fst.
  - split; [done|]. split; [done|]. split; [done|].
    split; [intros; reflexivity | lra].
  - cbn [Py.truthy negb]. cbv zeta. cbn [fst].
    fold tokens phrase_hit token_hits city_hit.
    split; [done|]. split; [intros _; apply score_of_spec|].
    split; [intros _ ->; apply score_of_phrase|].
    split; [intros -> -> ->; apply score_of_nothing | apply score_of_range].
Qed.

(** A page that names the business, a page that does not, and a name with no
    letters or digits. *)
Lemma C6_identity_score_witness :
  (7 # 10 <= fst (Tools._identity_score "Welcome to JOE S PIZZA of Wooster" "Joe's Pizza" "Wooster"))%Q
  /\ (fst (Tools._identity_score "nothing to see" "Joe's Pizza" "Wooster") == 0)%Q
  /\ fst (Tools._identity_score "any page" "!?" "Wooster") = 0%Q.
Proof.
  split; [|split].
  - pose proof (C6_identity_score "Welcome to JOE S PIZZA of Wooster" "Joe's Pizza" "Wooster") as H.
    cbv zeta in H. destruct H as (_ & _ & H & _).
    apply H; [vm_compute; discriminate | vm_compute; reflexivity].
  - pose proof (C6_identity_score "nothing to see" "Joe's Pizza" "Wooster") as H.
    cbv zeta in H. destruct H as (_ & _ & _ & H & _).
    apply H; vm_compute; reflexivity.
  - pose proof (C6_identity_score "any page" "!?" "Wooster") as H.
    cbv zeta in H. destruct H as (H & _).
    apply H. vm_compute. reflexivity.
Defined.

(** ** Stable sort by key *)

Section SortBy.
Context {A K : Type} (key : A -> K) (le : K -> K -> bool).
Hypothesis le_total : forall a b, le a b = true \/ le b a = true.
Hypothesis le_trans : forall a b c, le a b = true -> le b c = true -> le a c = true.

Let R (x y : A) : Prop := le (key x) (key y) = true.

Lemma insert_sorted_perm (x : A) (l : list A) : Py.insert_sorted key le x l ≡ₚ x :: l.
Proof.
  induction l as [|y l IH]; simpl; [done|].
  destruct (le (key x) (key y)); [done|].
  rewrite IH. apply Permutation_swap.
Qed.

Lemma sort_by_perm (l : list A) : Py.sort_by key le l ≡ₚ l.
Proof.
  induction l as [|x l IH]; simpl; [done|].
  unfold Py.sort_by in *. simpl. rewrite insert_sorted_perm. by rewrite IH.
Qed.

Lemma insert_sorted_sorted (x : A) (l : list A) :
  StronglySorted R l -> StronglySorted R (Py.insert_sorted key le x l).
Proof.
  induction 1 as [|y l Hl IH Hy]; simpl.
  - apply SSorted_cons; [apply SSorted_nil | apply List.Forall_nil].
  - destruct (le (key x) (key y)) eqn:Hxy.
    + apply SSorted_cons; [by apply SSorted_cons|].
      apply List.Forall_cons; [exact Hxy|].
      eapply List.Forall_impl; [|exact Hy]. intros z Hz. unfold R in *. eauto.
    + apply SSorted_cons; [exact IH|].
      rewrite insert_sorted_perm. apply List.Forall_cons; [|exact Hy].
      unfold R. destruct (le_total (key x) (key y)); congruence.
Qed.

Lemma sort_by_sorted (l : list A) : StronglySorted R (Py.sort_by key le l).
Proof.
  induction l as [|x l IH]; [apply SSorted_nil|].
  unfold Py.sort_by in *. simpl. by apply insert_sorted_sorted.
Qed.

(** In a sorted list the first element that satisfies [p] has the least key
    among those that do. *)
Lemma head_filter_least (p : A -> bool) (l : list A) (x : A) :
  StronglySorted R l ->
  head (List.filter p l) = Some x ->
  x ∈ l /\ p x = true /\ forall y, y ∈ l -> p y = true -> R x y.
Proof.
  induction 1 as [|z l Hl IH Hz]; simpl; [discriminate|].
  destruct (p z) eqn:Hpz; simpl.
  - intros [= ->]. split; [left|]. split; [done|].
    intros y [->|Hy]%elem_of_cons _.
    + unfold R. destruct (le_total (key x) (key x)); done.
    + rewrite List.Forall_forall in Hz. apply Hz. by apply list_elem_of_In.
  - intros Hhead. destruct (IH Hhead) as (Hin & Hpx & Hmin).
    split; [by right|]. split; [done|].
    intros y [->|Hy]%elem_of_cons Hpy; [congruence | by apply Hmin].
Qed.
End SortBy.

Section Counting.
Context {A : Type}.
Implicit Types (p q : A -> bool) (l : list A).

Lemma count_perm p l l' : l ≡ₚ l' -> Tools.count p l = Tools.count p l'.
Proof.
  unfold Tools.count. induction 1 as [|x l l' _ IH|x y l|l l' l'' _ IH1 _ IH2]; simpl.
  - done.
  - destruct (p x); simpl; by rewrite IH.
  - by destruct (p x), (p y).
  - congruence.
Qed.

Lemma count_filter p q l :
  Tools.count p (List.filter q l) = Tools.count (fun x => p x && q x) l.
Proof.
  unfold Tools.count. induction l as [|x l IH]; simpl; [done|].
  destruct (q x) eqn:Hq; simpl; destruct (p x) eqn:Hp; simpl;
    rewrite ?Hp; simpl; by rewrite ?IH.
Qed.

Lemma count_and_le p q l : Tools.count (fun x => p x && q x) l <= Tools.count q l.
Proof.
  unfold Tools.count. induction l as [|x l IH]; simpl; [done|].
  destruct (p x), (q x); simpl; lia.
Qed.

Lemma count_pos p l x : x ∈ l -> p x = true -> 0 < Tools.count p l.
Proof.
  unfold Tools.count. induction 1 as [x l|x y l Hin IH]; simpl; intros Hp.
  - rewrite Hp. simpl. lia.
  - destruct (p y); simpl; [lia | by apply IH].
Qed.

Lemma existsb_filter_head p l :
  existsb p l = true -> exists x, head (List.filter p l) = Some x.
Proof.
  induction l as [|y l IH]; simpl; [discriminate|].
  destruct (p y); simpl; [eauto | exact IH].
Qed.

Lemma existsb_perm p l l' : l ≡ₚ l' -> existsb p l = existsb p l'.
Proof.
  induction 1; simpl; try congruence.
  by destruct (p x), (p y).
Qed.
End Counting.

(** ** Order of ISO dates as strings *)

Lemma string_compare_refl (s : string) : String.compare s s = Eq.
Proof.
  induction s as [|c s IH]; simpl; [done|].
  unfold Ascii.compare. by rewrite N.compare_refl.
Qed.

Lemma string_compare_lt_trans (a b c : string) :
  String.compare a b = Lt -> String.compare b c = Lt -> String.compare a c = Lt.
Proof.
  revert b c. induction a as [|x a IH]; intros [|y b] [|z c]; simpl; try done.
  destruct (Ascii.compare x y) eqn:Hxy; try done;
    destruct (Ascii.compare y z) eqn:Hyz; try done.
  - apply Ascii.compare_eq_iff in Hxy, Hyz. subst.
    unfold Ascii.compare. rewrite N.compare_refl. apply IH.
  - apply Ascii.compare_eq_iff in Hxy. subst. by rewrite Hyz.
  - apply Ascii.compare_eq_iff in Hyz. subst. by rewrite Hxy.
  - unfold Ascii.compare in *. rewrite N.compare_lt_iff in *.
    assert (H : (N_of_ascii x < N_of_ascii z)%N) by lia.
    apply N.compare_lt_iff in H. by rewrite H.
Qed.

Lemma string_leb_trans (a b c : string) :
  String.leb a b = true -> String.leb b c = true -> String.leb a c = true.
Proof.
  unfold String.leb.
  destruct (String.compare a b) eqn:Hab; try done;
    destruct (String.compare b c) eqn:Hbc; try done; intros _ _.
  - apply String.compare_eq_iff in Hab, Hbc. subst. by rewrite string_compare_refl.
  - apply String.compare_eq_iff in Hab. subst. by rewrite Hbc.
  - apply String.compare_eq_iff in Hbc. subst. by rewrite Hab.
  - by rewrite (string_compare_lt_trans a b c).
Qed.

Lemma string_leb_refl (a : string) : String.leb a a = true.
Proof. unfold String.leb. by rewrite string_compare_refl. Qed.

(** ** Continuity of the archived identity *)

Section Continuity.
Import Tools Schemas.

Lemma sorted_by_date_perm (rs : list sample) : sorted_by_date rs ≡ₚ rs.
Proof. apply sort_by_perm. Qed.

Lemma continuity_of_post (first_match : sample) (rs sorted : list sample) :
  sorted ≡ₚ rs ->
  first_match ∈ rs ->
  continuity_of (post_match_of first_match sorted)
  = Z.of_nat (count (fun r => matched r && on_or_after (date first_match) r) rs)
    # Pos.of_nat (count (on_or_after (date first_match)) rs).
Proof.
  intros Hperm Hin. unfold continuity_of, post_match_of.
  assert (Hlen : length (List.filter (on_or_after (date first_match)) sorted)
                 = count (on_or_after (date first_match)) rs)
    by (by rewrite <- (count_perm _ _ _ Hperm)).
  assert (Hpos : 0 < count (on_or_after (date first_match)) rs).
  { apply (count_pos _ _ first_match); [done|]. apply string_leb_refl. }
  destruct (List.filter (on_or_after (date first_match)) sorted) as [|r post] eqn:Hpost.
  { simpl in Hlen. lia. }
  cbv iota. rewrite Hlen, <- Hpost, count_filter. by rewrite (count_perm _ _ _ Hperm).
Qed.
End Continuity.

(** C5.  When some sample matches, let [d] be the date of the earliest
    matched sample.  The continuity is the number of matched samples dated [d]
    or later over the number of all samples dated [d] or later, and the Finding
    supports eligibility exactly when that ratio is at least 0.6; otherwise the
    field is [None], never [False]. *)
Theorem C5_continuity (domain earliest_capture_iso : string) (rs : list Tools.sample) :
  existsb Tools.matched rs = true ->
  exists d : string,
    (exists r, r ∈ rs /\ Tools.matched r = true /\ Tools.date r = d)
    /\ (forall r, r ∈ rs -> Tools.matched r = true -> String.leb d (Tools.date r) = true)
    /\ let hits := Tools.count (fun r => Tools.matched r && Tools.on_or_after d r) rs in
       let total := Tools.count (Tools.on_or_after d) rs in
       let ratio := (Z.of_nat hits # Pos.of_nat total)%Q in
       let f := Tools.summarize_samples domain earliest_capture_iso rs in
       0 < total
       /\ hits <= total
       /\ Tools.continuity rs = Some ratio
       /\ (Schemas.supports_eligibility f = Some true <-> (6 # 10 <= ratio)%Q)
       /\ (Schemas.supports_eligibility f <> Some true -> Schemas.supports_eligibility f = None)
       /\ Schemas.supports_eligibility f <> Some false
       /\ Schemas.is_error f = false.
Proof.
  intros Hex.
  pose proof (sorted_by_date_perm rs) as Hperm.
  pose proof (sort_by_sorted Tools.date String.leb String.leb_total string_leb_trans rs) as Hsorted.
  fold (Tools.sorted_by_date rs) in Hsorted.
  rewrite <- (existsb_perm _ _ _ Hperm) in Hex.
  destruct (existsb_filter_head _ _ Hex) as [fm Hhead].
  destruct (head_filter_least Tools.date String.leb String.leb_total _ _ _ Hsorted Hhead)
    as (Hin & Hm & Hmin).
  exists (Tools.date fm). rewrite Hperm in Hin.
  split; [by exists fm|]. split.
  { intros r Hr Hmr. apply Hmin; [by rewrite Hperm | done]. }
  intros hits total ratio f.
  pose proof (continuity_of_post fm rs _ Hperm Hin) as Hcont. fold hits total ratio in Hcont.
  assert (Hpos : 0 < total).
  { apply (count_pos _ _ fm); [done|]. apply string_leb_refl. }
  assert (Hle : hits <= total).
  { apply count_and_le. }
  assert (Hsupp : Schemas.supports_eligibility f
                  = if Qle_bool (6 # 10) ratio then Some true else None).
  { subst f. unfold Tools.summarize_samples. cbv zeta.
    unfold Tools.first_match_of. rewrite Hhead. cbn [Schemas.supports_eligibility].
    by rewrite Hcont. }
  assert (Herr : Schemas.is_error f = false).
  { subst f. unfold Tools.summarize_samples. cbv zeta.
    unfold Tools.first_match_of. by rewrite Hhead. }
  split; [done|]. split; [done|]. split.
  { unfold Tools.continuity. cbv zeta. unfold Tools.first_match_of.
    rewrite Hhead. by rewrite Hcont. }
  rewrite Hsupp. destruct (Qle_bool (6 # 10) ratio) eqn:Hq.
  - apply Qle_bool_iff in Hq. repeat split; try done.
  - assert (~ (6 # 10 <= ratio)%Q) by (intros H%Qle_bool_iff; congruence).
    repeat split; try done.
Qed.

(** Ten samples: an unmatched one in 2004, then five matched and four
    unmatched ones from 2005 on. *)
Lemma C5_continuity_witness :
  let s (d : string) (m : bool) := Tools.mkSample d ("https://web.archive.org/web/" +:+ d) 0 false m in
  let rs := [s "2009-01-01" false; s "2005-01-01" true; s "2004-01-01" false;
             s "2006-01-01" true; s "2007-01-01" false; s "2008-01-01" true;
             s "2010-01-01" true; s "2011-01-01" false; s "2012-01-01" true;
             s "2013-01-01" false] in
  Tools.continuity rs = Some (5 # 9)%Q
  /\ Schemas.supports_eligibility (Tools.summarize_samples "example.com" "2004-01-01" rs) = None.
Proof.
  intros s rs.
  destruct (C5_continuity "example.com" "2004-01-01" rs eq_refl)
    as (d & (r & Hr & Hm & Hd) & Hmin & Hpos & Hle & Hcont & Hsupp & Hnone & _).
  split.
  - vm_compute. reflexivity.
  - apply Hnone. vm_compute. discriminate.
Defined.

(** ** The website fetcher *)

Section Website.
Import Tools Schemas Effects.
Context (w : world) (website_url : string).

Local Abbreviation outcome := (attempt_outcome w website_url).
Local Abbreviation request_of := (attempt_request website_url).

Ltac attempt_done :=
  eexists; split;
  [ unfold ret, raise, backoff; rewrite <- ?app_assoc; reflexivity
  | first [ by eexists | eexists; split; [reflexivity | split; reflexivity] ] ].

(** One turn of the loop: one request, then the wait if the attempt is to be
    retried. *)
Lemma website_attempt_spec (k : nat) (st : state) :
  let o := http_get w (requests st) (request_of k) in
  exists t,
    website_attempt w website_url k st
    = (inr t, mkState (S (requests st)) (searches st)
                (trace st ++ EvGet (request_of k) ::
                   match wait_after k o with Some q => [EvSleep q] | None => [] end))
    /\ match wait_after k o with
       | Some _ => exists last_error, t = Continue last_error
       | None =>
           if page_read o
           then exists f, t = Return f /\ is_error f = false /\ source f = "business_website"
           else exists last_error, t = Break last_error
       end.
Proof.
  intros o. subst o. unfold website_attempt, try_except, bind, client_get.
  fold (request_of k).
  destruct (http_get w (requests st) (request_of k)) as [e|resp] eqn:Ho; cbn [wait_after page_read].
  - fold (retryable_exn e). destruct (retryable_exn e); cbn; attempt_done.
  - destruct (in_status_set (status_code resp) _RETRYABLE_STATUS); cbn; [attempt_done|].
    destruct ((status_code resp =? 403)%Z && (k =? 0)%nat); cbn; [attempt_done|].
    unfold raise_for_status. destruct (is_success (status_code resp)); cbn; [|attempt_done].
    match goal with |- context [if ?b then _ else _] => destruct b end; cbn; attempt_done.
Qed.

Lemma website_loop_spec (fuel : nat) : forall (k : nat) (last_error : string) (st : state),
  requests st = k ->
  exists f st',
    website_loop w website_url (seq k fuel) last_error st = (inr f, st')
    /\ trace st' = trace st ++ attempts_trace w website_url fuel k
    /\ is_error f = negb (fetched w website_url fuel k)
    /\ source f = "business_website".
Proof.
  induction fuel as [|fuel IH]; intros k last_error st Hk; simpl.
  - eexists _, _. split; [done|]. split; [by rewrite app_nil_r | done].
  - unfold bind at 1.
    destruct (website_attempt_spec k st) as (t & Hrun & Ht). rewrite Hrun. clear Hrun.
    rewrite Hk in Ht |- *. fold (outcome k) in Ht |- *.
    destruct (wait_after k (outcome k)) as [q|].
    + destruct Ht as [le ->].
      edestruct (IH (S k) le) as (f & st' & Hloop & Htrace & Herr & Hsrc); [|rewrite Hloop].
      { done. }
      eexists _, _. split; [done|]. split; [|done].
      rewrite Htrace. cbn [trace]. by rewrite <- app_assoc.
    + destruct (page_read (outcome k)).
      * destruct Ht as (f & -> & Hf & Hsrc). eexists _, _. split; [done|]. by split.
      * destruct Ht as [le ->]. eexists _, _. split; [done|]. by split.
Qed.

(** The probe on a URL that is not empty. *)
Lemma check_business_website_spec (ctx : settlement_context) :
  Py.truthy website_url = true ->
  exists f,
    run (check_business_website w website_url ctx) = inr f
    /\ events (check_business_website w website_url ctx) = attempts_trace w website_url 3 0
    /\ is_error f = negb (fetched w website_url 3 0)
    /\ source f = "business_website".
Proof.
  intros Hurl. unfold check_business_website, run, events. rewrite Hurl. cbn [negb].
  destruct (website_loop_spec 3 0 "None" init eq_refl)
    as (f & st' & Hloop & Htrace & Herr & Hsrc).
  rewrite Hloop. exists f. by repeat split.
Qed.

(** *** The shape of the trace *)

Lemma attempts_made_le (fuel k : nat) : attempts_made w website_url fuel k <= fuel.
Proof.
  revert k. induction fuel as [|fuel IH]; intros k; simpl; [done|].
  destruct (wait_after k (outcome k)); [specialize (IH (S k))|]; lia.
Qed.

Lemma gets_attempts_trace (fuel k : nat) :
  gets (attempts_trace w website_url fuel k)
  = request_of <$> seq k (attempts_made w website_url fuel k).
Proof.
  revert k. induction fuel as [|fuel IH]; intros k; simpl; [done|].
  destruct (wait_after k (outcome k)); simpl; [by rewrite IH | done].
Qed.

Lemma sleeps_attempts_trace (fuel : nat) : forall (k j : nat) (q : Q),
  j < attempts_made w website_url fuel k ->
  wait_after (k + j) (outcome (k + j)) = Some q ->
  sleeps (attempts_trace w website_url fuel k) !! j = Some q.
Proof.
  induction fuel as [|fuel IH]; intros k j q Hj Hq; simpl in *; [lia|].
  destruct j as [|j].
  - rewrite Nat.add_0_r in Hq. by rewrite Hq.
  - destruct (wait_after k (outcome k)); [|lia]. simpl.
    apply IH; [lia|]. by replace (S k + j) with (k + S j) by lia.
Qed.

Lemma retried_attempt (fuel : nat) : forall (k j : nat) (q : Q),
  j < attempts_made w website_url fuel k ->
  wait_after (k + j) (outcome (k + j)) = Some q ->
  S j < fuel ->
  S j < attempts_made w website_url fuel k.
Proof.
  induction fuel as [|fuel IH]; intros k j q Hj Hq Hf; simpl in *; [lia|].
  destruct j as [|j].
  - rewrite Nat.add_0_r in Hq. rewrite Hq.
    destruct fuel as [|fuel]; [lia|]. simpl.
    destruct (wait_after (S k) (outcome (S k))); lia.
  - destruct (wait_after k (outcome k)); [|lia].
    apply ->Nat.succ_lt_mono. eapply IH; [lia| |lia].
    replace (S k + j) with (k + S j) by lia. done.
Qed.

Lemma final_attempt (fuel : nat) : forall (k j : nat),
  j < attempts_made w website_url fuel k ->
  wait_after (k + j) (outcome (k + j)) = None ->
  attempts_made w website_url fuel k = S j
  /\ fetched w website_url fuel k = page_read (outcome (k + j)).
Proof.
  induction fuel as [|fuel IH]; intros k j Hj Hq; simpl in *; [lia|].
  destruct j as [|j].
  - rewrite Nat.add_0_r in *. by rewrite Hq.
  - destruct (wait_after k (outcome k)); [|lia].
    destruct (IH (S k) j) as [H1 H2]; [lia| |].
    { by replace (S k + j) with (k + S j) by lia. }
    rewrite H1, H2. by replace (S k + j) with (k + S j) by lia.
Qed.
End Website.

(** C8.  On a URL that is not empty the probe makes at most three requests,
    the first two with the primary headers and the third with the alternate
    ones.  A reply with a status in 429, 500, 502, 503, 504 is followed by a
    wait of 1.5 s times the attempt number, and by the next attempt when one is
    left.  A 403 is retried, after one second, only as the reply to the first
    attempt; as the reply to a later attempt it ends the probe with an error
    Finding, so two 403 replies make exactly two attempts. *)
Theorem C8_check_business_website (w : Effects.world) (website_url : string)
        (ctx : Tools.settlement_context) :
  website_url <> EmptyString ->
  let probe := Tools.check_business_website w website_url ctx in
  let attempts := Effects.gets (Effects.events probe) in
  let waits := Effects.sleeps (Effects.events probe) in
  let outcome := attempt_outcome w website_url in
  exists f,
    Effects.run probe = inr f
    /\ length attempts <= 3
    /\ (forall k r, attempts !! k = Some r ->
          Effects.req_url r = website_url
          /\ Effects.req_headers r
             = if (k <? 2)%nat then Effects.PrimaryHeaders else Effects.AltHeaders)
    /\ (forall k resp,
          k < length attempts -> outcome k = inr resp ->
          Tools.in_status_set (Effects.status_code resp) Tools._RETRYABLE_STATUS = true ->
          (exists q, waits !! k = Some q /\ (q == (3 # 2) * inject_Z (Z.of_nat k + 1))%Q)
          /\ (k < 2 -> S k < length attempts))
    /\ (forall resp,
          outcome 0 = inr resp -> Effects.status_code resp = 403%Z ->
          waits !! 0 = Some 1%Q /\ 1 < length attempts)
    /\ (forall k resp,
          0 < k < length attempts -> outcome k = inr resp -> Effects.status_code resp = 403%Z ->
          length attempts = S k /\ Schemas.is_error f = true)
    /\ (forall r0 r1,
          outcome 0 = inr r0 -> Effects.status_code r0 = 403%Z ->
          outcome 1 = inr r1 -> Effects.status_code r1 = 403%Z ->
          length attempts = 2 /\ Schemas.is_error f = true).
Proof.
  intros Hurl probe attempts waits outcome.
  unfold outcome. clear outcome.
  assert (Htruthy : Py.truthy website_url = true) by (by destruct website_url).
  destruct (check_business_website_spec w website_url ctx Htruthy)
    as (f & Hrun & Hev & Herr & _).
  exists f. split; [exact Hrun|].
  assert (Hlen : length attempts = attempts_made w website_url 3 0).
  { subst attempts probe. by rewrite Hev, gets_attempts_trace, length_fmap, length_seq. }
  assert (Hwaits : waits = Effects.sleeps (attempts_trace w website_url 3 0)).
  { subst waits probe. by rewrite Hev. }
  assert (Hfirst : forall resp, attempt_outcome w website_url 0 = inr resp -> Effects.status_code resp = 403%Z ->
                     wait_after 0 (attempt_outcome w website_url 0) = Some 1%Q).
  { intros resp Ho Hs. rewrite Ho. cbn. by rewrite Hs. }
  assert (Hlater : forall k resp, 0 < k -> attempt_outcome w website_url k = inr resp ->
                     Effects.status_code resp = 403%Z ->
                     wait_after k (attempt_outcome w website_url k) = None /\ page_read (attempt_outcome w website_url k) = false).
  { intros k resp Hk Ho Hs. rewrite Ho. cbn. rewrite Hs. cbn.
    destruct k; [lia | done]. }
  assert (Hmade : 0 < attempts_made w website_url 3 0).
  { simpl. destruct (wait_after 0 _); lia. }
  assert (D : forall resp, attempt_outcome w website_url 0 = inr resp -> Effects.status_code resp = 403%Z ->
                waits !! 0 = Some 1%Q /\ 1 < length attempts).
  { intros resp Ho Hs. pose proof (Hfirst resp Ho Hs) as Hw. rewrite Hlen, Hwaits. split.
    - by apply (sleeps_attempts_trace w website_url 3 0 0).
    - apply (retried_attempt w website_url 3 0 0 1%Q); [done | done | lia]. }
  assert (E : forall k resp, 0 < k < length attempts -> attempt_outcome w website_url k = inr resp ->
                Effects.status_code resp = 403%Z ->
                length attempts = S k /\ Schemas.is_error f = true).
  { intros k resp [Hk0 Hk] Ho Hs. destruct (Hlater k resp Hk0 Ho Hs) as [Hw Hp].
    rewrite Hlen in Hk |- *.
    destruct (final_attempt w website_url 3 0 k Hk Hw) as [Hm Hf].
    split; [done|]. change (0 + k) with k in Hf. by rewrite Herr, Hf, Hp. }
  split; [rewrite Hlen; apply attempts_made_le|].
  split.
  { intros k r Hk. subst attempts probe.
    rewrite Hev, gets_attempts_trace, list_lookup_fmap in Hk.
    destruct (seq 0 (attempts_made w website_url 3 0) !! k) as [j|] eqn:Hj; [|done].
    apply lookup_seq in Hj as [-> _]. simpl in Hk. injection Hk as <-. done. }
  split.
  { intros k resp Hk Ho Hret. rewrite Hlen in Hk |- *.
    assert (Hw : wait_after (0 + k) (attempt_outcome w website_url (0 + k))
                 = Some (Qred ((3 # 2) * inject_Z (Z.of_nat k + 1)))).
    { change (0 + k) with k. rewrite Ho. cbn [wait_after]. by rewrite Hret. }
    split.
    - eexists. split.
      + rewrite Hwaits. by apply (sleeps_attempts_trace w website_url 3 0 k).
      + apply Qred_correct.
    - intros Hk2. eapply (retried_attempt w website_url 3 0 k); [done | exact Hw | lia]. }
  split; [exact D|]. split; [exact E|].
  intros r0 r1 Ho0 Hs0 Ho1 Hs1. destruct (D r0 Ho0 Hs0) as [_ H1].
  apply (E 1 r1); [lia | done | done].
Qed.

(** A server that always answers 403, and one that always answers 503. *)
Lemma C8_check_business_website_witness :
  let probe status :=
    Tools.check_business_website (Examples.answering status "Forbidden") "https://example.com"
      (Tools.mkContext "Test Settlement" "Defendant" []) in
  (length (Effects.gets (Effects.events (probe 403%Z))) = 2
   /\ exists f, Effects.run (probe 403%Z) = inr f /\ Schemas.is_error f = true)
  /\ exists q, Effects.sleeps (Effects.events (probe 503%Z)) !! 2 = Some q
                /\ (q == (3 # 2) * inject_Z (Z.of_nat 2 + 1))%Q.
Proof.
  intros probe. split.
  - destruct (C8_check_business_website (Examples.answering 403 "Forbidden") "https://example.com"
                (Tools.mkContext "Test Settlement" "Defendant" []))
      as (f & Hrun & _ & _ & _ & _ & _ & Htwice); [discriminate|].
    destruct (Htwice _ _ eq_refl eq_refl eq_refl eq_refl) as [Hlen Herr].
    split; [exact Hlen|]. exists f. split; [exact Hrun | exact Herr].
  - destruct (C8_check_business_website (Examples.answering 503 "Forbidden") "https://example.com"
                (Tools.mkContext "Test Settlement" "Defendant" []))
      as (f & _ & _ & _ & Hretry & _); [discriminate|].
    apply (Hretry 2 (Effects.mkResponse 503 "Forbidden" (inr Effects.PNotList)));
      [vm_compute; lia | reflexivity | reflexivity].
Defined.

(** ** The search probes *)

Section SearchProbes.
Import Tools Schemas Effects.

(** A [try] whose handler always returns never raises. *)
Lemma try_except_returns {A} (m : M A) (h : exn -> M A) :
  (forall e st, exists a st', h e st = (inr a, st')) ->
  forall st, exists a st', try_except m h st = (inr a, st').
Proof.
  intros Hh st. unfold try_except. destruct (m st) as [[e|a] st']; [apply Hh | eauto].
Qed.

Lemma run_returns {A} (m : M A) :
  (forall st, exists a st', m st = (inr a, st')) -> exists a, run m = inr a.
Proof.
  intros H. destruct (H init) as (a & st' & Hm). exists a. unfold run. by rewrite Hm.
Qed.

Lemma check_business_website_returns (w : world) (website_url : string) (ctx : settlement_context) :
  exists f, run (check_business_website w website_url ctx) = inr f.
Proof.
  destruct (Py.truthy website_url) eqn:Hurl.
  - destruct (check_business_website_spec w website_url ctx Hurl) as (f & Hrun & _). eauto.
  - unfold check_business_website. rewrite Hurl. by eexists.
Qed.

Lemma search_general_context_returns (w : world) (business_name city state : string) :
  exists f, run (search_general_context w business_name city state) = inr f.
Proof.
  apply run_returns, try_except_returns. intros e st.
  destruct (is_instance e ImportError); by eexists _, _.
Qed.

Lemma check_review_presence_returns (w : world) (business_name city state : string) :
  exists f, run (check_review_presence w business_name city state) = inr f.
Proof.
  apply run_returns, try_except_returns. intros e st.
  destruct (is_instance e ImportError); by eexists _, _.
Qed.

Lemma check_wayback_history_returns (w : world) (business_name city website_url : string) :
  exists f, run (check_wayback_history w business_name city website_url) = inr f.
Proof.
  unfold check_wayback_history.
  destruct (negb (Py.truthy website_url)); [by eexists|].
  destruct (negb (Py.truthy (_domain_from_website w website_url))); [by eexists|].
  apply run_returns, try_except_returns. intros e st. by eexists _, _.
Qed.

(** The search raises what the import or the construction of the client
    raises. *)
Lemma ddg_search_import_fails (w : world) (query : string) (n : Z) (attempts : nat)
      (e : exn) (st : state) :
  ddg_import w = Some e ->
  _ddg_search_with_retry w query n attempts st = (inl e, st).
Proof. intros H. unfold _ddg_search_with_retry, bind. by rewrite H. Qed.

Lemma ddg_search_client_fails (w : world) (query : string) (n : Z) (attempts : nat)
      (e : exn) (st : state) :
  ddg_import w = None -> ddg_new w = Some e ->
  _ddg_search_with_retry w query n attempts st = (inl e, st).
Proof. intros H1 H2. unfold _ddg_search_with_retry, bind. by rewrite H1, H2. Qed.

Lemma platform_queries_first (business_name city : string) (ctx : settlement_context) :
  exists q rest, take 2 (platform_queries business_name city ctx) = q :: rest.
Proof.
  unfold platform_queries.
  repeat match goal with |- context [if ?b then _ else _] => destruct b end;
    by eexists _, _.
Qed.

(** When the first search raises [e], the probe returns a Finding if [e] is an
    [ImportError] and raises [e] otherwise. *)
Lemma search_platform_presence_first_raise (w : world) (business_name city : string)
      (ctx : settlement_context) (e : exn) :
  (forall q n attempts st, _ddg_search_with_retry w q n attempts st = (inl e, st)) ->
  run (search_platform_presence w business_name city ctx)
  = if is_instance e ImportError
    then inr (Finding "platform_search" None "duckduckgo-search package not available")
    else inl e.
Proof.
  intros Hfail. unfold search_platform_presence, run.
  destruct (platform_queries_first business_name city ctx) as (q & rest & ->).
  unfold bind at 1. unfold try_except. unfold bind at 1. cbn [platform_search_loop].
  unfold bind at 1. rewrite Hfail.
  by destruct (is_instance e ImportError).
Qed.
End SearchProbes.

(** C9.  [check_business_website], [search_general_context],
    [check_review_presence] and [check_wayback_history] return a Finding in
    every world.  [search_platform_presence] does not: it catches only
    [ImportError], so when building the search client fails it raises, where
    [search_general_context] in the same world returns an error Finding. *)
Theorem C9_search_platform_presence_raises :
  (forall w url ctx, exists f, Effects.run (Tools.check_business_website w url ctx) = inr f)
  /\ (forall w name city state,
        exists f, Effects.run (Tools.search_general_context w name city state) = inr f)
  /\ (forall w name city state,
        exists f, Effects.run (Tools.check_review_presence w name city state) = inr f)
  /\ (forall w name city url,
        exists f, Effects.run (Tools.check_wayback_history w name city url) = inr f)
  /\ Effects.run (Tools.search_platform_presence Examples.broken_search_client
                    "Joe's Pizza" "Wooster" (Tools.mkContext "Test Settlement" "Defendant" []))
     = inl Examples.client_failure
  /\ (exists f,
        Effects.run (Tools.search_general_context Examples.broken_search_client
                       "Joe's Pizza" "Wooster" "OH") = inr f
        /\ Schemas.source f = "general_search" /\ Schemas.is_error f = true).
Proof.
  split; [exact check_business_website_returns|].
  split; [exact search_general_context_returns|].
  split; [exact check_review_presence_returns|].
  split; [exact check_wayback_history_returns|].
  split; [vm_compute; reflexivity|].
  eexists. split; [vm_compute; reflexivity|]. by split.
Qed.

(** C10.  When the import of the search library fails, the general and the
    review probes return an error Finding with a detail, and the platform probe
    returns a Finding that is not an error and has no detail. *)
Theorem C10_search_library_unavailable (w : Effects.world) (business_name city state : string)
        (ctx : Tools.settlement_context) (e : exn) :
  Effects.ddg_import w = Some e ->
  is_instance e ImportError = true ->
  (exists f,
     Effects.run (Tools.search_general_context w business_name city state) = inr f
     /\ Schemas.source f = "general_search"
     /\ Schemas.is_error f = true
     /\ Schemas.error_detail f = Some "duckduckgo-search package not installed")
  /\ (exists f,
        Effects.run (Tools.check_review_presence w business_name city state) = inr f
        /\ Schemas.source f = "review_search"
        /\ Schemas.is_error f = true
        /\ Schemas.error_detail f = Some "duckduckgo-search package not installed")
  /\ (exists f,
        Effects.run (Tools.search_platform_presence w business_name city ctx) = inr f
        /\ Schemas.source f = "platform_search"
        /\ Schemas.is_error f = false
        /\ Schemas.error_detail f = None).
Proof.
  intros Himport Hkind. split; [|split].
  - unfold Tools.search_general_context, Effects.run, Effects.try_except.
    unfold Effects.bind at 1. rewrite (ddg_search_import_fails w _ _ _ e _ Himport).
    rewrite Hkind. by eexists.
  - unfold Tools.check_review_presence, Effects.run, Effects.try_except.
    unfold Effects.bind at 1. rewrite (ddg_search_import_fails w _ _ _ e _ Himport).
    rewrite Hkind. by eexists.
  - rewrite (search_platform_presence_first_raise w business_name city ctx e).
    + rewrite Hkind. by eexists.
    + intros. by apply ddg_search_import_fails.
Qed.

(** The world in which the library is not installed. *)
Lemma C10_search_library_unavailable_witness :
  exists f g,
    Effects.run (Tools.search_general_context Examples.no_search_library "Joe's Pizza" "Wooster" "OH")
    = inr f
    /\ Effects.run (Tools.search_platform_presence Examples.no_search_library "Joe's Pizza" "Wooster"
                      (Tools.mkContext "Test Settlement" "Defendant" []))
       = inr g
    /\ Schemas.is_error f = true /\ Schemas.is_error g = false.
Proof.
  destruct (C10_search_library_unavailable Examples.no_search_library "Joe's Pizza" "Wooster" "OH"
              (Tools.mkContext "Test Settlement" "Defendant" []) Examples.module_not_found
              eq_refl eq_refl)
    as ((f & Hf & _ & Hfe & _) & _ & (g & Hg & _ & Hge & _)).
  exists f, g. repeat split; assumption.
Defined.

(** ** The orchestrator *)

Section Postconditions.
Import Effects.
Context {A B : Type}.

Lemma returns_ret (a : A) (P : A -> Prop) : P a -> returns (ret a) P.
Proof. intros H st a' st' [= <- _]. exact H. Qed.

Lemma returns_raise (e : exn) (P : A -> Prop) : returns (raise e) P.
Proof. intros st a st' [=]. Qed.

Lemma returns_bind (m : M A) (k : A -> M B) (P : B -> Prop) :
  (forall a, returns (k a) P) -> returns (bind m k) P.
Proof.
  intros Hk st b st'. unfold bind. destruct (m st) as [[e|a] st1]; [done|]. apply Hk.
Qed.

Lemma returns_try (m : M A) (h : exn -> M A) (P : A -> Prop) :
  returns m P -> (forall e, returns (h e) P) -> returns (try_except m h) P.
Proof.
  intros Hm Hh st a st'. unfold try_except. destruct (m st) as [[e|a'] st1] eqn:E.
  - apply Hh.
  - intros [= <- _]. by eapply Hm.
Qed.

Lemma returns_run (m : M A) (P : A -> Prop) (a : A) : returns m P -> run m = inr a -> P a.
Proof.
  intros Hm. unfold run. destruct (m init) as [r st'] eqn:E. simpl. intros ->. by eapply Hm.
Qed.
End Postconditions.

Section ProbeSources.
Import Tools Schemas Effects.

Lemma check_business_website_source (w : world) (website_url : string) (ctx : settlement_context) f :
  run (check_business_website w website_url ctx) = inr f -> source f = "business_website".
Proof.
  destruct (Py.truthy website_url) eqn:Hurl.
  - destruct (check_business_website_spec w website_url ctx Hurl) as (f' & Hrun & _ & _ & Hsrc).
    rewrite Hrun. by intros [= <-].
  - unfold check_business_website. rewrite Hurl. by intros [= <-].
Qed.

Lemma search_general_context_source (w : world) (business_name city state : string) f :
  run (search_general_context w business_name city state) = inr f -> source f = "general_search".
Proof.
  apply (returns_run _ (fun f => source f = "general_search")). apply returns_try.
  - apply returns_bind. intros [|h hits]; by apply returns_ret.
  - intros e. destruct (is_instance e ImportError); by apply returns_ret.
Qed.

Lemma check_review_presence_source (w : world) (business_name city state : string) f :
  run (check_review_presence w business_name city state) = inr f -> source f = "review_search".
Proof.
  apply (returns_run _ (fun f => source f = "review_search")). apply returns_try.
  - apply returns_bind. intros [|h hits]; by apply returns_ret.
  - intros e. destruct (is_instance e ImportError); by apply returns_ret.
Qed.

Lemma search_platform_presence_source (w : world) (business_name city : string)
      (ctx : settlement_context) f :
  run (search_platform_presence w business_name city ctx) = inr f -> source f = "platform_search".
Proof.
  apply (returns_run _ (fun f => source f = "platform_search")). unfold search_platform_presence.
  intros st a st'. unfold bind at 1.
  match goal with |- context [try_except ?m ?h st] => destruct (try_except m h st) as [[e|r] st1] eqn:E end;
    [done|].
  assert (Hr : forall g, r = inl g -> source g = "platform_search").
  { revert E. apply (returns_try _ _ (fun r => forall g, r = inl g -> source g = "platform_search")).
    - apply returns_bind. intros l. by apply returns_ret.
    - intros e. destruct (is_instance e ImportError); [|apply returns_raise].
      apply returns_ret. by intros g [= <-]. }
  destruct r as [g|[|x l]]; intros [= <- _]; [by apply Hr | done | done].
Qed.

Lemma check_wayback_history_source (w : world) (business_name city website_url : string) f :
  run (check_wayback_history w business_name city website_url) = inr f ->
  source f = "wayback_archive".
Proof.
  unfold check_wayback_history.
  destruct (negb (Py.truthy website_url)); [by intros [= <-]|].
  destruct (negb (Py.truthy (_domain_from_website w website_url))); [by intros [= <-]|].
  apply (returns_run _ (fun f => source f = "wayback_archive")).
  apply returns_try; [|intros e; by apply returns_ret].
  unfold wayback_lookup. do 3 (apply returns_bind; intros ?).
  match goal with |- returns (match ?p with _ => _ end) _ => destruct p as [|items] end;
    [by apply returns_ret|].
  destruct (length items <=? 1)%nat; [by apply returns_ret|].
  do 2 (apply returns_bind; intros ?).
  match goal with |- returns (match ?l with _ => _ end) _ => destruct l end;
    apply returns_ret; [done|].
  unfold summarize_samples. cbv zeta.
  match goal with |- context [first_match_of ?l] => destruct (first_match_of l) end; done.
Qed.
End ProbeSources.

Section Orchestrator.
Import Schemas Agent.

Lemma run_tasks_raises {T} (aws : list (@Fanout.outcome T)) (schedule : list nat) :
  forall results i e,
    aws !! i = Some (inl e) -> i ∈ schedule ->
    exists e', Fanout.run_tasks aws schedule results = inl e'.
Proof.
  induction schedule as [|idx rest IH]; intros results i e Hi Hin; [by apply elem_of_nil in Hin|].
  simpl. destruct (aws !! idx) as [[e'|v]|] eqn:Hidx; [by eexists| |].
  - apply elem_of_cons in Hin as [->|Hin]; [congruence | by eapply IH].
  - apply elem_of_cons in Hin as [->|Hin]; [congruence | by eapply IH].
Qed.

(** A fan-out that returns a list has run tasks that all returned. *)
Lemma gather_with_limit_returned {T} (ws : list (exn + T)) (schedule : list nat) (l : list T) :
  schedule ≡ₚ seq 0 (length ws) ->
  Fanout.gather_with_limit ((fun r => match r with inl e => inl e | inr x => inr (Some x) end) <$> ws)
    4 schedule = inr l ->
  ws = inr <$> l.
Proof.
  intros Hperm Hrun.
  set (aws := (fun r => match r with inl e => inl e | inr x => inr (Some x) end) <$> ws) in *.
  assert (Hall : forall i r, ws !! i = Some r -> exists x, r = inr x).
  { intros i [e|x] Hi; [|by eexists]. exfalso.
    unfold Fanout.gather_with_limit in Hrun.
    change (4 <? 1)%Z with false in Hrun. cbv iota zeta in Hrun.
    destruct (run_tasks_raises aws schedule (replicate (length aws) None) i e) as [e' He'].
    - subst aws. by rewrite list_lookup_fmap, Hi.
    - rewrite Hperm. apply elem_of_seq. apply lookup_lt_Some in Hi. lia.
    - match type of Hrun with
      | match ?x with _ => _ end = _ =>
          replace x with (@inl exn (list (@Fanout.slot T)) e') in Hrun by (symmetry; exact He')
      end.
      discriminate Hrun. }
  assert (Hws : exists xs, ws = inr <$> xs).
  { clear -Hall. induction ws as [|r ws IH]; [by exists []|].
    destruct (Hall 0 r eq_refl) as [x ->].
    destruct IH as [xs ->]; [intros i r Hi; by apply (Hall (S i))|].
    by exists (x :: xs). }
  destruct Hws as [xs ->].
  assert (Heq : aws = (fun x => inr (Some x)) <$> xs)
    by (subst aws; rewrite <- list_fmap_compose; reflexivity).
  rewrite Heq in Hrun.
  rewrite (gather_with_limit_ordered xs 4 schedule) in Hrun; [by injection Hrun as -> | lia |].
  by rewrite length_fmap in Hperm.
Qed.

Lemma probe_tasks_runs (E : env) (b : business) (s : settlement) :
  exists m0 m1 m2 m3,
    probe_tasks E b s = task <$> [m0; m1; m2; m3]
    /\ (forall f, Effects.run m0 = inr f -> source f = "business_website")
    /\ (forall f, Effects.run m1 = inr f -> source f = "platform_search")
    /\ (forall f, Effects.run m2 = inr f -> source f = "general_search")
    /\ (forall f, Effects.run m3 = inr f -> source f = "review_search").
Proof.
  eexists _, _, _, _. split; [reflexivity|]. split; [|split; [|split]]; intros f.
  - apply check_business_website_source.
  - apply search_platform_presence_source.
  - apply search_general_context_source.
  - apply check_review_presence_source.
Qed.

Lemma verify_pipeline_raises (E : env) (b : business) (s : settlement) (c : option Llm.client)
      (e : exn) :
  verify_pipeline E b s c = inl e <-> raised_in_pipeline E b s c e.
Proof.
  unfold verify_pipeline, Llm.bind_sum. split.
  - destruct (Fanout.gather_with_limit _ _ _) as [e1|findings] eqn:Hg.
    { intros [= ->]. by apply fanout_raised. }
    destruct (resolve_client E c) as [e2|cl] eqn:Hc.
    { intros [= ->]. by eapply client_raised. }
    destruct (Llm.ainvoke_pydantic _ _ _) as [e3|v] eqn:Hv; [|done].
    intros [= ->]. by eapply response_parsing_raised.
  - intros [Hg|findings Hg Hc|findings cl Hg Hc Hcall|findings cl Hg Hc Hv]; rewrite Hg; try done.
    + by rewrite Hc.
    + rewrite Hc. unfold Llm.ainvoke_pydantic, Llm.ainvoke_json, Llm.bind_sum. by rewrite Hcall.
    + by rewrite Hc, Hv.
Qed.
End Orchestrator.

(** C2.  [verify_candidate] always returns a result.  When an exception is
    raised in the pipeline, the result is the fallback: verdict "unlikely",
    confidence 0, no evidence, the error in the reasoning, and the four probe
    names. *)
Theorem C2_verify_candidate_never_raises (E : Agent.env) (b : Agent.business)
        (s : Agent.settlement) (c : option Llm.client) :
  exists r,
    Agent.verify_candidate E b s c = inr r
    /\ forall e, raised_in_pipeline E b s c e ->
         Schemas.verdict r = "unlikely"
         /\ Schemas.confidence r = 0%Z
         /\ Schemas.evidence r = []
         /\ Schemas.reasoning r = "Verification failed: " +:+ exn_msg e
         /\ Schemas.checks_performed r
            = ["business_website"; "platform_search"; "general_search"; "review_search"].
Proof.
  unfold Agent.verify_candidate.
  destruct (Agent.verify_pipeline E b s c) as [e0|r] eqn:Hp.
  - eexists. split; [reflexivity|]. intros e He.
    apply verify_pipeline_raises in He. rewrite Hp in He. injection He as ->. by repeat split.
  - exists r. split; [reflexivity|]. intros e He.
    apply verify_pipeline_raises in He. congruence.
Qed.

(** The reasoning collaborator is out of quota. *)
Lemma C2_verify_candidate_never_raises_witness :
  exists r,
    Agent.verify_candidate Examples.offline Examples.candidate Examples.lawsuit
      (Some Examples.client_down) = inr r
    /\ Schemas.confidence r = 0%Z
    /\ Schemas.reasoning r = "Verification failed: quota exceeded".
Proof.
  destruct (C2_verify_candidate_never_raises Examples.offline Examples.candidate Examples.lawsuit
              (Some Examples.client_down)) as (r & Hr & Hfail).
  exists r. split; [exact Hr|].
  destruct (Hfail Examples.quota_error) as (_ & Hc & _ & Hreason & _).
  - eapply reasoning_call_raised; [vm_compute; reflexivity | reflexivity | reflexivity].
  - split; [exact Hc | exact Hreason].
Defined.

(** C3, as the code has it.  The fan-out of [verify_candidate] runs four
    probes: the website fetch and the platform, general and review searches.
    When it completes, the collected Findings are theirs, in that order; none
    comes from the archive probe, which is not among the tasks. *)
Theorem C3_fanout_runs_four_probes (E : Agent.env) (b : Agent.business) (s : Agent.settlement)
        (findings : list Schemas.SubAgentFinding) :
  Agent.schedule E ≡ₚ seq 0 4 ->
  Fanout.gather_with_limit (Agent.probe_tasks E b s) 4 (Agent.schedule E) = inr findings ->
  length (Agent.probe_tasks E b s) = 4
  /\ Schemas.source <$> findings
     = ["business_website"; "platform_search"; "general_search"; "review_search"]
  /\ (forall f, f ∈ findings -> Schemas.source f <> "wayback_archive")
  /\ (forall c r, Agent.verify_candidate E b s c = inr r ->
        Schemas.evidence r = findings \/ Schemas.evidence r = []).
Proof.
  intros Hperm Hg.
  destruct (probe_tasks_runs E b s) as (m0 & m1 & m2 & m3 & Htasks & H0 & H1 & H2 & H3).
  assert (Hsrc : Schemas.source <$> findings
                 = ["business_website"; "platform_search"; "general_search"; "review_search"]).
  { rewrite Htasks in Hg.
    assert (Hws : Effects.run <$> [m0; m1; m2; m3] = inr <$> findings).
    { apply (gather_with_limit_returned _ (Agent.schedule E)); [done|].
      by rewrite <- list_fmap_compose. }
    destruct findings as [|f0 [|f1 [|f2 [|f3 [|]]]]]; try discriminate Hws.
    injection Hws as E0 E1 E2 E3. simpl.
    by rewrite (H0 _ E0), (H1 _ E1), (H2 _ E2), (H3 _ E3). }
  split; [by rewrite Htasks|]. split; [exact Hsrc|]. split.
  - intros f Hf Hw.
    assert (Hin : Schemas.source f ∈ Schemas.source <$> findings) by (by apply list_elem_of_fmap_2).
    rewrite Hsrc, Hw in Hin. set_unfold. intuition discriminate.
  - intros c r. unfold Agent.verify_candidate, Agent.verify_pipeline, Llm.bind_sum.
    rewrite Hg. destruct (Agent.resolve_client E c); [intros [= <-]; by right|].
    destruct (Llm.ainvoke_pydantic _ _ _); intros [= <-]; [by right | by left].
Qed.

(** The candidate of the examples, whose four probes complete in reverse order. *)
Lemma C3_fanout_runs_four_probes_witness :
  exists findings,
    Fanout.gather_with_limit
      (Agent.probe_tasks Examples.offline Examples.candidate Examples.lawsuit) 4 [3; 2; 1; 0]
    = inr findings
    /\ Schemas.source <$> findings
       = ["business_website"; "platform_search"; "general_search"; "review_search"].
Proof.
  eexists. split; [vm_compute; reflexivity|].
  eapply (C3_fanout_runs_four_probes Examples.offline Examples.candidate Examples.lawsuit).
  - symmetry. apply (Permutation_rev [0; 1; 2; 3]).
  - vm_compute. reflexivity.
Defined.

(** C3 as stated fails: for this candidate the pipeline succeeds, and no
    collected Finding comes from the archive probe. *)
Lemma C3_archive_probe_not_run :
  exists r,
    Agent.verify_candidate Examples.offline Examples.candidate Examples.lawsuit None = inr r
    /\ length (Schemas.evidence r) = 4
    /\ ~ exists f, f ∈ Schemas.evidence r /\ Schemas.source f = "wayback_archive".
Proof.
  eexists. split; [vm_compute; reflexivity|]. split; [reflexivity|].
  intros (f & Hf & Hsrc). cbn [Schemas.evidence] in Hf.
  set_unfold. destruct Hf as [->|[->|[->|[->|[]]]]]; discriminate Hsrc.
Qed.

(** C4.  The claim bounds the confidence of every result by 0 and 100.  The
    fallback result has confidence 0, but a decoded reply keeps the number the
    collaborator wrote: the reply with a confidence of 150 is accepted, by
    [ainvoke_pydantic] and by [verify_candidate], with confidence 150. *)
Theorem C4_confidence_not_bounded (json_loads : string -> exn + Llm.json) (prompt : string) :
  json_loads Examples.reply_150 = inr Examples.object_150 ->
  (forall e, Schemas.confidence (Agent.fallback e) = 0%Z)
  /\ (exists r,
        Llm.ainvoke_pydantic Examples.client_150 json_loads prompt = inr r
        /\ Schemas.verdict r = "likely"
        /\ Schemas.confidence r = 150%Z
        /\ ~ (0 <= Schemas.confidence r <= 100)%Z)
  /\ (exists r,
        Agent.verify_candidate Examples.offline Examples.candidate Examples.lawsuit None = inr r
        /\ Schemas.confidence r = 150%Z).
Proof.
  intros Hloads. split; [done|]. split.
  - unfold Llm.ainvoke_pydantic, Llm.ainvoke_json, Llm.bind_sum, Examples.client_150.
    replace (Llm._strip_code_fences Examples.reply_150) with Examples.reply_150
      by (vm_compute; reflexivity).
    rewrite Hloads. eexists. split; [vm_compute; reflexivity|].
    split; [reflexivity|]. split; [reflexivity|]. simpl. lia.
  - eexists. split; [vm_compute; reflexivity | reflexivity].
Qed.

(** The decoder of the examples. *)
Lemma C4_confidence_not_bounded_witness :
  exists r,
    Llm.ainvoke_pydantic Examples.client_150 Examples.loads_150 "prompt" = inr r
    /\ Schemas.confidence r = 150%Z.
Proof.
  destruct (C4_confidence_not_bounded Examples.loads_150 "prompt" eq_refl)
    as (_ & (r & Hr & _ & Hc & _) & _).
  exists r. split; [exact Hr | exact Hc].
Defined.

(** * Further properties *)

(** ** Fan-out: what is returned, and what is raised *)

Section FanoutMore.
Context {T : Type}.

Lemma gather_with_limit_not_none (vs : list (option T)) (concurrency : Z) (schedule : list nat) :
  (1 <= concurrency)%Z ->
  schedule ≡ₚ seq 0 (length vs) ->
  Fanout.gather_with_limit (inr <$> vs) concurrency schedule = inr (omap id vs).
Proof.
  intros Hc Hperm. unfold Fanout.gather_with_limit.
  destruct (concurrency <? 1)%Z eqn:Hlt; [lia|]. rewrite length_fmap.
  destruct (run_tasks_slots vs schedule (replicate (length vs) None))
    as (r' & Hrun & Hl & Hlook); [by rewrite length_replicate|].
  match goal with |- context [Fanout.run_tasks ?a ?b ?c] =>
    replace (Fanout.run_tasks a b c) with (@inr exn (list (@Fanout.slot T)) r')
      by (symmetry; exact Hrun)
  end.
  f_equal. unfold Fanout.not_none. f_equal.
  apply list_eq. intros i. rewrite Hlook.
  destruct (decide (i ∈ schedule)) as [|Hnin]; [done|].
  assert (length vs <= i).
  { destruct (decide (i < length vs)) as [Hlt'|]; [|lia].
    exfalso. apply Hnin. rewrite Hperm. apply elem_of_seq. lia. }
  etrans; [by apply lookup_replicate_None|]. symmetry. by apply lookup_ge_None.
Qed.

Lemma run_tasks_raised (aws : list (@Fanout.outcome T)) (schedule : list nat) :
  forall results e,
    Fanout.run_tasks aws schedule results = inl e ->
    exists i, i ∈ schedule /\ aws !! i = Some (inl e).
Proof.
  induction schedule as [|idx rest IH]; intros results e; simpl; [done|].
  destruct (aws !! idx) as [[e'|v]|] eqn:Hidx.
  - intros [= ->]. exists idx. split; [left | done].
  - intros H. destruct (IH _ _ H) as (i & Hi & Hl). exists i. split; [by right | done].
  - intros H. destruct (IH _ _ H) as (i & Hi & Hl). exists i. split; [by right | done].
Qed.

Lemma omap_id_all_some (vs : list (option T)) :
  Forall is_Some vs -> Forall2 (fun v r => v = Some r) vs (omap id vs).
Proof. induction 1 as [|v vs' [r ->] _ IH]; simpl; by constructor. Qed.
End FanoutMore.

(** X1.  When every operation returns, [gather_with_limit] returns the
    results that are not [None], in input order, whatever the order in which
    the operations complete. *)
Theorem X1_gather_returns_results_in_order {T : Type} (vs : list (option T)) (concurrency : Z)
        (schedule : list nat) :
  (1 <= concurrency)%Z ->
  schedule ≡ₚ seq 0 (length vs) ->
  Fanout.gather_with_limit (inr <$> vs) concurrency schedule = inr (omap id vs)
  /\ (Forall is_Some vs ->
      Forall2 (fun v r => v = Some r) vs (omap id vs)).
Proof.
  intros Hc Hperm. split; [by apply gather_with_limit_not_none | apply omap_id_all_some].
Qed.

Lemma X1_gather_returns_results_in_order_witness :
  Fanout.gather_with_limit [inr (Some 7); inr None; inr (Some 9); inr (Some 8)] 2 [2; 0; 3; 1]
  = inr [7; 9; 8].
Proof.
  apply (X1_gather_returns_results_in_order [Some 7; None; Some 9; Some 8] 2 [2; 0; 3; 1]).
  - lia.
  - apply (NoDup_Permutation [2; 0; 3; 1] [0; 1; 2; 3]); [| |by intros x; set_unfold; lia];
      repeat (apply NoDup_cons; split; [set_unfold; lia|]); apply NoDup_nil; exact I.
Defined.

Lemma map_with_limit_not_none {U T : Type} (items : list U) (f : U -> option T)
      (concurrency : Z) (delay_s : Q) (schedule : list nat) :
  (1 <= concurrency)%Z ->
  schedule ≡ₚ seq 0 (length items) ->
  Fanout.map_with_limit items (fun x => inr (f x)) concurrency delay_s schedule
  = inr (omap f items).
Proof.
  intros Hc Hperm.
  pose proof (gather_with_limit_not_none (f <$> items) concurrency schedule Hc) as H.
  rewrite length_fmap in H. specialize (H Hperm).
  unfold Fanout.gather_with_limit in H. rewrite !length_fmap in H.
  unfold Fanout.map_with_limit.
  replace ((fun x => inr (f x)) <$> items) with (@inr exn (option T) <$> (f <$> items))
    by (rewrite <- list_fmap_compose; reflexivity).
  etrans; [exact H|]. f_equal. clear. induction items as [|x l IH]; [done|].
  rewrite fmap_cons. cbn [omap list_omap]. destruct (f x); cbn; by f_equal.
Qed.


(** X2.  When the worker returns on every item, [map_with_limit] returns the
    workers' results that are not [None], in the order of the items, whatever
    the completion order and the delay. *)
Theorem X2_map_returns_results_in_order {U T : Type} (items : list U) (f : U -> option T)
        (concurrency : Z) (delay_s : Q) (schedule : list nat) :
  (1 <= concurrency)%Z ->
  schedule ≡ₚ seq 0 (length items) ->
  Fanout.map_with_limit items (fun x => inr (f x)) concurrency delay_s schedule
  = inr (omap f items).
Proof. apply map_with_limit_not_none. Qed.

Lemma X2_map_returns_results_in_order_witness :
  Fanout.map_with_limit [1; 2; 3] (fun x => inr (Some (x * 10))) 1 (1 # 2) [2; 1; 0]
  = inr [10; 20; 30].
Proof.
  apply (X2_map_returns_results_in_order [1; 2; 3] (fun x => Some (x * 10)) 1 (1 # 2) [2; 1; 0]).
  - lia.
  - symmetry. apply (Permutation_rev [0; 1; 2]).
Defined.

(** X3.  When some operation raises, the fan-out returns no list: it raises
    the exception of one of its operations. *)
Theorem X3_gather_propagates_exception {T : Type} (aws : list (@Fanout.outcome T))
        (concurrency : Z) (schedule : list nat) (i : nat) (e : exn) :
  (1 <= concurrency)%Z ->
  schedule ≡ₚ seq 0 (length aws) ->
  aws !! i = Some (inl e) ->
  exists j e', Fanout.gather_with_limit aws concurrency schedule = inl e'
               /\ aws !! j = Some (inl e').
Proof.
  intros Hc Hperm Hi. unfold Fanout.gather_with_limit.
  destruct (concurrency <? 1)%Z eqn:Hlt; [lia|].
  destruct (run_tasks_raises aws schedule (replicate (length aws) None) i e Hi) as [e' He'].
  { rewrite Hperm. apply elem_of_seq. apply lookup_lt_Some in Hi.
    unfold Fanout.outcome, Fanout.slot in *. lia. }
  destruct (run_tasks_raised aws schedule _ _ He') as (j & _ & Hj).
  exists j, e'. split; [|done].
  match goal with |- context [Fanout.run_tasks ?a ?b ?c] =>
    replace (Fanout.run_tasks a b c) with (@inl exn (list (@Fanout.slot T)) e') by (symmetry; exact He')
  end. done.
Qed.

Lemma X3_gather_propagates_exception_witness :
  exists j e',
    Fanout.gather_with_limit [inr (Some 1); inl Examples.client_failure; inr (Some 3)] 3 [2; 1; 0]
    = inl e'
    /\ [inr (Some 1); inl Examples.client_failure; inr (Some 3)] !! j
       = Some (@inl exn (option nat) e').
Proof.
  apply (X3_gather_propagates_exception _ 3 [2; 1; 0] 1 Examples.client_failure).
  - lia.
  - symmetry. apply (Permutation_rev [0; 1; 2]).
  - reflexivity.
Defined.

(** X4.  With a concurrency below 1 both variants raise the same
    [ValueError], whatever the operations are. *)
Theorem X4_invalid_concurrency {U T : Type} (aws : list (@Fanout.outcome T)) (items : list U)
        (worker : U -> @Fanout.outcome T) (concurrency : Z) (delay_s : Q)
        (schedule schedule' : list nat) :
  (concurrency < 1)%Z ->
  Fanout.gather_with_limit aws concurrency schedule
  = inl (Exn ValueError "ValueError" "concurrency must be >= 1")
  /\ Fanout.map_with_limit items worker concurrency delay_s schedule'
     = inl (Exn ValueError "ValueError" "concurrency must be >= 1").
Proof.
  intros H. unfold Fanout.gather_with_limit, Fanout.map_with_limit.
  destruct (concurrency <? 1)%Z eqn:E; [done | lia].
Qed.

Lemma X4_invalid_concurrency_witness :
  Fanout.gather_with_limit [inr (Some 1)] 0 [0]
  = inl (Exn ValueError "ValueError" "concurrency must be >= 1")
  /\ Fanout.map_with_limit [1] (fun x => inr (Some x)) 0 0 [0]
     = inl (Exn ValueError "ValueError" "concurrency must be >= 1").
Proof.
  apply (X4_invalid_concurrency [inr (Some 1)] [1] (fun x => inr (Some x)) 0 0 [0] [0]).
  lia.
Defined.

(** ** Strings *)

Lemma string_app_cons (c : ascii) (s t : string) : String c s +:+ t = String c (s +:+ t).
Proof. reflexivity. Qed.

Lemma string_app_nil_l (s : string) : EmptyString +:+ s = s.
Proof. reflexivity. Qed.

Lemma string_app_nil_r (s : string) : s +:+ EmptyString = s.
Proof. induction s as [|c s IH]; [done|]. by rewrite string_app_cons, IH. Qed.

Lemma string_app_assoc (a b c : string) : (a +:+ b) +:+ c = a +:+ (b +:+ c).
Proof. induction a as [|x a IH]; [done|]. by rewrite !string_app_cons, IH. Qed.

Lemma string_length_app (a b : string) :
  String.length (a +:+ b) = String.length a + String.length b.
Proof. induction a as [|x a IH]; [done|]. rewrite string_app_cons. simpl. by rewrite IH. Qed.

Lemma take_str_length (n : nat) (s : string) : String.length (Py.take_str n s) <= n.
Proof.
  unfold Py.take_str. revert s. induction n as [|n IH]; intros [|c s]; simpl; try lia.
  specialize (IH s). lia.
Qed.

Lemma take_str_short (n : nat) (s : string) : String.length s <= n -> Py.take_str n s = s.
Proof.
  unfold Py.take_str. revert s. induction n as [|n IH]; intros [|c s]; simpl; try done; try lia.
  intros H. rewrite IH; [done | lia].
Qed.

Lemma rstrip_app (a b : string) :
  b <> EmptyString -> Py.rstrip b = b -> Py.rstrip (a +:+ b) = a +:+ b.
Proof.
  intros Hb Hr. induction a as [|c a IH]; [done|].
  rewrite string_app_cons. simpl. rewrite IH. destruct (a +:+ b) eqn:E; [|done].
  destruct a; [by subst | discriminate].
Qed.

Lemma join_cons (sep x : string) (l : list string) :
  l <> [] -> Py.join sep (x :: l) = x +:+ sep +:+ Py.join sep l.
Proof. by destruct l. Qed.

(** *** Splitting at a character and joining again *)

Section SplitJoin.
Context (sep : ascii).

Lemma split_on_aux_nonempty (cur s : string) : Py.split_on_aux sep cur s <> [].
Proof.
  revert cur. induction s as [|c s IH]; intros cur; simpl; [done|].
  destruct (Ascii.eqb c sep); [done | apply IH].
Qed.

Lemma split_on_aux_no_sep (cur s : string) :
  Shapes.has_char sep s = false -> Py.split_on_aux sep cur s = [cur +:+ s].
Proof.
  revert cur. induction s as [|c s IH]; intros cur; simpl.
  - by rewrite string_app_nil_r.
  - destruct (Ascii.eqb c sep); [done|]. simpl. intros H.
    rewrite IH by done. by rewrite string_app_assoc.
Qed.

Lemma split_on_aux_app (cur s t : string) :
  Py.split_on_aux sep cur (s +:+ String sep t)
  = Py.split_on_aux sep cur s ++ Py.split_on_aux sep EmptyString t.
Proof.
  revert cur. induction s as [|c s IH]; intros cur; rewrite ?string_app_cons; simpl.
  - by rewrite Ascii.eqb_refl.
  - destruct (Ascii.eqb c sep); [by rewrite IH | apply IH].
Qed.

Lemma join_split_on_aux (cur s : string) :
  Py.join (String sep EmptyString) (Py.split_on_aux sep cur s) = cur +:+ s.
Proof.
  revert cur. induction s as [|c s IH]; intros cur; cbn [Py.split_on_aux].
  - simpl. by rewrite string_app_nil_r.
  - destruct (Ascii.eqb c sep) eqn:Hc.
    + apply Ascii.eqb_eq in Hc. subst c.
      rewrite join_cons by apply split_on_aux_nonempty. by rewrite IH.
    + rewrite IH. by rewrite string_app_assoc.
Qed.
End SplitJoin.

(** ** Decoding the reply of the reasoning collaborator *)

Section Replies.
Import Llm Schemas.

Lemma has_char_app (sep : ascii) (a b : string) :
  Shapes.has_char sep (a +:+ b) = Shapes.has_char sep a || Shapes.has_char sep b.
Proof.
  induction a as [|c a IH]; [done|]. rewrite string_app_cons. simpl.
  by rewrite IH, orb_assoc.
Qed.

Lemma strip_fenced (inner : string) :
  Py.strip (fence +:+ inner +:+ fence) = fence +:+ inner +:+ fence.
Proof.
  unfold Py.strip. replace (Py.lstrip (fence +:+ inner +:+ fence)) with (fence +:+ inner +:+ fence)
    by reflexivity.
  rewrite <- string_app_assoc. by apply rstrip_app.
Qed.

Lemma removelast_snoc {A} (l : list A) (x : A) : removelast (l ++ [x]) = l.
Proof. apply removelast_last. Qed.

Lemma drop_nulls_lookup (data : gmap string json) (k : string) :
  drop_nulls data !! k
  = match data !! k with
    | Some JNull => None
    | o => o
    end.
Proof.
  unfold drop_nulls. rewrite lookup_omap. destruct (data !! k) as [[]|]; done.
Qed.
End Replies.

(** X5.  A reply without code fences is parsed as it is, stripped of white
    space around it.  A reply inside a fenced block, whatever the language tag
    on the opening fence, is parsed as the body of the block, stripped of white
    space around it. *)
Theorem X5_strip_code_fences (text lang body : string) :
  (Py.startswith Llm.fence (Py.strip text) = false ->
   Llm._strip_code_fences text = Py.strip text)
  /\ (Shapes.has_char (ascii_of_nat 10) lang = false ->
      Llm._strip_code_fences (Llm.fence +:+ lang +:+ Py.nl +:+ body +:+ Py.nl +:+ Llm.fence)
      = Py.strip body).
Proof.
  split.
  - intros H. unfold Llm._strip_code_fences. by rewrite H.
  - intros Hlang. unfold Llm._strip_code_fences.
    replace (Llm.fence +:+ lang +:+ Py.nl +:+ body +:+ Py.nl +:+ Llm.fence)
      with (Llm.fence +:+ (lang +:+ Py.nl +:+ body +:+ Py.nl) +:+ Llm.fence)
      by (by rewrite !string_app_assoc).
    rewrite strip_fenced.
    replace (Py.startswith Llm.fence (Llm.fence +:+ (lang +:+ Py.nl +:+ body +:+ Py.nl) +:+ Llm.fence))
      with true by reflexivity.
    cbn [negb]. unfold Py.split_on.
    replace (Llm.fence +:+ (lang +:+ Py.nl +:+ body +:+ Py.nl) +:+ Llm.fence)
      with ((Llm.fence +:+ lang) +:+ String (ascii_of_nat 10)
              (body +:+ String (ascii_of_nat 10) Llm.fence))
      by (unfold Py.nl; rewrite !string_app_assoc; reflexivity).
    rewrite !split_on_aux_app.
    rewrite (split_on_aux_no_sep _ EmptyString (Llm.fence +:+ lang))
      by (rewrite has_char_app, Hlang; reflexivity).
    pose proof (split_on_aux_nonempty (ascii_of_nat 10) EmptyString body) as Hne.
    pose proof (join_split_on_aux (ascii_of_nat 10) EmptyString body) as Hjoin.
    destruct (Py.split_on_aux (ascii_of_nat 10) EmptyString body) as [|l0 ls] eqn:Hsplit; [done|].
    replace (Py.split_on_aux (ascii_of_nat 10) EmptyString Llm.fence) with [Llm.fence]
      by reflexivity.
    replace (3 <=? length ([EmptyString +:+ Llm.fence +:+ lang] ++ (l0 :: ls) ++ [Llm.fence]))%nat
      with true by (symmetry; apply Nat.leb_le; rewrite !length_app; simpl; lia).
    replace (tail ([EmptyString +:+ Llm.fence +:+ lang] ++ (l0 :: ls) ++ [Llm.fence]))
      with ((l0 :: ls) ++ [Llm.fence]) by reflexivity.
    rewrite removelast_snoc. unfold Py.nl. by rewrite Hjoin.
Qed.

Lemma X5_strip_code_fences_witness :
  Llm._strip_code_fences ("  " +:+ Examples.reply_150 +:+ Py.nl) = Examples.reply_150
  /\ Llm._strip_code_fences
       (Llm.fence +:+ "json" +:+ Py.nl +:+ Examples.reply_150 +:+ Py.nl +:+ Llm.fence)
     = Examples.reply_150.
Proof.
  destruct (X5_strip_code_fences ("  " +:+ Examples.reply_150 +:+ Py.nl) "json" Examples.reply_150)
    as [H1 H2].
  split.
  - rewrite H1; reflexivity.
  - rewrite H2; reflexivity.
Defined.

(** X6.  Fields that the reply leaves out or gives as [null] take the
    defaults of the model: a reply with a verdict only is decoded with
    confidence 50, no chain flag, no evidence, no reasoning. *)
Theorem X6_null_fields_take_defaults (llm_client : Llm.client)
        (json_loads : string -> exn + Llm.json) (prompt text v : string)
        (members : list (string * Llm.json)) :
  llm_client prompt = inr text ->
  json_loads (Llm._strip_code_fences text) = inr (Llm.JObj members) ->
  Llm.dict_of members !! "verdict" = Some (Llm.JStr v) ->
  (forall k, k <> "verdict" ->
     Llm.dict_of members !! k = None \/ Llm.dict_of members !! k = Some Llm.JNull) ->
  Llm.ainvoke_pydantic llm_client json_loads prompt
  = inr (Schemas.mkResult v 50 false None [] EmptyString []).
Proof.
  intros Hcall Hloads Hv Hrest.
  unfold Llm.ainvoke_pydantic, Llm.ainvoke_json, Llm.bind_sum. rewrite Hcall, Hloads.
  assert (Hnone : forall k, k <> "verdict" -> Llm.drop_nulls (Llm.dict_of members) !! k = None).
  { intros k Hk. rewrite drop_nulls_lookup. by destruct (Hrest k Hk) as [-> | ->]. }
  unfold Llm.make_VerificationResult, Llm.required, Llm.optional, Llm.bind_sum.
  rewrite drop_nulls_lookup, Hv. cbn [Llm.as_str].
  rewrite !Hnone by done. reflexivity.
Qed.

Lemma X6_null_fields_take_defaults_witness :
  Llm.ainvoke_pydantic (fun _ => inr "reply")
    (fun _ => inr (Llm.JObj [("confidence", Llm.JNull); ("verdict", Llm.JStr "likely");
                             ("reasoning", Llm.JNull)]))
    "prompt"
  = inr (Schemas.mkResult "likely" 50 false None [] EmptyString []).
Proof.
  apply (X6_null_fields_take_defaults _ _ "prompt" "reply" "likely"
           [("confidence", Llm.JNull); ("verdict", Llm.JStr "likely"); ("reasoning", Llm.JNull)]).
  - reflexivity.
  - reflexivity.
  - vm_compute. reflexivity.
  - intros k Hk. unfold Llm.dict_of. simpl.
    destruct (decide (k = "reasoning")) as [->|H1]; [right; vm_compute; reflexivity|].
    destruct (decide (k = "confidence")) as [->|H2]; [right; vm_compute; reflexivity|].
    left. rewrite !lookup_insert_ne by done. apply lookup_empty.
Defined.



(** ** Findings of the probes *)

Section Postconditions2.
Import Effects.
Context {A B : Type}.

Lemma returns_bind_post (m : M A) (k : A -> M B) (Q : A -> Prop) (P : B -> Prop) :
  returns m Q -> (forall a, Q a -> returns (k a) P) -> returns (bind m k) P.
Proof.
  intros Hm Hk st b st'. unfold bind. destruct (m st) as [[e|a] st1] eqn:E; [done|].
  apply Hk. by eapply Hm.
Qed.

Lemma returns_weaken (m : M A) (Q P : A -> Prop) :
  returns m Q -> (forall a, Q a -> P a) -> returns m P.
Proof. intros Hm H st a st' E. apply H. by eapply Hm. Qed.
End Postconditions2.

Section WellFormed.
Import Tools Schemas Effects Shapes.

Ltac wf_done := repeat split; try done; try (by eexists); try (by intros [? [=]]).
Ltac neutral_finding := apply returns_ret; wf_done.

Lemma website_attempt_neutral (w : world) (website_url : string) (k : nat) :
  returns (website_attempt w website_url k)
    (fun t => forall f, t = Return f ->
                neutral "business_website" f /\ url f = Some website_url).
Proof.
  unfold website_attempt. apply returns_try.
  - apply returns_bind. intros resp.
    destruct (in_status_set _ _).
    { apply returns_bind. intros _. by apply returns_ret. }
    destruct (_ && _).
    { apply returns_bind. intros _. by apply returns_ret. }
    apply returns_bind. intros _.
    destruct (_ <? _)%nat; apply returns_ret; intros f [= <-];
      (split; [wf_done | done]).
  - intros e. destruct (_ || _).
    + apply returns_bind. intros _. by apply returns_ret.
    + by apply returns_ret.
Qed.

Lemma website_loop_neutral (w : world) (website_url : string) (todo : list nat) :
  forall last_error,
    returns (website_loop w website_url todo last_error)
      (fun f => neutral "business_website" f /\ url f = Some website_url).
Proof.
  induction todo as [|k rest IH]; intros last_error; simpl.
  - apply returns_ret. split; [|done]. wf_done.
  - eapply returns_bind_post; [apply website_attempt_neutral|].
    intros [f|le|le] Ht; [apply returns_ret; by apply Ht | apply IH |].
    apply returns_ret. split; [|done]. wf_done.
Qed.

Lemma check_business_website_neutral (w : world) (website_url : string) (ctx : settlement_context) :
  returns (check_business_website w website_url ctx) (neutral "business_website").
Proof.
  unfold check_business_website. destruct (negb (Py.truthy website_url)).
  - neutral_finding.
  - eapply returns_weaken; [apply website_loop_neutral|]. by intros f [H _].
Qed.

Lemma search_general_context_neutral (w : world) (business_name city state : string) :
  returns (search_general_context w business_name city state) (neutral "general_search").
Proof.
  apply returns_try.
  - apply returns_bind. intros [|h hits]; neutral_finding.
  - intros e. destruct (is_instance e ImportError);
      (apply returns_ret; wf_done).
Qed.

Lemma check_review_presence_neutral (w : world) (business_name city state : string) :
  returns (check_review_presence w business_name city state) (neutral "review_search").
Proof.
  apply returns_try.
  - apply returns_bind. intros [|h hits]; neutral_finding.
  - intros e. destruct (is_instance e ImportError);
      (apply returns_ret; wf_done).
Qed.

Lemma search_platform_presence_neutral (w : world) (business_name city : string)
      (ctx : settlement_context) :
  returns (search_platform_presence w business_name city ctx) (neutral "platform_search").
Proof.
  unfold search_platform_presence.
  eapply (returns_bind_post _ _ (fun r => forall g, r = inl g -> neutral "platform_search" g)).
  - apply returns_try.
    + apply returns_bind. intros l. by apply returns_ret.
    + intros e. destruct (is_instance e ImportError); [|apply returns_raise].
      apply returns_ret. intros g [= <-]. wf_done.
  - intros [g|[|x l]] Hr; [apply returns_ret; by apply Hr | neutral_finding | neutral_finding].
Qed.

Lemma summarize_samples_well_formed (domain earliest : string) (rs : list sample) :
  well_formed "wayback_archive" (summarize_samples domain earliest rs).
Proof.
  unfold summarize_samples. cbv zeta.
  destruct (first_match_of _); [|wf_done].
  wf_done.
  cbn [supports_eligibility]. by destruct (Qle_bool _ _).
Qed.

Lemma check_wayback_history_well_formed (w : world) (business_name city website_url : string) :
  returns (check_wayback_history w business_name city website_url) (well_formed "wayback_archive").
Proof.
  unfold check_wayback_history.
  destruct (negb (Py.truthy website_url));
    [apply returns_ret; wf_done|].
  destruct (negb (Py.truthy (_domain_from_website w website_url)));
    [apply returns_ret; wf_done|].
  apply returns_try; [|intros e; apply returns_ret; wf_done].
  unfold wayback_lookup. do 3 (apply returns_bind; intros ?).
  match goal with |- returns (match ?p with _ => _ end) _ => destruct p as [|items] end;
    [apply returns_ret; wf_done|].
  destruct (length items <=? 1)%nat;
    [apply returns_ret; wf_done|].
  do 2 (apply returns_bind; intros ?).
  match goal with |- returns (match ?l with _ => _ end) _ => destruct l end;
    apply returns_ret; [wf_done|].
  apply summarize_samples_well_formed.
Qed.
End WellFormed.

(** X8.  Whatever happens outside, a Finding returned by a probe names its
    probe, never contradicts eligibility, and carries an error detail exactly
    when it is flagged as an error.  The Findings of the four orchestrated
    probes are neutral; only the archive probe can support eligibility. *)
Theorem X8_findings_well_formed (w : Effects.world) (business_name city state website_url : string)
        (ctx : Tools.settlement_context) (f : Schemas.SubAgentFinding) :
  (Effects.run (Tools.check_business_website w website_url ctx) = inr f ->
   Shapes.neutral "business_website" f)
  /\ (Effects.run (Tools.search_platform_presence w business_name city ctx) = inr f ->
      Shapes.neutral "platform_search" f)
  /\ (Effects.run (Tools.search_general_context w business_name city state) = inr f ->
      Shapes.neutral "general_search" f)
  /\ (Effects.run (Tools.check_review_presence w business_name city state) = inr f ->
      Shapes.neutral "review_search" f)
  /\ (Effects.run (Tools.check_wayback_history w business_name city website_url) = inr f ->
      Shapes.well_formed "wayback_archive" f).
Proof.
  split; [|split; [|split; [|split]]].
  - apply (returns_run _ (Shapes.neutral "business_website")), check_business_website_neutral.
  - apply (returns_run _ (Shapes.neutral "platform_search")), search_platform_presence_neutral.
  - apply (returns_run _ (Shapes.neutral "general_search")), search_general_context_neutral.
  - apply (returns_run _ (Shapes.neutral "review_search")), check_review_presence_neutral.
  - apply (returns_run _ (Shapes.well_formed "wayback_archive")), check_wayback_history_well_formed.
Qed.

Lemma X8_findings_well_formed_witness :
  Shapes.neutral "general_search"
    (Schemas.ErrorFinding "general_search" None "Search package not available"
       "duckduckgo-search package not installed").
Proof.
  apply (X8_findings_well_formed Examples.no_search_library "Joe's Pizza" "Wooster" "OH"
           "https://example.com" (Tools.mkContext "Test Settlement" "Defendant" [])).
  vm_compute. reflexivity.
Defined.

Section OrchestratorMore.
Import Schemas Agent.

Lemma verify_candidate_returns (E : env) (b : business) (s : settlement) (c : option Llm.client) :
  exists r, verify_candidate E b s c = inr r.
Proof. unfold verify_candidate. destruct (verify_pipeline E b s c); by eexists. Qed.

Lemma probe_tasks_neutral (E : env) (b : business) (s : settlement) :
  exists m0 m1 m2 m3,
    probe_tasks E b s = task <$> [m0; m1; m2; m3]
    /\ returns m0 (Shapes.neutral "business_website")
    /\ returns m1 (Shapes.neutral "platform_search")
    /\ returns m2 (Shapes.neutral "general_search")
    /\ returns m3 (Shapes.neutral "review_search").
Proof.
  eexists _, _, _, _. split; [reflexivity|]. split; [|split; [|split]].
  - apply check_business_website_neutral.
  - apply search_platform_presence_neutral.
  - apply search_general_context_neutral.
  - apply check_review_presence_neutral.
Qed.
End OrchestratorMore.

(** X9.  A result of [verify_candidate] always lists the four probe names.
    Its evidence is either the four Findings of the probes, in the order of the
    names, each well formed and neutral, or empty; it is empty only in the
    fallback result, with verdict "unlikely" and confidence 0. *)
Theorem X9_result_evidence (E : Agent.env) (b : Agent.business) (s : Agent.settlement)
        (c : option Llm.client) (r : Schemas.VerificationResult) :
  Agent.schedule E ≡ₚ seq 0 4 ->
  Agent.verify_candidate E b s c = inr r ->
  Schemas.checks_performed r
  = ["business_website"; "platform_search"; "general_search"; "review_search"]
  /\ (Forall2 Shapes.neutral (Schemas.checks_performed r) (Schemas.evidence r)
      \/ (Schemas.evidence r = [] /\ Schemas.verdict r = "unlikely"
          /\ Schemas.confidence r = 0%Z)).
Proof.
  intros Hperm. unfold Agent.verify_candidate, Agent.verify_pipeline, Llm.bind_sum.
  destruct (Fanout.gather_with_limit _ _ _) as [e|findings] eqn:Hg;
    [intros [= <-]; split; [done | by right]|].
  assert (Hn : Forall2 Shapes.neutral Agent.checks findings).
  { destruct (probe_tasks_neutral E b s) as (m0 & m1 & m2 & m3 & Htasks & H0 & H1 & H2 & H3).
    rewrite Htasks in Hg.
    assert (Hws : Effects.run <$> [m0; m1; m2; m3] = inr <$> findings).
    { apply (gather_with_limit_returned _ (Agent.schedule E)); [done|].
      by rewrite <- list_fmap_compose. }
    destruct findings as [|f0 [|f1 [|f2 [|f3 [|]]]]]; try discriminate Hws.
    injection Hws as E0 E1 E2 E3.
    unfold Agent.checks.
    constructor; [by apply (returns_run _ _ _ H0)|].
    constructor; [by apply (returns_run _ _ _ H1)|].
    constructor; [by apply (returns_run _ _ _ H2)|].
    constructor; [by apply (returns_run _ _ _ H3) | constructor]. }
  destruct (Agent.resolve_client E c); [intros [= <-]; split; [done | by right]|].
  destruct (Llm.ainvoke_pydantic _ _ _); intros [= <-]; (split; [done|]); [by right | by left].
Qed.

Lemma X9_result_evidence_witness :
  exists r,
    Agent.verify_candidate Examples.offline Examples.candidate Examples.lawsuit None = inr r
    /\ Schemas.checks_performed r
       = ["business_website"; "platform_search"; "general_search"; "review_search"].
Proof.
  destruct (verify_candidate_returns Examples.offline Examples.candidate Examples.lawsuit None)
    as [r Hr].
  exists r. split; [exact Hr|].
  apply (X9_result_evidence Examples.offline Examples.candidate Examples.lawsuit None r).
  - symmetry. apply (Permutation_rev [0; 1; 2; 3]).
  - exact Hr.
Defined.

(** X10.  With a valid concurrency and a client at hand, [verify_candidates]
    returns one result for each candidate, in the order of the candidates: the
    result that [verify_candidate] gives for it with the shared client.
    Without a client, a failure to build the default one is raised before any
    candidate is verified. *)
Theorem X10_batch_keeps_every_candidate (default_client : exn + Llm.client)
        (candidates : list Batch.candidate) (concurrency : Z) (c : option Llm.client)
        (schedule : list nat) :
  (1 <= concurrency)%Z ->
  schedule ≡ₚ seq 0 (length candidates) ->
  match (match c with None => default_client | Some cl => inr cl end) with
  | inr llm_client =>
      exists results,
        Batch.verify_candidates default_client candidates concurrency c schedule = inr results
        /\ Forall2 (fun item r =>
                      Agent.verify_candidate item.1 item.2.1 item.2.2 (Some llm_client) = inr r)
                   candidates results
  | inl e => Batch.verify_candidates default_client candidates concurrency c schedule = inl e
  end.
Proof.
  intros Hc Hperm. unfold Batch.verify_candidates, Llm.bind_sum.
  destruct (match c with None => default_client | Some cl => inr cl end) as [e|cl]; [done|].
  set (f := fun item : Batch.candidate =>
              match Agent.verify_candidate item.1 item.2.1 item.2.2 (Some cl) with
              | inr r => Some r
              | inl _ => None
              end).
  assert (Hw : forall item, Batch._worker cl item = inr (f item)).
  { intros [E [b s]]. unfold Batch._worker, f. simpl.
    by destruct (verify_candidate_returns E b s (Some cl)) as [r ->]. }
  exists (omap f candidates). split.
  - rewrite <- (map_with_limit_not_none candidates f concurrency (1 # 2) schedule Hc Hperm).
    unfold Fanout.map_with_limit. destruct (concurrency <? 1)%Z; [done|].
    assert (Hmap : Batch._worker cl <$> candidates = (fun x => inr (f x)) <$> candidates)
      by (apply list_fmap_ext; intros ? item ?; apply Hw).
    by rewrite Hmap.
  - clear. induction candidates as [|[E [b s]] l IH]; simpl; [constructor|].
    unfold f at 1. simpl.
    destruct (verify_candidate_returns E b s (Some cl)) as [r Hr]. rewrite Hr.
    by constructor.
Qed.

Lemma X10_batch_keeps_every_candidate_witness :
  exists results,
    Batch.verify_candidates (inl Examples.quota_error)
      [(Examples.offline, (Examples.candidate, Examples.lawsuit));
       (Examples.offline, (Examples.candidate, Examples.lawsuit))]
      1 (Some Examples.client_down) [0; 1] = inr results
    /\ length results = 2.
Proof.
  pose proof (X10_batch_keeps_every_candidate (inl Examples.quota_error)
                [(Examples.offline, (Examples.candidate, Examples.lawsuit));
                 (Examples.offline, (Examples.candidate, Examples.lawsuit))]
                1 (Some Examples.client_down) [0; 1]) as H.
  destruct H as (results & Hrun & Hall); [lia | reflexivity |].
  exists results. split; [exact Hrun|].
  apply Forall2_length in Hall. by rewrite <- Hall.
Defined.

(** ** The website fetcher: exceptions and success *)

Section WebsiteMore.
Import Tools Schemas Effects.

Lemma success_is_final (k : nat) (resp : response) :
  is_success (status_code resp) = true ->
  wait_after k (inr resp) = None /\ page_read (inr resp) = true.
Proof.
  intros H. unfold is_success in H. apply andb_true_iff in H as [H1 H2].
  apply Z.leb_le in H1, H2. cbn [wait_after page_read]. split.
  - assert (Hset : in_status_set (status_code resp) _RETRYABLE_STATUS = false).
    { unfold in_status_set, _RETRYABLE_STATUS. cbn [existsb].
      rewrite !orb_false_iff. repeat split; try done; apply Z.eqb_neq; lia. }
    rewrite Hset. destruct (Z.eqb_spec (status_code resp) 403) as [Heq|_]; [lia | done].
  - unfold is_success. apply andb_true_iff. split; by apply Z.leb_le.
Qed.

Lemma check_business_website_url (w : world) (website_url : string) (ctx : settlement_context) f :
  Py.truthy website_url = true ->
  run (check_business_website w website_url ctx) = inr f -> url f = Some website_url.
Proof.
  intros Hurl. unfold check_business_website. rewrite Hurl. cbn [negb].
  apply (returns_run _ (fun f => url f = Some website_url)).
  eapply returns_weaken; [apply website_loop_neutral|]. by intros g [_ H].
Qed.

Lemma all_retried (w : world) (website_url : string) (fuel : nat) : forall k,
  (forall j, j < fuel -> wait_after (k + j) (attempt_outcome w website_url (k + j)) <> None) ->
  attempts_made w website_url fuel k = fuel
  /\ fetched w website_url fuel k = false
  /\ length (sleeps (attempts_trace w website_url fuel k)) = fuel.
Proof.
  induction fuel as [|fuel IH]; intros k Hall; simpl; [done|].
  pose proof (Hall 0 ltac:(lia)) as H0. rewrite Nat.add_0_r in H0.
  destruct (wait_after k (attempt_outcome w website_url k)) as [q|]; [|done].
  destruct (IH (S k)) as (H1 & H2 & H3).
  { intros j Hj. replace (S k + j) with (k + S j) by lia. apply Hall. lia. }
  simpl. by rewrite H1, H2, H3.
Qed.
End WebsiteMore.

(** X11.  On a URL that is not empty: a connection error or a timeout is
    followed by the same backoff as a retryable status and by the next attempt
    when one is left; any other exception ends the probe with an error
    Finding; a 2xx reply ends the probe with a Finding that is not an error
    and carries the URL; three attempts that all call for a retry end in an
    error Finding after three waits. *)
Theorem X11_website_exceptions_and_success (w : Effects.world) (website_url : string)
        (ctx : Tools.settlement_context) :
  website_url <> EmptyString ->
  let probe := Tools.check_business_website w website_url ctx in
  let attempts := Effects.gets (Effects.events probe) in
  let waits := Effects.sleeps (Effects.events probe) in
  let outcome := attempt_outcome w website_url in
  exists f,
    Effects.run probe = inr f
    /\ Schemas.url f = Some website_url
    /\ (forall k e,
          k < length attempts -> outcome k = inl e -> retryable_exn e = true ->
          (exists q, waits !! k = Some q /\ (q == (3 # 2) * inject_Z (Z.of_nat k + 1))%Q)
          /\ (k < 2 -> S k < length attempts))
    /\ (forall k e,
          k < length attempts -> outcome k = inl e -> retryable_exn e = false ->
          length attempts = S k /\ Schemas.is_error f = true)
    /\ (forall k resp,
          k < length attempts -> outcome k = inr resp ->
          Effects.is_success (Effects.status_code resp) = true ->
          length attempts = S k /\ Schemas.is_error f = false)
    /\ ((forall k, k < 3 -> wait_after k (outcome k) <> None) ->
        length attempts = 3 /\ length waits = 3 /\ Schemas.is_error f = true).
Proof.
  intros Hurl probe attempts waits outcome. unfold outcome. clear outcome.
  assert (Htruthy : Py.truthy website_url = true) by (by destruct website_url).
  destruct (check_business_website_spec w website_url ctx Htruthy)
    as (f & Hrun & Hev & Herr & _).
  exists f. split; [exact Hrun|].
  split; [by apply (check_business_website_url w website_url ctx)|].
  assert (Hlen : length attempts = attempts_made w website_url 3 0).
  { subst attempts probe. by rewrite Hev, gets_attempts_trace, length_fmap, length_seq. }
  assert (Hwaits : waits = Effects.sleeps (attempts_trace w website_url 3 0)).
  { subst waits probe. by rewrite Hev. }
  split; [|split; [|split]].
  - intros k e Hk Ho Hret. rewrite Hlen in Hk |- *.
    assert (Hw : wait_after (0 + k) (attempt_outcome w website_url (0 + k))
                 = Some (Qred ((3 # 2) * inject_Z (Z.of_nat k + 1)))).
    { change (0 + k) with k. rewrite Ho. cbn [wait_after]. by rewrite Hret. }
    split.
    + eexists. split.
      * rewrite Hwaits. by apply (sleeps_attempts_trace w website_url 3 0 k).
      * apply Qred_correct.
    + intros Hk2. eapply (retried_attempt w website_url 3 0 k); [done | exact Hw | lia].
  - intros k e Hk Ho Hret. rewrite Hlen in Hk |- *.
    assert (Hw : wait_after (0 + k) (attempt_outcome w website_url (0 + k)) = None).
    { change (0 + k) with k. rewrite Ho. cbn [wait_after]. by rewrite Hret. }
    destruct (final_attempt w website_url 3 0 k Hk Hw) as [Hm Hf].
    split; [done|]. change (0 + k) with k in Hf. by rewrite Herr, Hf, Ho.
  - intros k resp Hk Ho Hok. rewrite Hlen in Hk |- *.
    destruct (success_is_final k resp Hok) as [Hw Hp].
    assert (Hw' : wait_after (0 + k) (attempt_outcome w website_url (0 + k)) = None).
    { change (0 + k) with k. by rewrite Ho. }
    destruct (final_attempt w website_url 3 0 k Hk Hw') as [Hm Hf].
    split; [done|]. change (0 + k) with k in Hf. by rewrite Herr, Hf, Ho, Hp.
  - intros Hall. destruct (all_retried w website_url 3 0) as (H1 & H2 & H3).
    { intros j Hj. change (0 + j) with j. by apply Hall. }
    rewrite Hlen, Hwaits, Herr, H1, H2, H3. done.
Qed.

(** A host that cannot be reached, and a server that answers 200. *)
Lemma X11_website_exceptions_and_success_witness :
  let unreachable :=
    Effects.mkWorld (fun _ _ => inl (Exn ConnectError "ConnectError" "DNS resolution failed"))
      None None (fun _ _ _ => inr []) (fun u => inr u) (fun _ => None) (fun _ => EmptyString) in
  let ctx := Tools.mkContext "Test Settlement" "Defendant" [] in
  (length (Effects.gets (Effects.events
             (Tools.check_business_website unreachable "http://does-not-exist.example" ctx))) = 3
   /\ exists f, Effects.run (Tools.check_business_website unreachable
                               "http://does-not-exist.example" ctx) = inr f
                /\ Schemas.is_error f = true)
  /\ length (Effects.gets (Effects.events
               (Tools.check_business_website (Examples.answering 200 "Welcome")
                  "https://example.com" ctx))) = 1.
Proof.
  intros unreachable ctx. split.
  - destruct (X11_website_exceptions_and_success unreachable "http://does-not-exist.example" ctx)
      as (f & Hrun & _ & _ & _ & _ & Hall); [discriminate|].
    destruct Hall as (Hlen & _ & Herr); [intros k Hk; vm_compute; discriminate|].
    split; [exact Hlen|]. exists f. split; [exact Hrun | exact Herr].
  - destruct (X11_website_exceptions_and_success (Examples.answering 200 "Welcome")
                "https://example.com" ctx)
      as (f & _ & _ & _ & _ & Hok & _); [discriminate|].
    apply (Hok 0 (Effects.mkResponse 200 "Welcome" (inr Effects.PNotList)));
      [vm_compute; lia | reflexivity | reflexivity].
Defined.

(** ** The search helper: retries *)

Section SearchRetry.
Import Tools Effects Shapes.
Context (w : world) (query : string) (max_results : Z) (attempts : nat).

Lemma search_calls_app (l1 l2 : list event) :
  search_calls (l1 ++ l2) = search_calls l1 ++ search_calls l2.
Proof. unfold search_calls. by rewrite omap_app. Qed.

Lemma sleeps_app (l1 l2 : list event) : sleeps (l1 ++ l2) = sleeps l1 ++ sleeps l2.
Proof. unfold sleeps. by rewrite omap_app. Qed.

Lemma gets_app (l1 l2 : list event) : gets (l1 ++ l2) = gets l1 ++ gets l2.
Proof. unfold gets. by rewrite omap_app. Qed.

(** The loop from attempt [k] on, when the next [j] calls fail and the call
    after them, if one is left, returns [res]. *)
Lemma ddg_attempts_run (res : list hit) : forall len k st j,
  k + len = attempts -> j <= len ->
  (forall i, i < j -> exists e, ddg_text w (searches st + i) query max_results = inl e) ->
  (j < len -> ddg_text w (searches st + j) query max_results = inr res) ->
  (j = len -> res = []) ->
  exists evs,
    ddg_attempts w query max_results attempts (seq k len) st
    = (inr res, mkState (requests st) (searches st + Nat.min (S j) len) (trace st ++ evs))
    /\ search_calls evs = replicate (Nat.min (S j) len) (query, max_results)
    /\ sleeps evs = replicate (Nat.min j (len - 1)) 2%Q
    /\ gets evs = [].
Proof.
  induction len as [|len IH]; intros k st j Hk Hj Hfail Hok Hnone.
  - assert (j = 0) as -> by lia. rewrite (Hnone eq_refl). exists []. simpl.
    rewrite Nat.add_0_r, app_nil_r. by destruct st.
  - cbn [seq ddg_attempts]. unfold try_except, ddg_call. destruct j as [|j].
    + pose proof (Hok ltac:(lia)) as Hres. rewrite Nat.add_0_r in Hres. rewrite Hres.
      exists [EvSearch query max_results]. simpl. rewrite Nat.add_1_r. done.
    + destruct (Hfail 0 ltac:(lia)) as [e He]. rewrite Nat.add_0_r in He. rewrite He.
      unfold bind.
      set (st1 := mkState (requests st) (S (searches st)) (trace st ++ [EvSearch query max_results])).
      destruct (Nat.ltb_spec k (attempts - 1)) as [Hlt|Hge].
      * unfold sleep, log. cbn [fst snd].
        set (st2 := mkState (requests st1) (searches st1) (trace st1 ++ [EvSleep (Qred 2)])).
        destruct (IH (S k) st2 j) as (evs & Hrun & Hs & Hw & Hg); [lia | lia | | | |].
        { intros i Hi. destruct (Hfail (S i) ltac:(lia)) as [e' He']. exists e'.
          subst st2 st1. simpl. by rewrite <- Nat.add_succ_r. }
        { intros Hlt'. subst st2 st1. simpl. rewrite <- Nat.add_succ_r. apply Hok. lia. }
        { intros ->. by apply Hnone. }
        exists (EvSearch query max_results :: EvSleep 2 :: evs). rewrite Hrun.
        subst st2 st1. cbn [requests searches trace]. split; [|split; [|split]].
        -- f_equal. f_equal; [destruct len; simpl; lia|]. by rewrite <- !app_assoc.
        -- change (search_calls (EvSearch query max_results :: EvSleep 2 :: evs))
             with ((query, max_results) :: search_calls evs).
           rewrite Hs. by destruct len.
        -- change (sleeps (EvSearch query max_results :: EvSleep 2 :: evs))
             with (2%Q :: sleeps evs).
           rewrite Hw. assert (len <> 0) by lia.
           replace (Nat.min (S j) (S len - 1)) with (S (Nat.min j (len - 1))) by lia. done.
        -- exact Hg.
      * assert (len = 0) as -> by lia. assert (j = 0) as -> by lia.
        rewrite (Hnone eq_refl). exists [EvSearch query max_results].
        subst st1. simpl. rewrite Nat.add_1_r. done.
Qed.
(** The loop never raises, and makes no HTTP request. *)
Lemma ddg_attempts_total : forall todo st,
  exists hits st', ddg_attempts w query max_results attempts todo st = (inr hits, st').
Proof.
  induction todo as [|k todo IH]; intros st; cbn [ddg_attempts].
  - by eexists _, _.
  - unfold try_except, ddg_call.
    destruct (ddg_text w (searches st) query max_results) as [e|hs].
    + unfold bind. destruct (k <? attempts - 1)%nat; cbn; apply IH.
    + by eexists _, _.
Qed.

Lemma ddg_attempts_no_gets : forall todo st,
  exists evs, trace (snd (ddg_attempts w query max_results attempts todo st)) = trace st ++ evs
              /\ gets evs = [].
Proof.
  induction todo as [|k todo IH]; intros st; cbn [ddg_attempts].
  - exists []. by rewrite app_nil_r.
  - unfold try_except, ddg_call.
    destruct (ddg_text w (searches st) query max_results) as [e'|hs].
    + unfold bind. destruct (k <? attempts - 1)%nat; cbn.
      * match goal with |- context [ddg_attempts _ _ _ _ _ ?s] =>
          destruct (IH s) as (evs & -> & Hg) end.
        cbn. exists (EvSearch query max_results :: EvSleep (Qred 2) :: evs).
        by rewrite <- !app_assoc.
      * match goal with |- context [ddg_attempts _ _ _ _ _ ?s] =>
          destruct (IH s) as (evs & -> & Hg) end.
        cbn. exists (EvSearch query max_results :: evs).
        by rewrite <- !app_assoc.
    + cbn. by exists [EvSearch query max_results].
Qed.
End SearchRetry.

(** X12.  Once the search library is imported and its client built, the search
    helper never raises.  When the first [j] calls fail and the next one
    returns, the helper returns that result after [j + 1] calls, each with the
    given query and result limit, and [j] waits of two seconds.  When all
    [attempts] calls fail it returns the empty list after [attempts] calls and
    [attempts - 1] waits: no wait follows the last failure. *)
Theorem X12_search_retry (w : Effects.world) (query : string) (max_results : Z)
        (attempts j : nat) :
  Effects.ddg_import w = None -> Effects.ddg_new w = None ->
  j <= attempts ->
  (forall i, i < j -> exists e, Effects.ddg_text w i query max_results = inl e) ->
  let m := Tools._ddg_search_with_retry w query max_results attempts in
  (exists hits, Effects.run m = inr hits)
  /\ Effects.gets (Effects.events m) = []
  /\ (forall hits,
        j < attempts -> Effects.ddg_text w j query max_results = inr hits ->
        Effects.run m = inr hits
        /\ Shapes.search_calls (Effects.events m) = replicate (S j) (query, max_results)
        /\ Effects.sleeps (Effects.events m) = replicate j 2%Q)
  /\ (j = attempts ->
        Effects.run m = inr []
        /\ Shapes.search_calls (Effects.events m) = replicate attempts (query, max_results)
        /\ Effects.sleeps (Effects.events m) = replicate (attempts - 1) 2%Q).
Proof.
  intros Himp Hnew Hj Hfail m.
  assert (Hm : forall st, m st
               = Tools.ddg_attempts w query max_results attempts (seq 0 attempts) st).
  { intros st. subst m. unfold Tools._ddg_search_with_retry, Effects.bind.
    by rewrite Himp, Hnew. }
  assert (Hsucc : forall hits,
            j < attempts -> Effects.ddg_text w j query max_results = inr hits ->
            Effects.run m = inr hits
            /\ Effects.gets (Effects.events m) = []
            /\ Shapes.search_calls (Effects.events m) = replicate (S j) (query, max_results)
            /\ Effects.sleeps (Effects.events m) = replicate j 2%Q).
  { intros hits Hlt Hok.
    destruct (ddg_attempts_run w query max_results attempts hits attempts 0 Effects.init j)
      as (evs & Hrun & Hs & Hw & Hg); [lia | lia | done | done | lia |].
    unfold Effects.run, Effects.events. rewrite Hm, Hrun. cbn [fst snd Effects.trace app Effects.init].
    rewrite Hs, Hw, Hg. replace (Nat.min (S j) attempts) with (S j) by lia.
    replace (Nat.min j (attempts - 1)) with j by lia. done. }
  assert (Hnone : j = attempts ->
            Effects.run m = inr []
            /\ Effects.gets (Effects.events m) = []
            /\ Shapes.search_calls (Effects.events m) = replicate attempts (query, max_results)
            /\ Effects.sleeps (Effects.events m) = replicate (attempts - 1) 2%Q).
  { intros ->.
    destruct (ddg_attempts_run w query max_results attempts [] attempts 0 Effects.init attempts)
      as (evs & Hrun & Hs & Hw & Hg); [lia | lia | done | lia | done |].
    unfold Effects.run, Effects.events. rewrite Hm, Hrun. cbn [fst snd Effects.trace app Effects.init].
    rewrite Hs, Hw, Hg. replace (Nat.min (S attempts) attempts) with attempts by lia.
    replace (Nat.min attempts (attempts - 1)) with (attempts - 1) by lia. done. }
  split; [|split; [|split]].
  - destruct (ddg_attempts_total w query max_results attempts (seq 0 attempts) Effects.init)
      as (hits & st' & Hrun).
    exists hits. unfold Effects.run. by rewrite Hm, Hrun.
  - destruct (ddg_attempts_no_gets w query max_results attempts (seq 0 attempts) Effects.init)
      as (evs & Htr & Hg).
    unfold Effects.events. rewrite Hm, Htr. done.
  - intros hits Hlt Hok. destruct (Hsucc hits Hlt Hok) as (? & ? & ? & ?). done.
  - intros Heq. destruct (Hnone Heq) as (? & ? & ? & ?). done.
Qed.

(** A search client that always fails, asked twice; and one whose second call
    returns. *)
Lemma X12_search_retry_witness :
  let failing := Tools._ddg_search_with_retry Examples.failing_search "acme pizza" 5 2 in
  let flaky := Tools._ddg_search_with_retry Examples.flaky_search "acme pizza" 5 2 in
  (Effects.run failing = inr []
   /\ Shapes.search_calls (Effects.events failing) = [("acme pizza", 5%Z); ("acme pizza", 5%Z)]
   /\ Effects.sleeps (Effects.events failing) = [2%Q])
  /\ (Effects.run flaky
      = inr [Effects.mkHit (Some "Acme Pizza") (Some "Pizza in Columbus") None]
      /\ Shapes.search_calls (Effects.events flaky) = [("acme pizza", 5%Z); ("acme pizza", 5%Z)]
      /\ Effects.sleeps (Effects.events flaky) = [2%Q]).
Proof.
  intros failing flaky. split.
  - destruct (X12_search_retry Examples.failing_search "acme pizza" 5 2 2)
      as (_ & _ & _ & Hnone);
      [reflexivity | reflexivity | lia | intros i Hi; eexists; reflexivity |].
    exact (Hnone eq_refl).
  - destruct (X12_search_retry Examples.flaky_search "acme pizza" 5 2 1)
      as (_ & _ & Hsucc & _);
      [reflexivity | reflexivity | lia
      | intros i Hi; assert (i = 0) as -> by lia; eexists; reflexivity |].
    apply Hsucc; [lia | reflexivity].
Defined.

(** ** The search probes when the search calls fail *)

Section SearchFailures.
Import Tools Schemas Effects.
Context (w : world).
Hypothesis Himp : ddg_import w = None.
Hypothesis Hnew : ddg_new w = None.

Lemma retry_total (query : string) (n : Z) (attempts : nat) (st : state) :
  exists hits st', _ddg_search_with_retry w query n attempts st = (inr hits, st').
Proof.
  unfold _ddg_search_with_retry, bind. rewrite Himp, Hnew. cbn.
  apply ddg_attempts_total.
Qed.

Lemma retry_all_fail (query : string) (n : Z) (attempts : nat) (st : state) :
  (forall k, exists e, ddg_text w k query n = inl e) ->
  exists st', _ddg_search_with_retry w query n attempts st = (inr [], st').
Proof.
  intros Hfail. unfold _ddg_search_with_retry, bind. rewrite Himp, Hnew. cbn.
  destruct (ddg_attempts_run w query n attempts [] attempts 0 st attempts)
    as (evs & Hrun & _); [lia | lia | by intros | lia | done |].
  rewrite Hrun. by eexists.
Qed.

Lemma platform_search_loop_total : forall queries acc st,
  exists r st', platform_search_loop w queries acc st = (inr r, st')
                /\ ((forall k q n, exists e, ddg_text w k q n = inl e) -> r = acc).
Proof.
  induction queries as [|q queries IH]; intros acc st; cbn [platform_search_loop].
  - by eexists _, _.
  - unfold bind at 1.
    destruct (retry_total q 3 2 st) as (hits & st1 & Hrun). rewrite Hrun.
    unfold bind at 1, sleep, log. cbn [fst snd].
    match goal with |- context [platform_search_loop _ _ ?a ?s] =>
      destruct (IH a s) as (r & st' & Hloop & Hr) end.
    exists r, st'. split; [exact Hloop|].
    intros Hfail. destruct (retry_all_fail q 3 2 st (fun k => Hfail k q 3%Z)) as [st2 Hrun2].
    rewrite Hrun in Hrun2. injection Hrun2 as -> _.
    rewrite (Hr Hfail). cbn. by rewrite app_nil_r.
Qed.

Lemma search_general_context_no_error (business_name city state : string) :
  exists f, run (search_general_context w business_name city state) = inr f
            /\ is_error f = false
            /\ ((forall k q n, exists e, ddg_text w k q n = inl e) ->
                f = Finding "general_search" None
                      ("No web results found for '" +:+ business_name +:+ "' in " +:+ city
                       +:+ ", " +:+ state)).
Proof.
  unfold run, search_general_context, try_except, bind.
  match goal with |- context [_ddg_search_with_retry w ?q ?n ?a init] =>
    destruct (retry_total q n a init) as (hits & st1 & Hrun); rewrite Hrun;
    pose proof (retry_all_fail q n a init) as Hall end.
  destruct hits as [|h hits]; cbn.
  - eexists. split; [done|]. split; done.
  - eexists. split; [done|]. split; [done|]. intros Hfail.
    destruct Hall as [st2 Hrun2]; [intros k; apply Hfail|]. rewrite Hrun in Hrun2. done.
Qed.

Lemma check_review_presence_no_error (business_name city state : string) :
  exists f, run (check_review_presence w business_name city state) = inr f
            /\ is_error f = false
            /\ ((forall k q n, exists e, ddg_text w k q n = inl e) ->
                f = Finding "review_search" None
                      ("No review listings found for '" +:+ business_name +:+ "' in " +:+ city)).
Proof.
  unfold run, check_review_presence, try_except, bind.
  match goal with |- context [_ddg_search_with_retry w ?q ?n ?a init] =>
    destruct (retry_total q n a init) as (hits & st1 & Hrun); rewrite Hrun;
    pose proof (retry_all_fail q n a init) as Hall end.
  destruct hits as [|h hits]; cbn.
  - eexists. split; [done|]. split; done.
  - eexists. split; [done|]. split; [done|]. intros Hfail.
    destruct Hall as [st2 Hrun2]; [intros k; apply Hfail|]. rewrite Hrun in Hrun2. done.
Qed.

Lemma search_platform_presence_no_error (business_name city : string) (ctx : settlement_context) :
  exists f, run (search_platform_presence w business_name city ctx) = inr f
            /\ is_error f = false
            /\ ((forall k q n, exists e, ddg_text w k q n = inl e) ->
                f = Finding "platform_search" None
                      ("No platform presence found for '" +:+ business_name +:+ "' in " +:+ city
                       +:+ " related to " +:+ ctx_defendant ctx)).
Proof.
  unfold run, search_platform_presence.
  unfold bind at 1, try_except, bind at 1.
  destruct (platform_search_loop_total (take 2 (platform_queries business_name city ctx)) [] init)
    as (r & st' & Hloop & Hr).
  rewrite Hloop. cbn [ret]. destruct r as [|x r]; cbn.
  - eexists. split; [done|]. split; done.
  - eexists. split; [done|]. split; [done|]. intros Hfail. by specialize (Hr Hfail).
Qed.
End SearchFailures.

(** X13.  Once the search library is imported and its client built, none of
    the three search probes raises or returns an error Finding, whatever the
    search calls do.  When every search call fails, each probe returns the
    Finding it returns for an empty result list: a search that failed twice
    reads as a search that found nothing. *)
Theorem X13_failed_search_reads_as_no_results (w : Effects.world)
        (business_name city state : string) (ctx : Tools.settlement_context) :
  Effects.ddg_import w = None -> Effects.ddg_new w = None ->
  let general := Tools.search_general_context w business_name city state in
  let review := Tools.check_review_presence w business_name city state in
  let platform := Tools.search_platform_presence w business_name city ctx in
  (exists f g h,
      Effects.run general = inr f /\ Effects.run review = inr g /\ Effects.run platform = inr h
      /\ Schemas.is_error f = false /\ Schemas.is_error g = false /\ Schemas.is_error h = false)
  /\ ((forall k q n, exists e, Effects.ddg_text w k q n = inl e) ->
      Effects.run general
      = inr (Schemas.Finding "general_search" None
               ("No web results found for '" +:+ business_name +:+ "' in " +:+ city
                +:+ ", " +:+ state))
      /\ Effects.run review
         = inr (Schemas.Finding "review_search" None
                  ("No review listings found for '" +:+ business_name +:+ "' in " +:+ city))
      /\ Effects.run platform
         = inr (Schemas.Finding "platform_search" None
                  ("No platform presence found for '" +:+ business_name +:+ "' in " +:+ city
                   +:+ " related to " +:+ Tools.ctx_defendant ctx))).
Proof.
  intros Himp Hnew general review platform.
  destruct (search_general_context_no_error w Himp Hnew business_name city state)
    as (f & Hf & Hfe & Hfn).
  destruct (check_review_presence_no_error w Himp Hnew business_name city state)
    as (g & Hg & Hge & Hgn).
  destruct (search_platform_presence_no_error w Himp Hnew business_name city ctx)
    as (h & Hh & Hhe & Hhn).
  split.
  - by exists f, g, h.
  - intros Hfail. subst general review platform.
    rewrite Hf, Hg, Hh, (Hfn Hfail), (Hgn Hfail), (Hhn Hfail). done.
Qed.

(** A search client whose every call times out. *)
Lemma X13_failed_search_reads_as_no_results_witness :
  Effects.run (Tools.search_general_context Examples.failing_search "Acme Pizza" "Columbus" "OH")
  = inr (Schemas.Finding "general_search" None
           "No web results found for 'Acme Pizza' in Columbus, OH").
Proof.
  destruct (X13_failed_search_reads_as_no_results Examples.failing_search
              "Acme Pizza" "Columbus" "OH" (Tools.mkContext "Test Settlement" "Defendant" []))
    as [_ Hnone]; [reflexivity | reflexivity |].
  destruct Hnone as (Hg & _); [intros k q n; eexists; reflexivity|].
  exact Hg.
Defined.

(** ** Sampling with any bound *)

Section SamplingGeneral.
Import Tools.
Context {A : Type}.
Implicit Types (rows : list A) (idxs : gset nat).

Lemma size_union_le (X Y : gset nat) : size (X ∪ Y) <= size X + size Y.
Proof.
  rewrite size_union_alt.
  assert (size (Y ∖ X) <= size Y); [|lia].
  apply subseteq_size. intros y Hy. apply elem_of_difference in Hy. tauto.
Qed.

Lemma stride_subseteq (m : nat) : forall range idxs, idxs ⊆ stride m range idxs.
Proof.
  induction range as [|i range IH]; intros idxs; cbn [stride]; [done|].
  destruct (m <=? size ({[i]} ∪ idxs))%nat; [set_solver|].
  etrans; [|apply IH]. set_solver.
Qed.

Lemma stride_size (m : nat) : forall range idxs,
  size (stride m range idxs) <= Nat.max m (size idxs + 1).
Proof.
  induction range as [|i range IH]; intros idxs; cbn [stride]; [lia|].
  assert (Hsz : size ({[i]} ∪ idxs) <= size idxs + 1).
  {    pose proof (size_union_le {[i]} idxs) as Hle. by rewrite size_singleton, Nat.add_comm in Hle. }
  destruct (Nat.leb_spec m (size ({[i]} ∪ idxs))); [lia|].
  specialize (IH ({[i]} ∪ idxs)). lia.
Qed.

(** A loop that starts at an index it already has adds nothing to the count. *)
Lemma stride_size_head (m : nat) (i : nat) (range : list nat) idxs :
  i ∈ idxs -> size (stride m (i :: range) idxs) <= Nat.max m (size idxs).
Proof.
  intros Hi. cbn [stride].
  assert (Heq : {[i]} ∪ idxs = idxs) 
    by (apply set_eq; intros y; rewrite elem_of_union, elem_of_singleton;
        split; [intros [->|?]; done | by right]).
  rewrite Heq.
  destruct (Nat.leb_spec m (size idxs)); [lia|].
  pose proof (stride_size m range idxs). lia.
Qed.

Lemma range0_head (stop step : nat) :
  0 < stop -> 0 < step -> exists rest, Py.range0 stop step = 0 :: rest.
Proof.
  intros Hstop Hstep. unfold Py.range0.
  assert (H : 1 <= (stop + step - 1) / step).
  { apply Nat.div_le_lower_bound; lia. }
  destruct ((stop + step - 1) / step) as [|n]; [lia|]. cbn. by eexists.
Qed.

Lemma sorted_indices_sorted idxs : StronglySorted lt (sorted_indices idxs).
Proof.
  unfold sorted_indices.
  assert (Hs : Sorted Nat.le (merge_sort Nat.le (elements idxs)))
    by (apply Sorted_merge_sort; apply _).
  assert (Hnd : NoDup (merge_sort Nat.le (elements idxs))).
  { rewrite merge_sort_Permutation. apply NoDup_elements. }
  apply Sorted_StronglySorted in Hs; [|intros x y z; unfold Nat.le; lia].
  induction Hs as [|x l Hl IH Hx]; [constructor|].
  apply NoDup_cons in Hnd as [Hnx Hnd]. constructor; [by apply IH|].
  apply Forall_forall. intros y Hy. rewrite Forall_forall in Hx.
  specialize (Hx y Hy). unfold Nat.le in Hx.
  assert (x <> y) by (intros ->; done). lia.
Qed.

Lemma StronglySorted_filter (P : nat -> Prop) `{forall x, Decision (P x)} (l : list nat) :
  StronglySorted lt l -> StronglySorted lt (filter P l).
Proof.
  induction 1 as [|x l Hl IH Hx]; [constructor|].
  rewrite filter_cons. destruct (decide (P x)); [|done].
  constructor; [done|]. apply Forall_forall. intros y Hy.
  apply list_elem_of_filter in Hy as [_ Hy]. rewrite Forall_forall in Hx. by apply Hx.
Qed.

Lemma omap_length_le {B C} (f : B -> option C) (l : list B) :
  length (omap f l) <= length l.
Proof. induction l as [|x l IH]; [done|]. cbn. destruct (f x); simpl; lia. Qed.

Lemma omap_ext_Forall {B C} (f g : B -> option C) (l : list B) :
  Forall (fun x => f x = g x) l -> omap f l = omap g l.
Proof. induction 1 as [|x l Hx _ IH]; [done|]. cbn. by rewrite Hx, IH. Qed.

(** Rows looked up at ascending indices come in the order of the rows. *)
Lemma sublist_omap_lookup : forall (l : list nat) rows (k : nat),
  StronglySorted lt l -> Forall (fun i => k <= i) l ->
  sublist (omap (fun i => rows !! (i - k)) l) rows.
Proof.
  induction l as [|i l IH]; intros rows k Hs Hk; [apply sublist_nil_l|].
  apply StronglySorted_inv in Hs as [Hs Hi]. apply Forall_cons in Hk as [Hki Hk].
  cbn. destruct (rows !! (i - k)) as [r|] eqn:Hr; [|by apply IH].
  set (sampled := omap (fun i0 => rows !! (i0 - k)) l).
  rewrite <- (take_drop_middle rows (i - k) r Hr). subst sampled.
  apply sublist_inserts_l, sublist_skip.
  erewrite omap_ext_Forall; [apply (IH (drop (S (i - k)) rows) (S i)); [done|]|].
  - eapply Forall_impl; [exact Hi|]. intros j Hj. simpl in Hj. lia.
  - eapply Forall_impl; [exact Hi|]. intros j Hj. simpl in *.
    rewrite lookup_drop. f_equal. lia.
Qed.

Lemma elem_of_sampled rows (m i : nat) (r : A) :
  m < length rows -> rows !! i = Some r ->
  i ∈ sample_indices (length rows) m -> r ∈ _sample_wayback_rows rows m.
Proof.
  intros Hm Hr Hi. unfold _sample_wayback_rows.
  destruct (Nat.leb_spec (length rows) m); [lia|].
  apply list_elem_of_omap. exists i. split; [|done].
  apply list_elem_of_filter. split; [by eapply lookup_lt_Some|].
  unfold sorted_indices. rewrite merge_sort_Permutation. by apply elem_of_elements.
Qed.

Lemma sample_indices_size (len m : nat) :
  0 < len -> size (sample_indices len m) <= Nat.max m 4.
Proof.
  intros Hlen. unfold sample_indices.
  destruct (range0_head len (Nat.max 1 ((len - 1) / (m - 1)))) as [rest ->]; [lia | lia |].
  etrans; [apply stride_size_head; set_solver|].
  assert (size ({[0; 1; Nat.min 2 (len - 1); len - 1]} : gset nat) <= 4); [|lia].
  pose proof (size_union_le ({[0; 1; Nat.min 2 (len - 1)]}) ({[len - 1]})) as H1.
  pose proof (size_union_le ({[0; 1]}) ({[Nat.min 2 (len - 1)]})) as H2.
  pose proof (size_union_le ({[0]}) ({[1]})) as H3.
  rewrite size_singleton in H1. rewrite size_singleton in H2.
  rewrite !size_singleton in H3. lia.
Qed.

Lemma sampled_length_le rows (m : nat) :
  4 <= m -> length (_sample_wayback_rows rows m) <= m.
Proof.
  intros H4. unfold _sample_wayback_rows.
  destruct (Nat.leb_spec (length rows) m); [done|].
  etrans; [apply omap_length_le|]. etrans; [apply length_filter|].
  unfold sorted_indices. rewrite merge_sort_Permutation.
  change (length (elements ?X)) with (size X).
  etrans; [apply sample_indices_size; lia|]. lia.
Qed.
End SamplingGeneral.

(** X14.  For any bound of at least 2, the sample is a subsequence of the rows
    (rows are neither reordered nor repeated) that holds the first and the
    last row.  It has at most [max_samples] rows when the bound is 4 or more;
    under a bound of 2 or 3, four or more rows give a sample of exactly four
    rows, more than the bound. *)
Theorem X14_sample_wayback_rows_any_bound {A : Type} (rows : list A) (max_samples : nat) :
  2 <= max_samples ->
  let sampled := Tools._sample_wayback_rows rows max_samples in
  sublist sampled rows
  /\ (forall r, head rows = Some r \/ last rows = Some r -> r ∈ sampled)
  /\ (4 <= max_samples -> length sampled <= max_samples)
  /\ (max_samples < 4 -> 4 <= length rows -> length sampled = 4).
Proof.
  intros Hm sampled.
  assert (Hsub : sublist sampled rows).
  { subst sampled. unfold Tools._sample_wayback_rows.
    destruct (Nat.leb_spec (length rows) max_samples); [done|].
    erewrite omap_ext_Forall;
      [apply (sublist_omap_lookup _ rows 0);
       [apply StronglySorted_filter, sorted_indices_sorted | apply Forall_forall; intros; lia]|].
    apply Forall_forall. intros i _. simpl. by rewrite Nat.sub_0_r. }
  assert (Hinit : forall i, i ∈ ({[0; 1; Nat.min 2 (length rows - 1); length rows - 1]} : gset nat) ->
                    i ∈ Tools.sample_indices (length rows) max_samples).
  { intros i Hi. unfold Tools.sample_indices. by apply stride_subseteq. }
  split; [exact Hsub|]. split; [|split].
  - intros r Hr. destruct (Nat.leb_spec (length rows) max_samples) as [Hle|Hgt].
    + subst sampled. unfold Tools._sample_wayback_rows.
      destruct (Nat.leb_spec (length rows) max_samples); [|lia].
      destruct Hr as [Hr|Hr].
      * destruct rows; [done|]. injection Hr as ->. set_solver.
      * rewrite last_lookup in Hr. by eapply list_elem_of_lookup_2.
    + destruct Hr as [Hr|Hr].
      * apply (elem_of_sampled rows max_samples 0 r Hgt); [by rewrite <- head_lookup|].
        apply Hinit. set_solver.
      * rewrite last_lookup in Hr.
        apply (elem_of_sampled rows max_samples (length rows - 1) r Hgt).
        -- rewrite <- Hr. f_equal. lia.
        -- apply Hinit. set_solver.
  - intros H4. by apply sampled_length_le.
  - intros Hlt Hlen. subst sampled. unfold Tools._sample_wayback_rows.
    destruct (Nat.leb_spec (length rows) max_samples); [lia|].
    assert (Hidx : Tools.sample_indices (length rows) max_samples
                   = list_to_set [0; 1; 2; length rows - 1]).
    { unfold Tools.sample_indices.
      destruct (range0_head (length rows) (Nat.max 1 ((length rows - 1) / (max_samples - 1))))
        as [rest ->]; [lia | lia |].
      cbn [Tools.stride].
      assert (Heq : ({[0]} ∪ {[0; 1; Nat.min 2 (length rows - 1); length rows - 1]} : gset nat)
                    = list_to_set [0; 1; 2; length rows - 1]).
      { replace (Nat.min 2 (length rows - 1)) with 2 by lia.
        apply set_eq. intros x. set_unfold. lia. }
      rewrite Heq, size_list_to_set.
      - simpl. destruct (Nat.leb_spec max_samples 4); [done | lia].
      - repeat (apply NoDup_cons; split; [set_unfold; lia|]). apply NoDup_nil. exact I. }
    rewrite Hidx.
    rewrite (sorted_indices_of_list [0; 1; 2; length rows - 1] [0; 1; 2; length rows - 1]).
    + rewrite filter_in_range by (repeat (constructor; try lia)).
      pose proof (omap_lookup_rows rows [0; 1; 2; length rows - 1]
                    ltac:(repeat (constructor; try lia))) as HF.
      apply Forall2_length in HF. by rewrite <- HF.
    + repeat (apply NoDup_cons; split; [set_unfold; lia|]). apply NoDup_nil. exact I.
    + done.
    + repeat (constructor; try (unfold Nat.le; lia)).
Qed.

(** Six rows under a bound of 5, and under a bound of 2. *)
Lemma X14_sample_wayback_rows_any_bound_witness :
  length (Tools._sample_wayback_rows (seq 0 6) 5) <= 5
  /\ length (Tools._sample_wayback_rows (seq 0 6) 2) = 4.
Proof.
  split.
  - apply (X14_sample_wayback_rows_any_bound (seq 0 6) 5); lia.
  - apply (X14_sample_wayback_rows_any_bound (seq 0 6) 2); simpl; lia.
Defined.

(** ** The text of a page *)

Section PageText.
Import Tools Shapes.

Lemma blank_is_space (c : ascii) : Ascii.eqb c " " = true -> Py.is_space c = true.
Proof. intros H. apply Ascii.eqb_eq in H as ->. reflexivity. Qed.

Lemma not_space_not_blank (c : ascii) : Py.is_space c = false -> Ascii.eqb c " " = false.
Proof.
  intros H. destruct (Ascii.eqb c " ") eqn:E; [|done].
  apply blank_is_space in E. congruence.
Qed.

Lemma sub_runs_single_blanks : forall s in_run,
  single_blanks in_run (sub_runs Py.is_space in_run s) = true.
Proof.
  induction s as [|c s IH]; intros in_run; [done|]. cbn [sub_runs].
  destruct (Py.is_space c) eqn:Hc.
  - destruct in_run; [apply IH|]. cbn [single_blanks]. 
    change (Ascii.eqb " " " ") with true. cbn. apply IH.
  - cbn [single_blanks]. rewrite (not_space_not_blank c Hc), Hc. cbn. apply IH.
Qed.

Lemma lstrip_single_blanks : forall s b,
  single_blanks b s = true -> single_blanks true (Py.lstrip s) = true.
Proof.
  induction s as [|c s IH]; intros b H; [done|]. cbn [Py.lstrip].
  cbn [single_blanks] in H. destruct (Py.is_space c) eqn:Hc.
  - destruct (Ascii.eqb c " "); [|done].
    apply andb_true_iff in H as [_ H]. by apply (IH true).
  - cbn [single_blanks]. rewrite (not_space_not_blank c Hc), Hc in *. done.
Qed.

Lemma rstrip_single_blanks : forall s b,
  single_blanks b s = true -> single_blanks b (Py.rstrip s) = true.
Proof.
  induction s as [|c s IH]; intros b H; [done|]. cbn [Py.rstrip].
  cbn [single_blanks] in H.
  destruct (Ascii.eqb c " ") eqn:Hc.
  - apply andb_true_iff in H as [Hb H]. specialize (IH true H).
    destruct (Py.rstrip s) as [|d r] eqn:Hr.
    + by rewrite (blank_is_space c Hc).
    + cbn [single_blanks] in *. by rewrite Hc, Hb.
  - apply andb_true_iff in H as [Hs H]. specialize (IH false H).
    destruct (Py.rstrip s) as [|d r] eqn:Hr.
    + apply negb_true_iff in Hs. rewrite Hs. cbn [single_blanks]. by rewrite Hc, Hs.
    + cbn [single_blanks] in *. by rewrite Hc, Hs.
Qed.

Lemma take_str_single_blanks : forall n s b,
  single_blanks b s = true -> single_blanks b (Py.take_str n s) = true.
Proof.
  unfold Py.take_str. induction n as [|n IH]; intros s b H.
  - by destruct s.
  - destruct s as [|c s]; [done|]. cbn [String.substring single_blanks] in *.
    destruct (Ascii.eqb c " "); apply andb_true_iff in H as [H1 H2];
      apply andb_true_iff; split; try done; by apply IH.
Qed.

End PageText.

(** X15.  The text taken from a page has at most [max_chars] characters; its
    only white space is single blanks, and it does not start with one. *)
Theorem X15_extract_text_shape (html : string) (max_chars : nat) :
  let text := Tools._extract_text html max_chars in
  String.length text <= max_chars
  /\ Shapes.single_blanks true text = true.
Proof.
  intros text. subst text. unfold Tools._extract_text.
  set (t := Tools.sub_runs Py.is_space false _).
  split; [apply take_str_length|].
  apply take_str_single_blanks. unfold Py.strip.
  apply rstrip_single_blanks. apply (lstrip_single_blanks t false).
  apply sub_runs_single_blanks.
Qed.

(** ** Chunking a document *)

Section Strings2.
Lemma drop_str_nil (n : nat) : Py.drop_str n EmptyString = EmptyString.
Proof. by destruct n. Qed.

Lemma drop_str_length (n : nat) (s : string) :
  String.length (Py.drop_str n s) = String.length s - n.
Proof. revert s. induction n as [|n IH]; intros [|c s]; simpl; auto with lia. Qed.

Lemma drop_str_long (n : nat) (s : string) :
  String.length s <= n -> Py.drop_str n s = EmptyString.
Proof.
  intros H. pose proof (drop_str_length n s) as Hl.
  destruct (Py.drop_str n s); [done | simpl in Hl; lia].
Qed.

Lemma drop_str_drop_str (n m : nat) (s : string) :
  Py.drop_str n (Py.drop_str m s) = Py.drop_str (m + n) s.
Proof.
  revert s. induction m as [|m IH]; intros s; [done|].
  destruct s as [|c s]; simpl; [apply drop_str_nil | apply IH].
Qed.

Lemma take_drop_str (n : nat) (s : string) : Py.take_str n s +:+ Py.drop_str n s = s.
Proof.
  unfold Py.take_str. revert s. induction n as [|n IH]; intros [|c s]; simpl; try done.
  by rewrite string_app_cons, IH.
Qed.

Lemma take_str_take_str (n m : nat) (s : string) :
  n <= m -> Py.take_str n (Py.take_str m s) = Py.take_str n s.
Proof.
  unfold Py.take_str. revert m s. induction n as [|n IH]; intros m s H.
  - by destruct (String.substring 0 m s), s.
  - destruct m as [|m]; [lia|]. destruct s as [|c s]; simpl; [done|].
    rewrite IH; [done | lia].
Qed.

Lemma substring_take_drop (a n : nat) (s : string) :
  String.substring a n s = Py.take_str n (Py.drop_str a s).
Proof.
  unfold Py.take_str. revert s. induction a as [|a IH]; intros s; [done|].
  destruct s as [|c s]; simpl; [by destruct n | apply IH].
Qed.

Lemma join_empty_cons (x : string) (l : list string) :
  Py.join EmptyString (x :: l) = x +:+ Py.join EmptyString l.
Proof. destruct l; [simpl; by rewrite string_app_nil_r | done]. Qed.
End Strings2.

Section Chunks.
Import Extraction.
Context (text : string) (chunk_size overlap : Z).

(** The chunk that starts at the character [s]: [text[s:s + chunk_size]]. *)
Lemma slice_chunk (s : nat) :
  (0 <= chunk_size)%Z ->
  slice text (Z.of_nat s) (Z.of_nat s + chunk_size)
  = Py.take_str (Z.to_nat chunk_size) (Py.drop_str s text).
Proof.
  intros Hcs. unfold slice, slice_index.
  destruct (Z.ltb_spec (Z.of_nat s) 0); [lia|].
  destruct (Z.ltb_spec (Z.of_nat s + chunk_size) 0); [lia|].
  rewrite Nat2Z.id, substring_take_drop.
  replace (Z.to_nat (Z.of_nat s + chunk_size)) with (s + Z.to_nat chunk_size) by lia.
  destruct (decide (String.length text <= s)) as [Hlong|Hshort].
  { rewrite (Nat.min_r s) by lia. rewrite !drop_str_long by lia.
    unfold Py.take_str. by destruct (_ - _), (Z.to_nat chunk_size). }
  rewrite (Nat.min_l s) by lia.
  destruct (decide (s + Z.to_nat chunk_size <= String.length text)).
  - rewrite Nat.min_l by lia. f_equal. lia.
  - rewrite Nat.min_r by lia.
    rewrite !take_str_short; [done | |]; rewrite drop_str_length; lia.
Qed.

Section Progress.
Hypothesis Hsizes : (0 <= overlap < chunk_size)%Z.
Context (step : nat).
Hypothesis Hstep_eq : step = Z.to_nat (chunk_size - overlap).

Lemma chunk_count_end (s : nat) :
  String.length text <= s -> Shapes.chunk_count (String.length text) step s = 0.
Proof.
  intros H. unfold Shapes.chunk_count. apply Nat.div_small. lia.
Qed.

Lemma chunk_count_step (s : nat) :
  s < String.length text ->
  Shapes.chunk_count (String.length text) step s
  = S (Shapes.chunk_count (String.length text) step (s + step)).
Proof.
  intros H. unfold Shapes.chunk_count.
  assert (Hstep : 0 < step) by lia.
  replace (String.length text - s + step - 1) with ((String.length text - s - 1) + 1 * step) by lia.
  rewrite Nat.div_add by lia.
  destruct (decide (step <= String.length text - s)) as [Hle|Hgt].
  - replace (String.length text - (s + step) + step - 1) with (String.length text - s - 1) by lia.
    lia.
  - replace (String.length text - (s + step) + step - 1) with (step - 1) by lia.
    rewrite !Nat.div_small by lia. done.
Qed.

Lemma chunk_loop_closed_form : forall fuel s,
  String.length text - s <= fuel ->
  chunk_loop fuel text chunk_size overlap (Z.of_nat s)
  = Some ((fun i => Py.take_str (Z.to_nat chunk_size) (Py.drop_str (s + i * step) text))
            <$> seq 0 (Shapes.chunk_count (String.length text) step s)).
Proof.
  assert (Hstep : 0 < step) by lia.
  induction fuel as [|fuel IH]; intros s Hfuel.
  - cbn [chunk_loop]. destruct (Z.ltb_spec (Z.of_nat s) (Z.of_nat (String.length text))); [lia|].
    rewrite chunk_count_end by lia. done.
  - cbn [chunk_loop]. destruct (Z.ltb_spec (Z.of_nat s) (Z.of_nat (String.length text))).
    + replace (Z.of_nat s + chunk_size - overlap)%Z with (Z.of_nat (s + step))
        by lia.
      rewrite IH by lia. rewrite slice_chunk by lia.
      rewrite (chunk_count_step s) by lia. cbn [seq fmap list_fmap option_fmap option_map].
      rewrite Nat.add_0_r. f_equal. f_equal.
      rewrite <- fmap_S_seq, <- list_fmap_compose. apply list_fmap_ext.
      intros _ i _. simpl. f_equal. f_equal. lia.
    + rewrite chunk_count_end by lia. done.
Qed.

Lemma chunks_cover : forall m s,
  String.length text - s <= m ->
  Py.join EmptyString
    ((fun i => Py.take_str step (Py.drop_str (s + i * step) text)) <$> seq 0 (Shapes.chunk_count (String.length text) step s))
  = Py.drop_str s text.
Proof.
  assert (Hstep : 0 < step) by lia.
  induction m as [|m IH]; intros s Hm.
  - rewrite chunk_count_end, drop_str_long by lia. done.
  - destruct (decide (String.length text <= s)).
    { rewrite chunk_count_end, drop_str_long by lia. done. }
    rewrite chunk_count_step by lia. cbn [seq fmap list_fmap].
    rewrite join_empty_cons, Nat.add_0_r.
    rewrite <- fmap_S_seq, <- list_fmap_compose.
    erewrite (list_fmap_ext _ (fun i => Py.take_str step (Py.drop_str (s + step + i * step) text)));
      [|intros _ i _; simpl; f_equal; f_equal; lia].
    rewrite IH by lia. rewrite <- drop_str_drop_str. apply take_drop_str.
Qed.
End Progress.

(** With no progress the loop stays at or before the start of the text. *)
Lemma chunk_loop_diverges : forall fuel start,
  (chunk_size <= overlap)%Z -> (start <= 0)%Z -> text <> EmptyString ->
  chunk_loop fuel text chunk_size overlap start = None.
Proof.
  induction fuel as [|fuel IH]; intros start Hsizes Hstart Htext; cbn [chunk_loop].
  - destruct (Z.ltb_spec start (Z.of_nat (String.length text))); [done|].
    destruct text; [done | simpl in *; lia].
  - destruct (Z.ltb_spec start (Z.of_nat (String.length text))).
    + rewrite IH; [done | done | lia | done].
    + destruct text; [done | simpl in *; lia].
Qed.
End Chunks.

(** X16.  With [0 <= overlap < chunk_size], chunking ends.  A text of at most
    [chunk_size] characters is its own single chunk.  A longer text gives
    [ceil(len / step)] chunks, [step = chunk_size - overlap]: chunk [i] is
    [text[i*step : i*step + chunk_size]], so no chunk is longer than
    [chunk_size], and the first [step] characters of the chunks, put end to
    end, are the text. *)
Theorem X16_chunks_cover_text (text : string) (chunk_size overlap : Z) :
  (0 <= overlap < chunk_size)%Z ->
  let step := Z.to_nat (chunk_size - overlap) in
  let len := String.length text in
  ((Z.of_nat len <= chunk_size)%Z -> Extraction.chunk_text text chunk_size overlap = Some [text])
  /\ ((chunk_size < Z.of_nat len)%Z ->
      exists chunks,
        Extraction.chunk_text text chunk_size overlap = Some chunks
        /\ length chunks = (len + step - 1) / step
        /\ (forall i c, chunks !! i = Some c ->
              c = Py.take_str (Z.to_nat chunk_size) (Py.drop_str (i * step) text)
              /\ (Z.of_nat (String.length c) <= chunk_size)%Z)
        /\ Py.join EmptyString (Py.take_str step <$> chunks) = text).
Proof.
  intros Hsizes step len. split.
  - intros Hshort. unfold Extraction.chunk_text.
    destruct (Z.leb_spec (Z.of_nat (String.length text)) chunk_size); [done | subst len; lia].
  - intros Hlong. unfold Extraction.chunk_text.
    destruct (Z.leb_spec (Z.of_nat (String.length text)) chunk_size); [subst len; lia|].
    change 0%Z with (Z.of_nat 0).
    rewrite (chunk_loop_closed_form text chunk_size overlap Hsizes step eq_refl
               (String.length text) 0) by lia.
    eexists. split; [done|]. split; [|split].
    + rewrite length_fmap, length_seq. unfold Shapes.chunk_count. subst len step. cbv zeta.
      by rewrite Nat.sub_0_r.
    + intros i c Hc. rewrite list_lookup_fmap in Hc.
      destruct (seq 0 _ !! i) as [j|] eqn:Hj; [|done].
      apply lookup_seq in Hj as [-> _]. injection Hc as <-. split; [done|].
      match goal with |- (Z.of_nat (String.length ?c) <= _)%Z =>
        assert (String.length c <= Z.to_nat chunk_size) by apply take_str_length end.
      lia.
    + rewrite <- list_fmap_compose.
      erewrite (list_fmap_ext _ (fun i => Py.take_str step (Py.drop_str (0 + i * step) text)));
        [|intros _ i _; simpl; apply take_str_take_str; subst step; lia].
      apply (chunks_cover text chunk_size overlap Hsizes step eq_refl (String.length text) 0). lia.
Qed.

(** Ten characters in chunks of four with an overlap of one. *)
Lemma X16_chunks_cover_text_witness :
  exists chunks,
    Extraction.chunk_text "abcdefghij" 4 1 = Some chunks
    /\ length chunks = 4
    /\ Py.join EmptyString (Py.take_str 3 <$> chunks) = "abcdefghij".
Proof.
  destruct (proj2 (X16_chunks_cover_text "abcdefghij" 4 1 ltac:(lia)) ltac:(simpl; lia))
    as (chunks & Hrun & Hlen & _ & Hcover).
  exists chunks. split; [exact Hrun|]. split; [exact Hlen | exact Hcover].
Defined.

(** X17.  When the overlap is not smaller than the chunk size, the loop of
    [chunk_text] makes no progress: on a text longer than [chunk_size] and not
    empty, it has not ended after any number of turns. *)
Theorem X17_chunking_without_progress (text : string) (chunk_size overlap : Z) (turns : nat) :
  (chunk_size <= overlap)%Z ->
  (chunk_size < Z.of_nat (String.length text))%Z ->
  text <> EmptyString ->
  Extraction.chunk_loop turns text chunk_size overlap 0 = None
  /\ Extraction.chunk_text text chunk_size overlap = None.
Proof.
  intros Hsizes Hlong Htext. split.
  - by apply chunk_loop_diverges.
  - unfold Extraction.chunk_text.
    destruct (Z.leb_spec (Z.of_nat (String.length text)) chunk_size); [lia|].
    by apply chunk_loop_diverges.
Qed.

(** A chunk size equal to the overlap. *)
Lemma X17_chunking_without_progress_witness :
  Extraction.chunk_loop 1000 "abcdefghij" 4 4 0 = None.
Proof.
  apply (X17_chunking_without_progress "abcdefghij" 4 4 1000); [lia | simpl; lia | discriminate].
Defined.

(** ** Extraction of settlement rules *)

Section ExtractionFacts.
Import Llm Extraction.

(** With the default sizes the first chunk is the first 15000 characters. *)
Lemma chunk_text_default (text : string) :
  exists rest, chunk_text text 15000 1000 = Some (Py.take_str (Z.to_nat 15000) text :: rest).
Proof.
  unfold chunk_text.
  destruct (Z.leb_spec (Z.of_nat (String.length text)) 15000) as [Hshort|Hlong].
  - exists []. rewrite take_str_short by lia. done.
  - change 0%Z with (Z.of_nat 0).
    rewrite (chunk_loop_closed_form text 15000 1000 ltac:(lia) (Z.to_nat (15000 - 1000)) eq_refl
               (String.length text) 0) by lia.
    rewrite (chunk_count_step text 15000 1000 ltac:(lia) (Z.to_nat (15000 - 1000)) eq_refl 0) by lia.
    cbn [seq fmap list_fmap]. by eexists.
Qed.

Lemma optional_bounded (data : gmap string json) (z : option Z) :
  optional (drop_nulls data) (as_opt (as_int_between 1 10)) "clarity_score" (Some 5%Z) = inr z ->
  exists n, z = Some n /\ (1 <= n <= 10)%Z.
Proof.
  unfold optional. rewrite drop_nulls_lookup.
  destruct (data !! "clarity_score") as [v|]; [|intros [= <-]; exists 5%Z; split; [done | lia]].
  destruct v as [|b|n|l|s|items|members]; try (intros [= <-]; exists 5%Z; split; [done | lia]);
    unfold as_opt, as_int_between, as_int, bind_sum; try done.
  destruct ((1 <=? n)%Z && (n <=? 10)%Z) eqn:Hb; [|done].
  intros [= <-]. exists n. apply andb_true_iff in Hb as [H1 H2].
  apply Z.leb_le in H1, H2. split; [done | lia].
Qed.

Lemma make_SettlementRules_bounded (data : gmap string json) (rules : SettlementRules) :
  make_SettlementRules (drop_nulls data) = inr rules ->
  exists n, clarity_score rules = Some n /\ (1 <= n <= 10)%Z.
Proof.
  unfold make_SettlementRules. 
  repeat match goal with
         | |- bind_sum ?r _ = _ -> _ =>
             let H := fresh "H" in destruct r eqn:H; cbn [bind_sum]; [done|]
         end.
  intros [= <-]. cbn [clarity_score]. by eapply optional_bounded.
Qed.

Lemma ainvoke_rules_bounded (c : client) (loads : string -> exn + json) (prompt : string)
      (rules : SettlementRules) :
  ainvoke_rules c loads prompt = inr rules ->
  exists n, clarity_score rules = Some n /\ (1 <= n <= 10)%Z.
Proof.
  unfold ainvoke_rules. destruct (ainvoke_json c loads prompt) as [e|data]; cbn [bind_sum]; [done|].
  destruct data; try done. apply make_SettlementRules_bounded.
Qed.
End ExtractionFacts.

(** X18.  [extract_settlement_rules] never raises.  It returns [None] when the
    document cannot be read, when its text stripped of white space has fewer
    than 100 characters, and when no client is given and none can be built.
    When it returns rules, they are the decoded reply to the prompt built from
    the first 15000 characters of the document, and their clarity score is an
    integer from 1 to 10. *)
Theorem X18_extraction_outcomes (E : Extraction.env) (document_path : string)
        (llm_client : option Llm.client) :
  exists r,
    Extraction.extract_settlement_rules E document_path llm_client = inr r
    /\ (forall e, Extraction.load_document_text E document_path = inl e -> r = None)
    /\ (forall text,
          Extraction.load_document_text E document_path = inr text ->
          String.length (Py.strip text) < 100 -> r = None)
    /\ (forall e, llm_client = None -> Extraction.get_llm_client E = inl e -> r = None)
    /\ (forall rules,
          r = Some rules ->
          exists text c,
            Extraction.load_document_text E document_path = inr text
            /\ 100 <= String.length (Py.strip text)
            /\ match llm_client with
               | Some given => c = given
               | None => Extraction.get_llm_client E = inr c
               end
            /\ Extraction.ainvoke_rules c (Extraction.json_loads E)
                 (Extraction.extraction_prompt E (Py.take_str (Z.to_nat 15000) text)) = inr rules
            /\ exists n, Extraction.clarity_score rules = Some n /\ (1 <= n <= 10)%Z).
Proof.
  unfold Extraction.extract_settlement_rules, Extraction.extract_body.
  destruct (Extraction.load_document_text E document_path) as [e|text] eqn:Hload;
    cbn [Llm.bind_sum].
  { exists None. repeat split; try done. }
  destruct (negb (Py.truthy text) || (String.length (Py.strip text) <? 100)%nat) eqn:Hshort.
  { exists None. repeat split; try done. }
  apply orb_false_iff in Hshort as [_ Hlen]. apply Nat.ltb_ge in Hlen.
  destruct (chunk_text_default text) as [rest ->]. cbn [Llm.bind_sum].
  set (prompt := Extraction.extraction_prompt E (Py.take_str (Z.to_nat 15000) text)).
  assert (Hdone : forall c,
            match llm_client with
            | Some given => c = given
            | None => Extraction.get_llm_client E = inr c
            end ->
            exists r,
              match Llm.bind_sum (Extraction.ainvoke_rules c (Extraction.json_loads E) prompt)
                      (fun rules => inr (Some rules)) with
              | inl _ => inr None
              | inr r0 => inr r0
              end = @inr exn _ r
              /\ (forall rules, r = Some rules ->
                    Extraction.ainvoke_rules c (Extraction.json_loads E) prompt = inr rules
                    /\ exists n, Extraction.clarity_score rules = Some n /\ (1 <= n <= 10)%Z)).
  { intros c _.
    destruct (Extraction.ainvoke_rules c (Extraction.json_loads E) prompt) as [e|rules] eqn:Hr;
      cbn [Llm.bind_sum].
    - exists None. split; [done|]. intros rules [=].
    - exists (Some rules). split; [done|]. intros rules' [= <-]. split; [done|].
      by eapply ainvoke_rules_bounded. }
  destruct llm_client as [given|].
  - destruct (Hdone given eq_refl) as (r & Hrun & Hrules). exists r.
    split; [exact Hrun|]. split; [done|]. split; [intros t [= <-]; lia|]. split; [done|].
    intros rules Hr. destruct (Hrules rules Hr) as [Hreply Hscore].
    exists text, given. done.
  - destruct (Extraction.get_llm_client E) as [e|c] eqn:Hget.
    + exists None. split; [done|]. split; [done|]. split; [done|]. split; [done|]. done.
    + destruct (Hdone c eq_refl) as (r & Hrun & Hrules). exists r.
      split; [exact Hrun|]. split; [done|]. split; [intros t [= <-]; lia|]. split; [done|].
      intros rules Hr. destruct (Hrules rules Hr) as [Hreply Hscore].
      exists text, c. done.
Qed.

(** ** What a probe may ask of the outside world *)

Section Budgets.
Import Tools Schemas Effects Shapes.

Lemma within_ret {A} (a : A) : within (ret a) 0 0.
Proof. intros st. exists []. by rewrite app_nil_r. Qed.

Lemma within_raise {A} (e : exn) : within (@raise A e) 0 0.
Proof. intros st. exists []. by rewrite app_nil_r. Qed.

Lemma within_lift {A} (r : exn + A) : within (lift r) 0 0.
Proof. intros st. exists []. by rewrite app_nil_r. Qed.

Lemma within_sleep (q : Q) : within (sleep q) 0 0.
Proof. intros st. by exists [EvSleep (Qred q)]. Qed.

Lemma within_client_get (w : world) (r : request) : within (client_get w r) 1 0.
Proof. intros st. exists [EvGet r]. cbn. split; [done | lia]. Qed.

Lemma within_ddg_call (w : world) (q : string) (n : Z) : within (ddg_call w q n) 0 1.
Proof. intros st. exists [EvSearch q n]. cbn. split; [done | lia]. Qed.

Lemma within_raise_for_status (w : world) (r : response) : within (raise_for_status w r) 0 0.
Proof.
  unfold raise_for_status. destruct (is_success _); [apply within_ret | apply within_raise].
Qed.

Lemma within_mono {A} (m : M A) (g s g' s' : nat) :
  within m g s -> g <= g' -> s <= s' -> within m g' s'.
Proof.
  intros H Hg Hs st. destruct (H st) as (evs & Htr & H1 & H2). exists evs.
  split; [done | lia].
Qed.

Lemma within_bind {A B} (m : M A) (k : A -> M B) (g1 s1 g2 s2 : nat) :
  within m g1 s1 -> (forall a, within (k a) g2 s2) -> within (bind m k) (g1 + g2) (s1 + s2).
Proof.
  intros Hm Hk st. unfold bind. destruct (Hm st) as (evs1 & Htr1 & Hg1 & Hs1).
  destruct (m st) as [[e|a] st1]; cbn [snd] in *.
  - exists evs1. split; [done | lia].
  - destruct (Hk a st1) as (evs2 & Htr2 & Hg2 & Hs2). exists (evs1 ++ evs2).
    rewrite Htr2, Htr1, gets_app, search_calls_app, !length_app, app_assoc.
    split; [done | lia].
Qed.

Lemma within_try {A} (m : M A) (h : exn -> M A) (g1 s1 g2 s2 : nat) :
  within m g1 s1 -> (forall e, within (h e) g2 s2) ->
  within (try_except m h) (g1 + g2) (s1 + s2).
Proof.
  intros Hm Hh st. unfold try_except. destruct (Hm st) as (evs1 & Htr1 & Hg1 & Hs1).
  destruct (m st) as [[e|a] st1]; cbn [snd] in *.
  - destruct (Hh e st1) as (evs2 & Htr2 & Hg2 & Hs2). exists (evs1 ++ evs2).
    rewrite Htr2, Htr1, gets_app, search_calls_app, !length_app, app_assoc.
    split; [done | lia].
  - exists evs1. split; [done | lia].
Qed.

(** Steps that ask nothing of the outside world. *)
Ltac quiet :=
  repeat first
    [ apply within_ret | apply within_raise | apply within_lift | apply within_sleep
    | apply within_raise_for_status
    | apply (within_bind _ _ 0 0 0 0)
    | progress intros
    | match goal with
      | |- within (if ?b then _ else _) _ _ => destruct b
      | |- within (match ?x with _ => _ end) _ _ => destruct x
      end ].

Lemma within_website_attempt (w : world) (website_url : string) (attempt : nat) :
  within (website_attempt w website_url attempt) 1 0.
Proof.
  unfold website_attempt. apply (within_try _ _ 1 0 0 0).
  - apply (within_bind _ _ 1 0 0 0); [apply within_client_get|]. quiet.
  - quiet.
Qed.

Lemma within_website_loop (w : world) (website_url : string) : forall todo last_error,
  within (website_loop w website_url todo last_error) (length todo) 0.
Proof.
  induction todo as [|attempt rest IH]; intros last_error; cbn [website_loop length].
  - apply within_ret.
  - apply (within_bind _ _ 1 0 (length rest) 0); [apply within_website_attempt|].
    intros [f|e|e]; [| apply IH |];
      (eapply within_mono; [apply within_ret | lia | lia]).
Qed.

Lemma within_ddg_attempts (w : world) (query : string) (n : Z) (attempts : nat) :
  forall todo, within (ddg_attempts w query n attempts todo) 0 (length todo).
Proof.
  induction todo as [|attempt rest IH]; cbn [ddg_attempts length]; [apply within_ret|].
  apply (within_try _ _ 0 1 0 (length rest)); [apply within_ddg_call|].
  intros e. apply (within_bind _ _ 0 0 0 (length rest)); [quiet | intros _; apply IH].
Qed.

Lemma within_retry (w : world) (query : string) (n : Z) (attempts : nat) :
  within (_ddg_search_with_retry w query n attempts) 0 attempts.
Proof.
  unfold _ddg_search_with_retry.
  apply (within_bind _ _ 0 0 0 attempts); [quiet|]. intros _.
  apply (within_bind _ _ 0 0 0 attempts); [quiet|]. intros _.
  eapply within_mono; [apply within_ddg_attempts | lia | by rewrite length_seq].
Qed.

Lemma within_platform_search_loop (w : world) : forall queries acc,
  within (platform_search_loop w queries acc) 0 (2 * length queries).
Proof.
  induction queries as [|q rest IH]; intros acc; cbn [platform_search_loop length].
  - apply within_ret.
  - eapply within_mono;
      [apply (within_bind _ _ 0 2 0 (2 * length rest)); [apply within_retry|] | lia | lia].
    intros hits. apply (within_bind _ _ 0 0 0 (2 * length rest)); [quiet | intros _; apply IH].
Qed.

Lemma within_fetch_sample (w : world) (business_name city : string) (row : list string) :
  within (fetch_sample w business_name city row) 1 0.
Proof.
  unfold fetch_sample. destruct (_wayback_iso_date w _); [|eapply within_mono; [quiet | lia | lia]].
  destruct (negb _); [eapply within_mono; [quiet | lia | lia]|].
  apply (within_bind _ _ 1 0 0 0).
  - apply (within_try _ _ 1 0 0 0); [|quiet].
    apply (within_bind _ _ 1 0 0 0); [apply within_client_get | quiet].
  - intros [text|]; [|quiet]. destruct (_identity_score _ _ _). quiet.
Qed.

Lemma within_sample_loop (w : world) (business_name city : string) : forall sampled acc,
  within (sample_loop w business_name city sampled acc) (length sampled) 0.
Proof.
  induction sampled as [|row rest IH]; intros acc; cbn [sample_loop length].
  - apply within_ret.
  - apply (within_bind _ _ 1 0 (length rest) 0); [apply within_fetch_sample|].
    intros r. apply IH.
Qed.
End Budgets.

(** X19.  From any state, the website probe makes at most three HTTP requests
    and the archive probe at most nine, the index and eight snapshots; neither
    calls the search library.  The platform probe makes at most four search
    calls, the general and the review probe at most two each; none of the
    three makes an HTTP request. *)
Theorem X19_probe_budgets (w : Effects.world) (business_name city state website_url : string)
        (ctx : Tools.settlement_context) :
  Shapes.within (Tools.check_business_website w website_url ctx) 3 0
  /\ Shapes.within (Tools.search_platform_presence w business_name city ctx) 0 4
  /\ Shapes.within (Tools.search_general_context w business_name city state) 0 2
  /\ Shapes.within (Tools.check_review_presence w business_name city state) 0 2
  /\ Shapes.within (Tools.check_wayback_history w business_name city website_url) 9 0.
Proof.
  split; [|split; [|split; [|split]]].
  - unfold Tools.check_business_website.
    destruct (negb _); [eapply within_mono; [apply within_ret | lia | lia]|].
    apply (within_website_loop w website_url (seq 0 3)).
  - unfold Tools.search_platform_presence.
    apply (within_bind _ _ 0 4 0 0).
    + apply (within_try _ _ 0 4 0 0).
      * apply (within_bind _ _ 0 4 0 0); [|intros; apply within_ret].
        eapply within_mono; [apply within_platform_search_loop | lia |].
        rewrite length_take. lia.
      * intros e. destruct (is_instance _ _); [apply within_ret | apply within_raise].
    + intros [f|results]; [apply within_ret|]. destruct results; apply within_ret.
  - unfold Tools.search_general_context. apply (within_try _ _ 0 2 0 0).
    + apply (within_bind _ _ 0 2 0 0); [apply within_retry|].
      intros hits. destruct hits; apply within_ret.
    + intros e. destruct (is_instance _ _); apply within_ret.
  - unfold Tools.check_review_presence. apply (within_try _ _ 0 2 0 0).
    + apply (within_bind _ _ 0 2 0 0); [apply within_retry|].
      intros hits. destruct hits; apply within_ret.
    + intros e. destruct (is_instance _ _); apply within_ret.
  - unfold Tools.check_wayback_history.
    destruct (negb _); [eapply within_mono; [apply within_ret | lia | lia]|].
    destruct (negb _); [eapply within_mono; [apply within_ret | lia | lia]|].
    apply (within_try _ _ 9 0 0 0); [|intros; apply within_ret].
    unfold Tools.wayback_lookup.
    apply (within_bind _ _ 1 0 8 0); [apply within_client_get|]. intros resp.
    apply (within_bind _ _ 0 0 8 0); [apply within_raise_for_status|]. intros _.
    apply (within_bind _ _ 0 0 8 0); [apply within_lift|]. intros payload.
    destruct payload as [|items]; [eapply within_mono; [apply within_ret | lia | lia]|].
    destruct (_ <=? _)%nat; [eapply within_mono; [apply within_ret | lia | lia]|].
    apply (within_bind _ _ 0 0 8 0); [apply within_lift|]. intros row0.
    eapply within_mono;
      [apply (within_bind _ _ 8 0 0 0);
       [eapply within_mono; [apply within_sample_loop | | reflexivity]|] | lia | lia].
    + apply sampled_length_le; lia.
    + intros results. destruct results; apply within_ret.
Qed.

(** ** The archive probe and the index reply *)

Section ArchiveIndex.
Import Tools Schemas Effects.
Context (w : world) (business_name city domain : string).

(** The lookup from the initial state, by the outcome of the index request. *)
Lemma wayback_lookup_init :
  wayback_lookup w business_name city domain init
  = match http_get w 0 (mkRequest _WAYBACK_CDX_URL (cdx_params domain) PrimaryHeaders) with
    | inl e => (inl e, mkState 1 0 [EvGet (mkRequest _WAYBACK_CDX_URL (cdx_params domain)
                                             PrimaryHeaders)])
    | inr cdx_resp =>
        (let* _ := raise_for_status w cdx_resp in
         let* payload := lift (json cdx_resp) in
         match payload with
         | PNotList => ret (no_captures domain)
         | PList items =>
             if (length items <=? 1)%nat then ret (no_captures domain)
             else
               let rows := Py.sort_by (field 0) String.leb (data_rows items) in
               let* row0 := lift (match rows with
                                  | [] => inl (Exn IndexError "IndexError" "list index out of range")
                                  | r :: _ => inr r
                                  end) in
               let earliest_capture_iso :=
                 match _wayback_iso_date w (field 0 row0) with
                 | Some d => if Py.truthy d then d else "unknown"
                 | None => "unknown"
                 end in
               let sampled := _sample_wayback_rows rows 8 in
               let* sampled_results := sample_loop w business_name city sampled [] in
               match sampled_results with
               | [] =>
                   ret (Finding "wayback_archive" (Some (archive_url domain))
                          ("Wayback has captures for " +:+ domain +:+ " since "
                           +:+ earliest_capture_iso
                           +:+ ", but sampled snapshots were not parseable."))
               | _ => ret (summarize_samples domain earliest_capture_iso sampled_results)
               end
         end)
          (mkState 1 0 [EvGet (mkRequest _WAYBACK_CDX_URL (cdx_params domain) PrimaryHeaders)])
    end.
Proof.
  unfold wayback_lookup. unfold bind at 1. unfold client_get. cbn [requests searches trace init app].
  by destruct (http_get w 0 _).
Qed.
End ArchiveIndex.

(** X20.  On a URL with a host, the archive probe ends after the index
    request alone, with an error Finding that describes the exception, when
    the request raises, when the reply is not a 2xx, when its body is not
    JSON, and when the reply lists more than one item of which none is a row
    of two fields or more: then the Finding reports an IndexError.  A reply
    that is not a list, or lists at most one item, gives the Finding that
    reports no captures, which is not an error. *)
Theorem X20_archive_index_outcomes (w : Effects.world)
        (business_name city website_url domain : string) :
  website_url <> EmptyString ->
  Tools._domain_from_website w website_url = domain -> domain <> EmptyString ->
  let probe := Tools.check_wayback_history w business_name city website_url in
  let index :=
    Effects.http_get w 0
      (Effects.mkRequest Tools._WAYBACK_CDX_URL (Tools.cdx_params domain) Effects.PrimaryHeaders) in
  let unavailable e :=
    Schemas.ErrorFinding "wayback_archive" (Some (Tools.archive_url domain))
      "Wayback archive lookup was unavailable at time of verification."
      ("Wayback lookup failed: " +:+ Tools.describe e) in
  (forall e, index = inl e ->
        Effects.run probe = inr (unavailable e)
        /\ length (Effects.gets (Effects.events probe)) = 1)
  /\ (forall resp,
        index = inr resp -> Effects.is_success (Effects.status_code resp) = false ->
        Effects.run probe
        = inr (unavailable (Exn HTTPStatusError "HTTPStatusError" (Effects.status_message w resp)))
        /\ length (Effects.gets (Effects.events probe)) = 1)
  /\ (forall resp e,
        index = inr resp -> Effects.is_success (Effects.status_code resp) = true ->
        Effects.json resp = inl e ->
        Effects.run probe = inr (unavailable e)
        /\ length (Effects.gets (Effects.events probe)) = 1)
  /\ (forall resp items,
        index = inr resp -> Effects.is_success (Effects.status_code resp) = true ->
        Effects.json resp = inr (Effects.PList items) ->
        1 < length items -> Tools.data_rows items = [] ->
        Effects.run probe
        = inr (unavailable (Exn IndexError "IndexError" "list index out of range"))
        /\ length (Effects.gets (Effects.events probe)) = 1)
  /\ (forall resp,
        index = inr resp -> Effects.is_success (Effects.status_code resp) = true ->
        (Effects.json resp = inr Effects.PNotList
         \/ exists items, Effects.json resp = inr (Effects.PList items) /\ length items <= 1) ->
        Effects.run probe = inr (Tools.no_captures domain)
        /\ Schemas.is_error (Tools.no_captures domain) = false
        /\ length (Effects.gets (Effects.events probe)) = 1).
Proof.
  intros Hurl Hdom Hhost probe index unavailable.
  assert (Hprobe : probe Effects.init
                   = Effects.try_except (Tools.wayback_lookup w business_name city domain)
                       (fun e => Effects.ret (unavailable e)) Effects.init).
  { subst probe. unfold Tools.check_wayback_history.
    assert (Py.truthy website_url = true) as -> by (by destruct website_url).
    rewrite Hdom. assert (Py.truthy domain = true) as -> by (by destruct domain). done. }
  set (st1 := Effects.mkState 1 0
                [Effects.EvGet (Effects.mkRequest Tools._WAYBACK_CDX_URL (Tools.cdx_params domain)
                                  Effects.PrimaryHeaders)]).
  assert (Hend : forall f, probe Effects.init = (inr f, st1) ->
                   Effects.run probe = inr f
                   /\ length (Effects.gets (Effects.events probe)) = 1).
  { intros f Hf. unfold Effects.run, Effects.events. by rewrite Hf. }
  unfold Effects.try_except in Hprobe. rewrite wayback_lookup_init in Hprobe.
  fold index st1 in Hprobe.
  split; [|split; [|split; [|split]]].
  - intros e He. apply Hend. by rewrite Hprobe, He.
  - intros resp He Hbad. apply Hend. rewrite Hprobe, He.
    unfold Effects.bind, Effects.raise_for_status. by rewrite Hbad.
  - intros resp e He Hok Hjson. apply Hend. rewrite Hprobe, He.
    unfold Effects.bind, Effects.raise_for_status, Effects.lift. by rewrite Hok, Hjson.
  - intros resp items He Hok Hjson Hlen Hrows. apply Hend. rewrite Hprobe, He.
    unfold Effects.bind, Effects.raise_for_status, Effects.lift. rewrite Hok, Hjson.
    cbn [Effects.ret]. destruct (Nat.leb_spec (length items) 1); [lia|].
    by rewrite Hrows.
  - intros resp He Hok Hjson.
    assert (Hrun : probe Effects.init = (inr (Tools.no_captures domain), st1)).
    { rewrite Hprobe, He.
      unfold Effects.bind, Effects.raise_for_status, Effects.lift. rewrite Hok.
      cbn [Effects.ret]. destruct Hjson as [-> | (items & -> & Hlen)]; [done|].
      by destruct (Nat.leb_spec (length items) 1); [|lia]. }
    destruct (Hend _ Hrun). done.
Qed.

(** An index reply whose two items after the header are not rows. *)
Lemma X20_archive_index_outcomes_witness :
  Effects.run (Tools.check_wayback_history Examples.malformed_index "Acme Pizza" "Columbus"
                 "https://example.com")
  = inr (Schemas.ErrorFinding "wayback_archive" (Some (Tools.archive_url "example.com"))
           "Wayback archive lookup was unavailable at time of verification."
           "Wayback lookup failed: IndexError: list index out of range").
Proof.
  destruct (X20_archive_index_outcomes Examples.malformed_index "Acme Pizza" "Columbus"
              "https://example.com" "example.com")
    as (_ & _ & _ & Hrows & _); [discriminate | reflexivity | discriminate |].
  apply (Hrows (Effects.mkResponse 200 EmptyString
                  (inr (Effects.PList [Effects.IList ["timestamp"; "original"]; Effects.INotList;
                                       Effects.IList ["20200101000000"]])))
               [Effects.IList ["timestamp"; "original"]; Effects.INotList;
                Effects.IList ["20200101000000"]]);
    [reflexivity | reflexivity | reflexivity | simpl; lia | reflexivity].
Defined.

(** ** The archive probe and the snapshots *)

Section ArchiveSnapshots.
Import Tools Schemas Effects Shapes.
Context (w : world) (business_name city : string).
Hypothesis Hdown : forall k r, 1 <= k -> unreadable (http_get w k r).

Lemma fetch_sample_skipped (row : list string) (st : state) :
  1 <= requests st ->
  exists st', fetch_sample w business_name city row st = (inr None, st')
              /\ 1 <= requests st'.
Proof.
  intros Hst. unfold fetch_sample.
  destruct (_wayback_iso_date w (field 0 row)) as [iso_date|]; [|by eexists].
  destruct (negb (Py.truthy iso_date)); [by eexists|].
  unfold bind at 1, try_except, bind at 1, client_get.
  match goal with |- context [http_get w (requests st) ?r] =>
    pose proof (Hdown (requests st) r Hst) as Hun;
    destruct (http_get w (requests st) r) as [e|resp] end.
  - eexists. split; [done|]. simpl. lia.
  - cbn [unreadable] in Hun. destruct (Z.leb_spec 400 (status_code resp)).
    + eexists. split; [done|]. simpl. lia.
    + destruct Hun as [Hun|Hun]; [lia|].
      destruct (Nat.ltb_spec (String.length (_extract_text (text resp) 7000)) 40); [|lia].
      eexists. split; [done|]. simpl. lia.
Qed.

Lemma sample_loop_skipped : forall sampled st,
  1 <= requests st ->
  exists st', sample_loop w business_name city sampled [] st = (inr [], st').
Proof.
  induction sampled as [|row rest IH]; intros st Hst; cbn [sample_loop].
  - by eexists.
  - unfold bind. destruct (fetch_sample_skipped row st Hst) as (st1 & -> & Hst1).
    by apply IH.
Qed.
End ArchiveSnapshots.

(** X21.  When the index lists at least one row of two fields or more and no
    snapshot request gives text to score (each raises, answers 400 or more, or
    has fewer than 40 characters of text), the archive probe returns the
    Finding that says the snapshots were not parseable.  That Finding is not an
    error: an exception of a snapshot request is dropped, where an exception of
    the index request is reported. *)
Theorem X21_unreadable_snapshots (w : Effects.world)
        (business_name city website_url domain : string)
        (resp : Effects.response) (items : list Effects.pitem) :
  website_url <> EmptyString ->
  Tools._domain_from_website w website_url = domain -> domain <> EmptyString ->
  Effects.http_get w 0
    (Effects.mkRequest Tools._WAYBACK_CDX_URL (Tools.cdx_params domain) Effects.PrimaryHeaders)
  = inr resp ->
  Effects.is_success (Effects.status_code resp) = true ->
  Effects.json resp = inr (Effects.PList items) ->
  1 < length items -> Tools.data_rows items <> [] ->
  (forall k r, 1 <= k -> Shapes.unreadable (Effects.http_get w k r)) ->
  exists earliest_capture_iso,
    Effects.run (Tools.check_wayback_history w business_name city website_url)
    = inr (Schemas.Finding "wayback_archive" (Some (Tools.archive_url domain))
             ("Wayback has captures for " +:+ domain +:+ " since " +:+ earliest_capture_iso
              +:+ ", but sampled snapshots were not parseable.")).
Proof.
  intros Hurl Hdom Hhost Hindex Hok Hjson Hlen Hrows Hdown.
  unfold Effects.run, Tools.check_wayback_history.
  assert (Py.truthy website_url = true) as -> by (by destruct website_url).
  rewrite Hdom. assert (Py.truthy domain = true) as -> by (by destruct domain).
  cbn [negb]. unfold Effects.try_except. rewrite wayback_lookup_init, Hindex.
  unfold Effects.bind at 1, Effects.raise_for_status. rewrite Hok. cbn [Effects.ret].
  unfold Effects.bind at 1, Effects.lift. rewrite Hjson.
  destruct (Nat.leb_spec (length items) 1); [lia|].
  destruct (Py.sort_by (Tools.field 0) String.leb (Tools.data_rows items)) as [|row0 rows] eqn:Hsort.
  { pose proof (sort_by_perm (Tools.field 0) String.leb (Tools.data_rows items)) as Hperm.
    rewrite Hsort in Hperm. apply Permutation_nil_l in Hperm. done. }
  unfold Effects.bind at 1.
  unfold Effects.bind at 1.
  match goal with |- context [Tools.sample_loop w business_name city ?l [] ?st] =>
    destruct (sample_loop_skipped w business_name city Hdown l st) as (st' & ->);
      [simpl; lia|] end.
  eexists. reflexivity.
Qed.

(** One capture in the index, and every snapshot request times out. *)
Lemma X21_unreadable_snapshots_witness :
  exists earliest_capture_iso,
    Effects.run (Tools.check_wayback_history Examples.snapshots_down "Acme Pizza" "Columbus"
                   "https://example.com")
    = inr (Schemas.Finding "wayback_archive" (Some (Tools.archive_url "example.com"))
             ("Wayback has captures for " +:+ "example.com" +:+ " since " +:+ earliest_capture_iso
              +:+ ", but sampled snapshots were not parseable.")).
Proof.
  apply (X21_unreadable_snapshots Examples.snapshots_down "Acme Pizza" "Columbus"
           "https://example.com" "example.com"
           (Effects.mkResponse 200 EmptyString
              (inr (Effects.PList [Effects.IList ["timestamp"; "original"];
                                   Effects.IList ["20200101000000"; "http://example.com/"]])))
           [Effects.IList ["timestamp"; "original"];
            Effects.IList ["20200101000000"; "http://example.com/"]]);
    [discriminate | reflexivity | discriminate | reflexivity | reflexivity | reflexivity
    | simpl; lia | discriminate | intros [|k] r Hk; [lia | exact I]].
Defined.

(** ** The normalised name *)

Section NameShape.
Import Tools Shapes.

Lemma sub_runs_name_chars : forall s in_run,
  all_chars name_char (sub_runs not_name_char in_run s) = true.
Proof.
  induction s as [|c s IH]; intros in_run; [done|]. cbn [sub_runs].
  destruct (not_name_char c) eqn:Hc.
  - destruct in_run; [apply IH|]. cbn [all_chars]. by rewrite IH.
  - cbn [all_chars]. rewrite IH. unfold not_name_char in Hc. apply negb_false_iff in Hc.
    unfold name_char. by rewrite Hc.
Qed.

Lemma sub_runs_keeps_chars (set : ascii -> bool) : forall s in_run,
  all_chars name_char s = true -> all_chars name_char (sub_runs set in_run s) = true.
Proof.
  induction s as [|c s IH]; intros in_run H; [done|]. cbn [all_chars] in H.
  apply andb_true_iff in H as [Hc Hs]. cbn [sub_runs].
  destruct (set c); [destruct in_run|]; cbn [all_chars]; rewrite ?Hc, ?IH; done.
Qed.

Lemma lstrip_keeps_chars (p : ascii -> bool) : forall s,
  all_chars p s = true -> all_chars p (Py.lstrip s) = true.
Proof.
  induction s as [|c s IH]; intros H; [done|]. cbn [Py.lstrip].
  destruct (Py.is_space c); [|done]. cbn [all_chars] in H.
  apply andb_true_iff in H as [_ H]. by apply IH.
Qed.

Lemma rstrip_keeps_chars (p : ascii -> bool) : forall s,
  all_chars p s = true -> all_chars p (Py.rstrip s) = true.
Proof.
  induction s as [|c s IH]; intros H; [done|]. cbn [Py.rstrip]. cbn [all_chars] in H.
  apply andb_true_iff in H as [Hc Hs]. specialize (IH Hs).
  destruct (Py.rstrip s) as [|d r].
  - destruct (Py.is_space c); [done|]. cbn [all_chars]. by rewrite Hc.
  - cbn [all_chars] in *. by rewrite Hc, IH.
Qed.

Lemma truthy_lower (s : string) : Py.truthy (Py.lower s) = Py.truthy s.
Proof. by destruct s. Qed.
End NameShape.

(** X22.  The normalised business name holds only lowercase letters, digits
    and single blanks, and does not start with a blank.  The score and the
    owner-change signal do not depend on the case of the page text, of the
    name or of the city. *)
Theorem X22_identity_score_ignores_case
        (page_text page_text' business_name business_name' city city' : string) :
  Py.lower page_text = Py.lower page_text' ->
  Py.lower business_name = Py.lower business_name' ->
  Py.lower city = Py.lower city' ->
  Shapes.all_chars Shapes.name_char (Tools.clean_name business_name) = true
  /\ Shapes.single_blanks true (Tools.clean_name business_name) = true
  /\ Tools.clean_name business_name = Tools.clean_name business_name'
  /\ Tools._identity_score page_text business_name city
     = Tools._identity_score page_text' business_name' city'.
Proof.
  intros Htext Hname Hcity.
  assert (Hclean : Tools.clean_name business_name = Tools.clean_name business_name').
  { unfold Tools.clean_name. by rewrite Hname. }
  split; [|split; [|split]].
  - unfold Tools.clean_name, Py.strip.
    apply rstrip_keeps_chars, lstrip_keeps_chars, sub_runs_keeps_chars, sub_runs_name_chars.
  - unfold Tools.clean_name, Py.strip.
    apply rstrip_single_blanks.
    eapply (lstrip_single_blanks _ false), sub_runs_single_blanks.
  - exact Hclean.
  - unfold Tools._identity_score. rewrite Hclean, Htext, Hcity.
    by rewrite <- (truthy_lower city), <- (truthy_lower city'), Hcity.
Qed.

(** A name and a page in two spellings. *)
Lemma X22_identity_score_ignores_case_witness :
  Tools.clean_name "JOE'S  Pizza, LLC" = "joe s pizza llc"
  /\ Tools._identity_score "Welcome to JOE'S PIZZA in Wooster" "Joe's Pizza" "WOOSTER"
     = Tools._identity_score "welcome to joe's pizza in wooster" "JOE'S PIZZA" "wooster".
Proof.
  split; [reflexivity|].
  apply (X22_identity_score_ignores_case
           "Welcome to JOE'S PIZZA in Wooster" "welcome to joe's pizza in wooster"
           "Joe's Pizza" "JOE'S PIZZA" "WOOSTER" "wooster"); reflexivity.
Defined.
